(** * quzao-backend: voice-chat relay (ASR -> LLM -> TTS)

    A shallow embedding of the core of the backend:
    - [main.py]        : the sentence segmenter [find_nearest_punctuation],
                         the turn orchestrator [websocket_voice_chat] and
                         the toy configuration ([load_prompt],
                         [load_toy_config], [save_toy_config]);
    - [asr_service.py] : the recognition frame codec and [AsrClient];
    - [tts_service.py] : the synthesis frame parser and [TTSClient];
    - [llm_service.py] : the streamed generation client [LLMClient].

    Python integers are [Z]; [bytes] are [list byte]; [str] is a list of
    Unicode code points (Python indexes strings by code point, not by
    UTF-8 byte).  Exceptions are explicit results.

    The process talks to three remote services and to one client.  What
    they will send is scripted in a [World]; what the process does to
    them is appended to the world's [trace].  Coroutines become
    functions in a state-and-exception monad over the world, and an
    asynchronous generator becomes a function that takes the body of
    the [async for] that consumes it, so that the effects of producer
    and consumer interleave as they do in the single flow of the
    source.  The library functions ([gzip], [json], UTF-8, [uuid],
    [base64]) and the [config] constants are parameters, gathered in
    [Externals].  The websocket layer follows aiohttp: iterating a
    connection ends on a close message, and a close or error message
    leaves the connection closed.  The files of the configuration are
    reached through a [FileSystem], a parameter as well. *)

From Stdlib Require Import ZArith List Lia Bool String Ascii Floats.
From Stdlib.Strings Require Import Byte.
Import ListNotations.
Set Warnings "-register-all".
Local Open Scope Z_scope.

(* ================================================================== *)
(** ** Python primitives *)
(* ================================================================== *)

Module Py.

(** Exceptions raised by the modelled code paths. *)
Inductive exn : Type :=
| IndexError
| ValueError
| OverflowError
| StructError
| AttributeError
| TypeError
| BadGzipFile
| UnicodeDecodeError
| ClientConnectionError.

Inductive Exc (A : Type) : Type :=
| Ok (a : A)
| Raise (e : exn).
Arguments Ok {A} a.
Arguments Raise {A} e.

Definition char : Type := N.
Definition str : Type := list char.
Definition bytes : Type := list byte.

Definition len {A} (l : list A) : Z := Z.of_nat (List.length l).

(** [l[i]] with Python's negative indexing; [None] is [IndexError]. *)
Definition index {A} (l : list A) (i : Z) : option A :=
  if (0 <=? i) && (i <? len l) then nth_error l (Z.to_nat i)
  else if (- len l <=? i) && (i <? 0) then nth_error l (Z.to_nat (len l + i))
  else None.

(** Clamp a slice bound the way Python does. *)
Definition clamp {A} (l : list A) (i : Z) : nat :=
  if i <? 0 then Z.to_nat (Z.max 0 (len l + i))
  else Z.to_nat (Z.min i (len l)).

(** [l[a:]], [l[:b]] and [l[a:b]]. *)
Definition slice_from {A} (l : list A) (a : Z) : list A := skipn (clamp l a) l.
Definition slice_to {A} (l : list A) (b : Z) : list A := firstn (clamp l b) l.
Definition slice {A} (l : list A) (a b : Z) : list A :=
  firstn (clamp l b - clamp l a) (skipn (clamp l a) l).

(** [range(a, b)] and [range(a, b, -1)]. *)
Definition range (a b : Z) : list Z :=
  map (fun k => a + Z.of_nat k) (seq 0 (Z.to_nat (b - a))).
Definition range_down (a b : Z) : list Z :=
  map (fun k => a - Z.of_nat k) (seq 0 (Z.to_nat (a - b))).

(** A string literal of the source, as code points. *)
Definition lit (s : string) : str :=
  map (fun c => N_of_ascii c) (list_ascii_of_string s).

Definition str_eqb (a b : str) : bool :=
  if list_eq_dec N.eq_dec a b then true else false.

(** [s.startswith(p)]. *)
Fixpoint startswith (s p : str) : bool :=
  match p, s with
  | [], _ => true
  | _ :: _, [] => false
  | c :: p', d :: s' => N.eqb c d && startswith s' p'
  end.

(** The code points [str.isspace] accepts; [str.strip()] removes them
    from both ends. *)
Definition is_space (c : char) : bool :=
  ((9 <=? c) && (c <=? 13) || (28 <=? c) && (c <=? 32) || (c =? 0x85)
   || (c =? 0xA0) || (c =? 0x1680) || (0x2000 <=? c) && (c <=? 0x200A)
   || (c =? 0x2028) || (c =? 0x2029) || (c =? 0x202F) || (c =? 0x205F)
   || (c =? 0x3000))%N.

Fixpoint lstrip (s : str) : str :=
  match s with
  | c :: s' => if is_space c then lstrip s' else s
  | [] => []
  end.
Definition strip (s : str) : str := rev (lstrip (rev (lstrip s))).

(** *** Bytes and integers *)

Definition byte_val (b : byte) : Z := Z.of_N (Byte.to_N b).

(** The byte of value [z mod 256]. *)
Definition byte_of (z : Z) : byte :=
  match Byte.of_N (Z.to_N (z mod 256)) with
  | Some b => b
  | None => x00
  end.

(** [bytearray.append(z)]: [ValueError] outside [range(256)]. *)
Definition mk_byte (z : Z) : Exc byte :=
  if (0 <=? z) && (z <? 256) then Ok (byte_of z) else Raise ValueError.

(** The [k] low-order bytes of [n], most significant first. *)
Fixpoint be_bytes (k : nat) (n : Z) : bytes :=
  match k with
  | O => []
  | S k' => be_bytes k' (n / 256) ++ [byte_of n]
  end.

(** [int.from_bytes(b, "big", signed=False)] and [signed=True]. *)
Definition from_bytes_unsigned (b : bytes) : Z :=
  fold_left (fun acc x => acc * 256 + byte_val x) b 0.
Definition from_bytes_signed (b : bytes) : Z :=
  let u := from_bytes_unsigned b in
  let bits := 8 * len b in
  if (0 <? bits) && (2 ^ (bits - 1) <=? u) then u - 2 ^ bits else u.

(** [n.to_bytes(4, 'big')]. *)
Definition to_bytes4 (n : Z) : Exc bytes :=
  if (0 <=? n) && (n <? 2 ^ 32) then Ok (be_bytes 4 n) else Raise OverflowError.

(** [struct.pack('>i', n)], [struct.pack('>I', n)], [struct.unpack('>i', b)[0]]. *)
Definition pack_i (n : Z) : Exc bytes :=
  if (- 2 ^ 31 <=? n) && (n <? 2 ^ 31) then Ok (be_bytes 4 n) else Raise StructError.
Definition pack_I (n : Z) : Exc bytes :=
  if (0 <=? n) && (n <? 2 ^ 32) then Ok (be_bytes 4 n) else Raise StructError.
Definition unpack_i (b : bytes) : Exc Z :=
  if len b =? 4 then Ok (from_bytes_signed b) else Raise StructError.

End Py.
Import Py.

(* ================================================================== *)
(** ** JSON values, as [json.loads] builds them and [json.dumps] takes them *)
(* ================================================================== *)

Module Json.

Inductive json : Type :=
| JNull
| JBool (b : bool)
| JInt (z : Z)
| JFloat (f : float)
| JStr (s : str)
| JArr (l : list json)
| JObj (kv : list (str * json)).

(** Python truthiness of a value. *)
Definition truthy (v : json) : bool :=
  match v with
  | JNull => false
  | JBool b => b
  | JInt z => negb (z =? 0)
  | JFloat f => negb (PrimFloat.eqb f 0%float)
  | JStr s => match s with [] => false | _ => true end
  | JArr l => match l with [] => false | _ => true end
  | JObj kv => match kv with [] => false | _ => true end
  end.

Fixpoint lookup (kv : list (str * json)) (k : str) : option json :=
  match kv with
  | [] => None
  | (k', v) :: kv' => if str_eqb k' k then Some v else lookup kv' k
  end.

(** [d.get(k, default)] on a dict. *)
Definition dict_get (kv : list (str * json)) (k : str) (default : json) : json :=
  match lookup kv k with
  | Some v => v
  | None => default
  end.

(** [v == "..."] against a string. *)
Definition eq_str (v : json) (s : str) : bool :=
  match v with
  | JStr s' => str_eqb s' s
  | _ => false
  end.

End Json.
Import Json.

(* ================================================================== *)
(** ** Library functions and configuration the code calls *)
(* ================================================================== *)

(** The standard-library and third-party functions the services call
    ([gzip], [json], UTF-8, [uuid], [base64]), the constants of the
    [config] module and the prompt file read by [load_prompt].  A
    raising call is [None]. *)
Record Externals : Type := {
  gzip_compress : bytes -> bytes;
  gzip_decompress : bytes -> option bytes;
  utf8_encode : str -> bytes;
  utf8_decode : bytes -> option str;
  json_dumps : json -> str;
  json_loads : str -> option json;
  uuid4 : nat -> str;
  b64encode : bytes -> str;
  str_of_exn : exn -> str;
  ASR_APP_KEY : str;
  ASR_ACCESS_KEY : str;
  TTS_APPID : str;
  TTS_TOKEN : str;
  TTS_CLUSTER : str;
  voice_id : str;
  DOUBAO_API_KEY : str;
  DOUBAO_MODEL : str;
  character_setting_prompt : str
}.

(* ================================================================== *)
(** ** main.py: the sentence segmenter *)
(* ================================================================== *)

Module Segmenter.

(** ['。', '！', '？', '；', '，', '.', '!', '?', ';', ','] *)
Definition punctuations : list char :=
  [0x3002; 0xFF01; 0xFF1F; 0xFF1B; 0xFF0C; 46; 33; 63; 59; 44]%N.

Definition is_punct (c : char) : bool :=
  existsb (N.eqb c) punctuations.

(** One [for i in ...: if i < len(text) and text[i] in punctuations:
    return i] loop over the indices [idxs]; [Ok None] means the loop
    fell through. *)
Fixpoint scan (text : str) (idxs : list Z) : Exc (option Z) :=
  match idxs with
  | [] => Ok None
  | i :: rest =>
      if i <? len text then
        match index text i with
        | None => Raise IndexError
        | Some c => if is_punct c then Ok (Some i) else scan text rest
        end
      else scan text rest
  end.

Definition find_nearest_punctuation (text : str) (target_len : Z) : Exc Z :=
  if len text <=? target_len then Ok (len text - 1)
  else
    let search_start := Z.max 0 (target_len - 20) in
    let search_end := Z.min (len text) (target_len + 20) in
    match scan text (range target_len search_end) with
    | Raise e => Raise e
    | Ok (Some i) => Ok i
    | Ok None =>
        match scan text (range_down target_len (search_start - 1)) with
        | Raise e => Raise e
        | Ok (Some i) => Ok i
        | Ok None => Ok (Z.min target_len (len text - 1))
        end
    end.

End Segmenter.

(* ================================================================== *)
(** ** The world outside the process, and the effect monad *)
(* ================================================================== *)

Module Effects.

(** Messages of an aiohttp websocket, by [WSMsgType]. *)
Inductive WSMsg : Type :=
| BINARY (data : bytes)
| TEXT (data : str)
| PING
| PONG
| CLOSE
| CLOSING
| CLOSED
| ERROR.

(** One duplex connection as the client sees it: the messages the
    remote side will still deliver, and aiohttp's [closed] flag. *)
Record Channel : Type := {
  inbox : list WSMsg;
  closed : bool
}.

(** Records of [logger.warning] and [logger.error], and the frontend
    record of the synthesis parser; other informational records are
    not part of the trace. *)
Inductive LogMsg : Type :=
| AsrEmptyAudio
| AsrParseError
| AsrErrorCode (code : json)
| AsrChannelTrouble (m : WSMsg)
| TtsSizeMismatch (declared actual : Z)
| TtsError (msg : str)
| TtsFrontend (payload : bytes)
| TurnError (e : exn).

(** What the process does to the outside, in order. *)
Inductive Event : Type :=
| AsrConnect (headers : list (str * str))
| AsrSend (frame : bytes)
| TtsConnect (headers : list (str * str))
| TtsSend (frame : bytes)
| LlmPost (model : str) (messages : list (str * json))
| Synthesize (text : str)
| Generate (user_text : json)
| GenerateEnd
| SendJson (kind : str) (data : json)
| SendText (data : str)
| Log (m : LogMsg).

(** [asr_remote], [tts_remote]: what each connection opened from now on
    will deliver; [llm_remote]: the body lines of each streamed response
    requested from now on; [uuids]: how many UUIDs were drawn. *)
Record World : Type := {
  asr_remote : list (list WSMsg);
  tts_remote : list (list WSMsg);
  llm_remote : list (list bytes);
  uuids : nat;
  trace : list Event
}.

Definition M (A : Type) : Type := World -> Exc A * World.

Definition ret {A} (a : A) : M A := fun w => (Ok a, w).
Definition bind {A B} (m : M A) (k : A -> M B) : M B :=
  fun w => match m w with
           | (Ok a, w') => k a w'
           | (Raise e, w') => (Raise e, w')
           end.
Definition raise {A} (e : exn) : M A := fun w => (Raise e, w).
Definition lift {A} (r : Exc A) : M A := fun w => (r, w).
Definition lift_opt {A} (e : exn) (o : option A) : M A :=
  match o with
  | Some a => ret a
  | None => raise e
  end.

(** The world after the events [es] happened. *)
Definition extend (w : World) (es : list Event) : World :=
  {| asr_remote := asr_remote w; tts_remote := tts_remote w;
     llm_remote := llm_remote w; uuids := uuids w;
     trace := trace w ++ es |}.

Definition emit (e : Event) : M unit :=
  fun w => (Ok tt, extend w [e]).

(** [str(uuid.uuid4())]. *)
Definition fresh_uuid (ext : Externals) : M str :=
  fun w => (Ok (uuid4 ext (uuids w)),
            {| asr_remote := asr_remote w; tts_remote := tts_remote w;
               llm_remote := llm_remote w; uuids := S (uuids w);
               trace := trace w |}).

(** [session.ws_connect] towards the recognition and synthesis services:
    the next scripted connection, or a connection error. *)
Definition asr_ws_connect (headers : list (str * str)) : M Channel :=
  fun w => match asr_remote w with
           | [] => (Raise ClientConnectionError, w)
           | msgs :: rest =>
               (Ok {| inbox := msgs; closed := false |},
                {| asr_remote := rest; tts_remote := tts_remote w;
                   llm_remote := llm_remote w; uuids := uuids w;
                   trace := trace w ++ [AsrConnect headers] |})
           end.
Definition tts_ws_connect (headers : list (str * str)) : M Channel :=
  fun w => match tts_remote w with
           | [] => (Raise ClientConnectionError, w)
           | msgs :: rest =>
               (Ok {| inbox := msgs; closed := false |},
                {| asr_remote := asr_remote w; tts_remote := rest;
                   llm_remote := llm_remote w; uuids := uuids w;
                   trace := trace w ++ [TtsConnect headers] |})
           end.

(** [session.post(..., json=data)]: the body lines of the next scripted
    response. *)
Definition llm_post (model : str) (messages : list (str * json)) : M (list bytes) :=
  fun w => match llm_remote w with
           | [] => (Raise ClientConnectionError, w)
           | lines :: rest =>
               (Ok lines,
                {| asr_remote := asr_remote w; tts_remote := tts_remote w;
                   llm_remote := rest; uuids := uuids w;
                   trace := trace w ++ [LlmPost model messages] |})
           end.

(** [await ws.receive()]: the next message; a drained connection
    answers [CLOSED].  Close and error messages leave the connection
    closed. *)
Definition ws_receive (ch : Channel) : WSMsg * Channel :=
  match inbox ch with
  | [] => (CLOSED, {| inbox := []; closed := true |})
  | m :: rest =>
      (m, {| inbox := rest;
             closed := match m with
                       | CLOSE | CLOSING | CLOSED | ERROR => true
                       | _ => closed ch
                       end |})
  end.

End Effects.
Import Effects.

Declare Scope py_scope.
Delimit Scope py_scope with py.
Notation "x <- m ;; k" := (bind m (fun x => k))
  (at level 61, m at next level, right associativity) : py_scope.
Notation "' p <- m ;; k" := (bind m (fun p => k))
  (at level 61, p pattern, m at next level, right associativity) : py_scope.
Notation "m ;;; k" := (bind m (fun _ => k))
  (at level 61, right associativity) : py_scope.
Local Open Scope py_scope.

Notation "x <~ e ;; k" :=
  (match e with Ok x => k | Raise err => Raise err end)
  (at level 61, e at next level, right associativity) : py_scope.

(* ================================================================== *)
(** ** asr_service.py *)
(* ================================================================== *)

Module Asr.

Definition V1 : Z := 1 (* 0b0001 *).

Definition CLIENT_FULL_REQUEST : Z := 1 (* 0b0001 *).
Definition CLIENT_AUDIO_ONLY_REQUEST : Z := 2 (* 0b0010 *).
Definition SERVER_FULL_RESPONSE : Z := 9 (* 0b1001 *).
Definition SERVER_ERROR_RESPONSE : Z := 15 (* 0b1111 *).

Definition NO_SEQUENCE : Z := 0 (* 0b0000 *).
Definition POS_SEQUENCE : Z := 1 (* 0b0001 *).
Definition NEG_SEQUENCE : Z := 2 (* 0b0010 *).
Definition NEG_WITH_SEQUENCE : Z := 3 (* 0b0011 *).

Definition JSON : Z := 1 (* 0b0001 *).
Definition GZIP : Z := 1 (* 0b0001 *).

Record AsrRequestHeader : Type := {
  message_type : Z;
  message_type_specific_flags : Z;
  serialization_type : Z;
  compression_type : Z;
  reserved_data : bytes
}.

(** [AsrRequestHeader()] *)
Definition new_header : AsrRequestHeader :=
  {| message_type := CLIENT_FULL_REQUEST;
     message_type_specific_flags := POS_SEQUENCE;
     serialization_type := JSON;
     compression_type := GZIP;
     reserved_data := [x00] |}.

Definition with_message_type (h : AsrRequestHeader) (mt : Z) : AsrRequestHeader :=
  {| message_type := mt;
     message_type_specific_flags := message_type_specific_flags h;
     serialization_type := serialization_type h;
     compression_type := compression_type h;
     reserved_data := reserved_data h |}.

Definition with_message_type_specific_flags (h : AsrRequestHeader) (flags : Z)
  : AsrRequestHeader :=
  {| message_type := message_type h;
     message_type_specific_flags := flags;
     serialization_type := serialization_type h;
     compression_type := compression_type h;
     reserved_data := reserved_data h |}.

Definition to_bytes (h : AsrRequestHeader) : Exc bytes :=
  b0 <~ mk_byte (Z.lor (Z.shiftl V1 4) 1) ;;
  b1 <~ mk_byte (Z.lor (Z.shiftl (message_type h) 4) (message_type_specific_flags h)) ;;
  b2 <~ mk_byte (Z.lor (Z.shiftl (serialization_type h) 4) (compression_type h)) ;;
  Ok ([b0; b1; b2] ++ reserved_data h).

(** The client object: the sequence counter and the connection
    ([None] before [connect]). *)
Record AsrClient : Type := {
  seq : Z;
  ws : option Channel
}.

(** [AsrClient(app_key, access_key, session)] *)
Definition new_client : AsrClient := {| seq := 1; ws := None |}.

Section WithExternals.
Variable ext : Externals.

Definition _build_auth_headers : M (list (str * str)) :=
  reqid <- fresh_uuid ext ;;
  ret [ (lit "X-Api-Resource-Id", lit "volc.bigasr.sauc.duration");
        (lit "X-Api-Request-Id", reqid);
        (lit "X-Api-Access-Key", ASR_ACCESS_KEY ext);
        (lit "X-Api-App-Key", ASR_APP_KEY ext) ].

Definition full_request_payload (uid : str) : json :=
  JObj [ (lit "user", JObj [(lit "uid", JStr uid)]);
         (lit "audio", JObj [ (lit "format", JStr (lit "pcm"));
                              (lit "rate", JInt 16000);
                              (lit "bits", JInt 16);
                              (lit "channel", JInt 1) ]);
         (lit "request", JObj [ (lit "model_name", JStr (lit "bigmodel"));
                                (lit "enable_itn", JBool true);
                                (lit "enable_punc", JBool true);
                                (lit "show_utterances", JBool true) ]) ].

Definition _build_full_request (self : AsrClient) (uid : str) : Exc bytes :=
  let header := new_header in
  let payload_bytes := utf8_encode ext (json_dumps ext (full_request_payload uid)) in
  let compressed_payload := gzip_compress ext payload_bytes in
  h <~ to_bytes header ;;
  s <~ pack_i (seq self) ;;
  l <~ pack_I (len compressed_payload) ;;
  Ok (h ++ s ++ l ++ compressed_payload).

Definition _build_audio_request (self : AsrClient) (audio_data : bytes) (is_last : bool)
  : Exc bytes :=
  let header := new_header in
  let seq0 := seq self in
  let header :=
    if is_last then with_message_type_specific_flags header NEG_WITH_SEQUENCE
    else with_message_type_specific_flags header POS_SEQUENCE in
  let seq1 := if is_last then - seq0 else seq0 in
  let header := with_message_type header CLIENT_AUDIO_ONLY_REQUEST in
  h <~ to_bytes header ;;
  s <~ pack_i seq1 ;;
  let compressed_audio := gzip_compress ext audio_data in
  l <~ pack_I (len compressed_audio) ;;
  Ok (h ++ s ++ l ++ compressed_audio).

(** The [result] dict of [_parse_response]. *)
Record Result : Type := {
  code : json;
  is_last : bool;
  text : json
}.

(** The first half of [_parse_response]: the header nibbles, and the
    payload after the optional fields were skipped. *)
Record Stripped : Type := {
  s_message_type : Z;
  s_flags : Z;
  s_serialization : Z;
  s_compression : Z;
  s_result : Result;
  s_payload : bytes
}.

Definition strip_frame (msg : bytes) : Exc Stripped :=
  match index msg 0, index msg 1, index msg 2 with
  | Some m0, Some m1, Some m2 =>
      let header_size := Z.land (byte_val m0) 0x0f in
      let message_type := Z.shiftr (byte_val m1) 4 in
      let flags := Z.land (byte_val m1) 0x0f in
      let serialization_method := Z.shiftr (byte_val m2) 4 in
      let message_compression := Z.land (byte_val m2) 0x0f in
      let payload := slice_from msg (header_size * 4) in
      let payload := if Z.land flags 0x01 =? 0 then payload else slice_from payload 4 in
      let last := negb (Z.land flags 0x02 =? 0) in
      let payload := if Z.land flags 0x04 =? 0 then payload else slice_from payload 4 in
      if message_type =? SERVER_FULL_RESPONSE then
        Ok {| s_message_type := message_type; s_flags := flags;
              s_serialization := serialization_method;
              s_compression := message_compression;
              s_result := {| code := JInt 0; is_last := last; text := JStr [] |};
              s_payload := slice_from payload 4 |}
      else if message_type =? SERVER_ERROR_RESPONSE then
        c <~ unpack_i (slice_to payload 4) ;;
        Ok {| s_message_type := message_type; s_flags := flags;
              s_serialization := serialization_method;
              s_compression := message_compression;
              s_result := {| code := JInt c; is_last := last; text := JStr [] |};
              s_payload := slice_from payload 8 |}
      else
        Ok {| s_message_type := message_type; s_flags := flags;
              s_serialization := serialization_method;
              s_compression := message_compression;
              s_result := {| code := JInt 0; is_last := last; text := JStr [] |};
              s_payload := payload |}
  | _, _, _ => Raise IndexError
  end.

(** The JSON step inside the [try]: the updated result, and whether an
    exception was caught on the way. *)
Definition read_json (payload : bytes) (r : Result) : Result * bool :=
  match utf8_decode ext payload with
  | None => (r, true)
  | Some s =>
      match json_loads ext s with
      | Some (JObj data) =>
          let r1 := {| code := dict_get data (lit "code") (JInt 20000000);
                       is_last := is_last r; text := text r |} in
          match lookup data (lit "result") with
          | None => (r1, false)
          | Some (JObj res) =>
              ({| code := code r1; is_last := is_last r1;
                  text := dict_get res (lit "text") (JStr []) |}, false)
          | Some _ => (r1, true)
          end
      | _ => (r, true)
      end
  end.

(** The second half: the body of [if payload: try: ... except ...]. *)
Definition decode_body (s : Stripped) : Result * bool :=
  match s_payload s with
  | [] => (s_result s, false)
  | _ :: _ =>
      if s_compression s =? GZIP then
        match gzip_decompress ext (s_payload s) with
        | None => (s_result s, true)
        | Some payload =>
            if s_serialization s =? JSON then read_json payload (s_result s)
            else (s_result s, false)
        end
      else if s_serialization s =? JSON then read_json (s_payload s) (s_result s)
      else (s_result s, false)
  end.

Definition _parse_response (msg : bytes) : M Result :=
  s <- lift (strip_frame msg) ;;
  let '(result, caught) := decode_body s in
  (if caught then emit (Log AsrParseError) else ret tt) ;;;
  ret result.

Definition connect (self : AsrClient) (uid : str) : M AsrClient :=
  headers <- _build_auth_headers ;;
  ch <- asr_ws_connect headers ;;
  full_request <- lift (_build_full_request self uid) ;;
  emit (AsrSend full_request) ;;;
  let seq' := seq self + 1 in
  let '(msg, ch') := ws_receive ch in
  match msg with
  | BINARY data => _parse_response data ;;; ret tt
  | _ => ret tt
  end ;;;
  ret {| seq := seq'; ws := Some ch' |}.

(** The default [uid] of [connect]. *)
Definition default_uid : str := lit "user_001".

Definition send_audio (self : AsrClient) (audio_data : bytes) : M AsrClient :=
  if len audio_data =? 0 then
    emit (Log AsrEmptyAudio) ;;; ret self
  else
    request <- lift (_build_audio_request self audio_data false) ;;
    match ws self with
    | None => raise AttributeError
    | Some _ => emit (AsrSend request)
    end ;;;
    ret {| seq := seq self + 1; ws := ws self |}.

Definition send_end (self : AsrClient) : M unit :=
  request <- lift (_build_audio_request self [] true) ;;
  match ws self with
  | None => raise AttributeError
  | Some _ => emit (AsrSend request)
  end.

(** [result["code"] != 20000000 and result["code"] != 0] *)
Definition code_is_error (c : json) : bool :=
  match c with
  | JInt z => negb (z =? 20000000) && negb (z =? 0)
  | JBool b => b
  | JFloat f => negb (PrimFloat.eqb f 20000000%float) && negb (PrimFloat.eqb f 0%float)
  | _ => true
  end.

(** The generator [receive_results], run against the loop body of its
    consumer: [body acc text] is one iteration of the consumer's
    [async for], [acc] its local variables.  aiohttp's iterator ends on
    a close message or on a drained connection. *)
Fixpoint receive_loop {A} (msgs : list WSMsg) (was_closed : bool)
  (body : A -> json -> M A) (acc : A) : M (A * Channel) :=
  match msgs with
  | [] => ret (acc, {| inbox := []; closed := true |})
  | m :: rest =>
      match m with
      | CLOSE | CLOSING | CLOSED => ret (acc, {| inbox := rest; closed := true |})
      | BINARY data =>
          result <- _parse_response data ;;
          (if code_is_error (code result) then emit (Log (AsrErrorCode (code result)))
           else ret tt) ;;;
          acc' <- (if truthy (text result) then body acc (text result) else ret acc) ;;
          if is_last result then ret (acc', {| inbox := rest; closed := was_closed |})
          else receive_loop rest was_closed body acc'
      | ERROR =>
          emit (Log (AsrChannelTrouble ERROR)) ;;;
          ret (acc, {| inbox := rest; closed := true |})
      | _ => receive_loop rest was_closed body acc
      end
  end.

Definition receive_results {A} (self : AsrClient) (body : A -> json -> M A) (acc : A)
  : M (A * AsrClient) :=
  match ws self with
  | None => raise TypeError
  | Some ch =>
      '(acc', ch') <- receive_loop (inbox ch) (closed ch) body acc ;;
      ret (acc', {| seq := seq self; ws := Some ch' |})
  end.

End WithExternals.

End Asr.

(* ================================================================== *)
(** ** tts_service.py *)
(* ================================================================== *)

Module Tts.

Record TTSClient : Type := {
  voice_type : str;
  ws : option Channel
}.

(** [TTSClient(appid, token, cluster, voice_type, session)] *)
Definition new_client (voice : str) : TTSClient :=
  {| voice_type := voice; ws := None |}.

Section WithExternals.
Variable ext : Externals.

Definition request_json (self : TTSClient) (text uid reqid : str) : json :=
  JObj [ (lit "app", JObj [ (lit "appid", JStr (TTS_APPID ext));
                            (lit "token", JStr (lit "access_token"));
                            (lit "cluster", JStr (TTS_CLUSTER ext)) ]);
         (lit "user", JObj [ (lit "uid", JStr uid) ]);
         (lit "audio", JObj [ (lit "voice_type", JStr (voice_type self));
                              (lit "encoding", JStr (lit "pcm"));
                              (lit "rate", JInt 16000);
                              (lit "speed_ratio", JFloat 1.0%float);
                              (lit "volume_ratio", JFloat 1.0%float);
                              (lit "pitch_ratio", JFloat 1.0%float) ]);
         (lit "request", JObj [ (lit "reqid", JStr reqid);
                                (lit "text", JStr text);
                                (lit "text_type", JStr (lit "plain"));
                                (lit "operation", JStr (lit "submit")) ]) ].

(** [b'\x11\x10\x11\x00'] *)
Definition default_header : bytes := [x11; x10; x11; x00].

Definition _build_request (self : TTSClient) (text : str) : M bytes :=
  uid <- fresh_uuid ext ;;
  reqid <- fresh_uuid ext ;;
  let payload_bytes := utf8_encode ext (json_dumps ext (request_json self text uid reqid)) in
  let payload_bytes := gzip_compress ext payload_bytes in
  l <- lift (to_bytes4 (len payload_bytes)) ;;
  ret (default_header ++ l ++ payload_bytes).

(** Returns [(audio_data, is_done)]; [None] is Python's [None]. *)
Definition _parse_response (res : bytes) : M (option bytes * bool) :=
  match index res 0, index res 1, index res 2 with
  | Some r0, Some r1, Some r2 =>
      let header_size := Z.land (byte_val r0) 0x0f in
      let message_type := Z.shiftr (byte_val r1) 4 in
      let message_type_specific_flags := Z.land (byte_val r1) 0x0f in
      let message_compression := Z.land (byte_val r2) 0x0f in
      let payload := slice_from res (header_size * 4) in
      if message_type =? 0xb then
        if message_type_specific_flags =? 0 then ret (None, false)
        else
          let sequence_number := from_bytes_signed (slice_to payload 4) in
          let payload_size := from_bytes_unsigned (slice payload 4 8) in
          let audio_data := slice_from payload 8 in
          (if len audio_data =? payload_size then ret tt
           else emit (Log (TtsSizeMismatch payload_size (len audio_data)))) ;;;
          ret (Some audio_data, sequence_number <? 0)
      else if message_type =? 0xf then
        let error_msg := slice_from payload 8 in
        error_msg <- (if message_compression =? 1
                      then lift_opt BadGzipFile (gzip_decompress ext error_msg)
                      else ret error_msg) ;;
        shown <- lift_opt UnicodeDecodeError (utf8_decode ext error_msg) ;;
        emit (Log (TtsError shown)) ;;;
        ret (None, true)
      else if message_type =? 0xc then
        emit (Log (TtsFrontend payload)) ;;;
        ret (None, false)
      else ret (None, false)
  | _, _, _ => raise IndexError
  end.

Definition connect (self : TTSClient) : M TTSClient :=
  let header := [ (lit "Authorization", lit "Bearer; " ++ TTS_TOKEN ext) ] in
  ch <- tts_ws_connect header ;;
  ret {| voice_type := voice_type self; ws := Some ch |}.

(** The [async for msg in self.ws] loop of [synthesize], run against
    the loop body of its consumer. *)
Fixpoint synthesize_loop {A} (msgs : list WSMsg) (was_closed : bool)
  (body : A -> bytes -> M A) (acc : A) : M (A * Channel) :=
  match msgs with
  | [] => ret (acc, {| inbox := []; closed := true |})
  | m :: rest =>
      match m with
      | CLOSE | CLOSING | CLOSED => ret (acc, {| inbox := rest; closed := true |})
      | BINARY data =>
          '(audio_data, is_done) <- _parse_response data ;;
          acc' <- match audio_data with
                  | Some (b :: audio) => body acc (b :: audio)
                  | _ => ret acc
                  end ;;
          if is_done : bool then ret (acc', {| inbox := rest; closed := was_closed |})
          else synthesize_loop rest was_closed body acc'
      | ERROR => ret (acc, {| inbox := rest; closed := true |})
      | _ => synthesize_loop rest was_closed body acc
      end
  end.

Definition synthesize {A} (self : TTSClient) (text : str)
  (body : A -> bytes -> M A) (acc : A) : M (A * TTSClient) :=
  emit (Synthesize text) ;;;
  request <- _build_request self text ;;
  match ws self with
  | None => raise AttributeError
  | Some ch =>
      emit (TtsSend request) ;;;
      '(acc', ch') <- synthesize_loop (inbox ch) (closed ch) body acc ;;
      ret (acc', {| voice_type := voice_type self; ws := Some ch' |})
  end.

End WithExternals.

End Tts.

(* ================================================================== *)
(** ** llm_service.py *)
(* ================================================================== *)

Module Llm.

(** [messages]: the conversation, as [(role, content)]. *)
Record LLMClient : Type := {
  messages : list (str * json)
}.

(** [LLMClient(api_key, model, session)] *)
Definition new_client : LLMClient := {| messages := [] |}.

Definition add_system_message (self : LLMClient) (content : str) : LLMClient :=
  match messages self with
  | [] => {| messages := [(lit "system", JStr content)] |}
  | (role, _) :: _ =>
      if str_eqb role (lit "system") then self
      else {| messages := (lit "system", JStr content) :: messages self |}
  end.

Definition add_user_message (self : LLMClient) (content : json) : LLMClient :=
  {| messages := messages self ++ [(lit "user", content)] |}.

Definition add_assistant_message (self : LLMClient) (content : str) : LLMClient :=
  {| messages := messages self ++ [(lit "assistant", JStr content)] |}.

(** What one body line of the response amounts to. *)
Inductive LineEvent : Type :=
| Skip
| Done
| Delta (delta : str).

Section WithExternals.
Variable ext : Externals.

(** [chunk.get("choices", [{}])[0].get("delta", {}).get("content", "")]
    followed by [if delta: full_response += delta; yield delta], inside
    [try: ... except: pass]: only a non-empty string is yielded. *)
Definition chunk_delta (chunk : json) : LineEvent :=
  match chunk with
  | JObj c =>
      match dict_get c (lit "choices") (JArr [JObj []]) with
      | JArr (JObj first :: _) =>
          match dict_get first (lit "delta") (JObj []) with
          | JObj d =>
              match dict_get d (lit "content") (JStr []) with
              | JStr (ch :: s) => Delta (ch :: s)
              | _ => Skip
              end
          | _ => Skip
          end
      | _ => Skip
      end
  | _ => Skip
  end.

Definition parse_line (line : bytes) : Exc LineEvent :=
  match utf8_decode ext line with
  | None => Raise UnicodeDecodeError
  | Some s =>
      let line_str := strip s in
      if startswith line_str (lit "data: ") then
        let line_str := slice_from line_str 6 in
        if str_eqb line_str (lit "[DONE]") then Ok Done
        else match json_loads ext line_str with
             | Some chunk => Ok (chunk_delta chunk)
             | None => Ok Skip
             end
      else Ok Skip
  end.

(** The [async for line in resp.content] loop, run against the loop
    body of the consumer; returns the consumer's variables and
    [full_response]. *)
Fixpoint pump {A} (lines : list bytes) (full_response : str)
  (body : A -> str -> M A) (acc : A) : M (A * str) :=
  match lines with
  | [] => ret (acc, full_response)
  | line :: rest =>
      ev <- lift (parse_line line) ;;
      match ev with
      | Skip => pump rest full_response body acc
      | Done => ret (acc, full_response)
      | Delta delta =>
          acc' <- body acc delta ;;
          pump rest (full_response ++ delta) body acc'
      end
  end.

Definition generate_stream {A} (self : LLMClient) (user_text : json)
  (body : A -> str -> M A) (acc : A) : M (A * LLMClient) :=
  emit (Generate user_text) ;;;
  let self := if truthy user_text then add_user_message self user_text else self in
  lines <- llm_post (DOUBAO_MODEL ext) (messages self) ;;
  '(acc', full_response) <- pump lines [] body acc ;;
  emit GenerateEnd ;;;
  ret (acc', match full_response with
             | [] => self
             | _ :: _ => add_assistant_message self full_response
             end).

End WithExternals.

End Llm.

(* ================================================================== *)
(** ** main.py: the turn orchestrator *)
(* ================================================================== *)

Module Main.
Import Segmenter.

(** What [websocket.receive()] returns: audio bytes, a text message, or
    the disconnect notice. *)
Inductive ClientMsg : Type :=
| ReceiveBytes (data : bytes)
| ReceiveText (data : str)
| Disconnect.

(** The local variables of [websocket_voice_chat] that live across
    loop iterations. *)
Record Locals : Type := {
  asr_client : option Asr.AsrClient;
  tts_client : option Tts.TTSClient;
  llm_client : Llm.LLMClient;
  asr_result : json
}.

Inductive Flow : Type :=
| Continue
| Break.

(** "你是豆包，是由字节跳动开发的AI助手，回答要简洁，不要超过50个字" *)
Definition builtin_prompt : str :=
  [0x4f60; 0x662f; 0x8c46; 0x5305; 0xff0c; 0x662f; 0x7531; 0x5b57; 0x8282;
   0x8df3; 0x52a8; 0x5f00; 0x53d1; 0x7684; 0x41; 0x49; 0x52a9; 0x624b;
   0xff0c; 0x56de; 0x7b54; 0x8981; 0x7b80; 0x6d01; 0xff0c; 0x4e0d; 0x8981;
   0x8d85; 0x8fc7; 0x35; 0x30; 0x4e2a; 0x5b57]%N.

Section WithExternals.
Variable ext : Externals.

(** [websocket.send_json({"type": kind, "data": data})] and
    [websocket.send_text(data)]. *)
Definition send_json (kind : string) (data : json) : M unit :=
  emit (SendJson (lit kind) data).
Definition send_text (data : string) : M unit :=
  emit (SendText (lit data)).

(** [await AsrClient(...).connect()] and [await TTSClient(...).connect()]. *)
Definition fresh_asr : M Asr.AsrClient :=
  Asr.connect ext Asr.new_client Asr.default_uid.
Definition fresh_tts : M Tts.TTSClient :=
  Tts.connect ext (Tts.new_client (voice_id ext)).

(** The body of [async for audio_chunk in tts_client.synthesize(text)];
    its variable is [chunk_count]. *)
Definition relay_chunk (chunk_count : Z) (audio_chunk : bytes) : M Z :=
  send_json "tts" (JStr (b64encode ext audio_chunk)) ;;;
  ret (chunk_count + 1).

(** The closure [synthesize_and_send]; the [nonlocal tts_client] is
    passed in and returned. *)
Definition synthesize_and_send (tts_client : option Tts.TTSClient) (text : str)
  : M (option Tts.TTSClient) :=
  match tts_client with
  | None => raise AttributeError
  | Some c =>
      match Tts.ws c with
      | None => raise AttributeError
      | Some ch =>
          c <- (if closed ch then fresh_tts else ret c) ;;
          '(_, c) <- Tts.synthesize ext c text relay_chunk 0 ;;
          ret (Some c)
      end
  end.

(** The body of [async for llm_chunk in llm_client.generate_stream(...)];
    its variables are [llm_buffer] and [tts_client]. *)
Definition on_llm_chunk (vars : str * option Tts.TTSClient) (llm_chunk : str)
  : M (str * option Tts.TTSClient) :=
  let '(llm_buffer, tts_client) := vars in
  let llm_buffer := llm_buffer ++ llm_chunk in
  send_json "llm" (JStr llm_buffer) ;;;
  if len llm_buffer >? 100 then
    cut_pos <- lift (find_nearest_punctuation llm_buffer 50) ;;
    let sentence := slice_to llm_buffer (cut_pos + 1) in
    let llm_buffer := slice_from llm_buffer (cut_pos + 1) in
    tts_client <- synthesize_and_send tts_client sentence ;;
    ret (llm_buffer, tts_client)
  else ret (llm_buffer, tts_client).

(** The generation and synthesis of one turn: from [llm_buffer = ""]
    to the flush of the remaining buffer. *)
Definition generate_and_synthesize (L : Locals) : M Locals :=
  '(vars, llm) <- Llm.generate_stream ext (llm_client L) (asr_result L)
                    on_llm_chunk ([], tts_client L) ;;
  let '(llm_buffer, tts) := vars in
  tts <- match llm_buffer with
         | [] => ret tts
         | _ :: _ => synthesize_and_send tts llm_buffer
         end ;;
  ret {| asr_client := asr_client L; tts_client := tts;
         llm_client := llm; asr_result := asr_result L |}.

(** The branch [if cmd.get("type") == "end":]. *)
Definition on_end (L : Locals) : M Locals :=
  match asr_client L with
  | None => raise AttributeError
  | Some asr =>
      Asr.send_end ext asr ;;;
      '(result, asr) <- Asr.receive_results ext asr (fun _ text => ret text)
                          (asr_result L) ;;
      send_json "asr" result ;;;
      if negb (truthy result) then
        send_text "over" ;;;
        asr <- fresh_asr ;;
        ret {| asr_client := Some asr; tts_client := tts_client L;
               llm_client := llm_client L; asr_result := JStr [] |}
      else
        L <- generate_and_synthesize
               {| asr_client := Some asr; tts_client := tts_client L;
                  llm_client := llm_client L; asr_result := result |} ;;
        send_text "over" ;;;
        asr <- fresh_asr ;;
        ret {| asr_client := Some asr; tts_client := tts_client L;
               llm_client := llm_client L; asr_result := JStr [] |}
  end.

(** The branch [if "bytes" in message:]. *)
Definition on_bytes (L : Locals) (audio_data : bytes) : M Locals :=
  L <- match asr_client L with
       | None =>
           asr <- fresh_asr ;;
           tts <- fresh_tts ;;
           ret {| asr_client := Some asr; tts_client := Some tts;
                  llm_client := llm_client L; asr_result := asr_result L |}
       | Some _ => ret L
       end ;;
  match asr_client L with
  | None => raise AttributeError
  | Some asr =>
      asr <- Asr.send_audio ext asr audio_data ;;
      ret {| asr_client := Some asr; tts_client := tts_client L;
             llm_client := llm_client L; asr_result := asr_result L |}
  end.

(** [json.loads(data) if data.startswith('{') else {"type": "unknown"}],
    with [{"type": "unknown"}] when parsing raises. *)
Definition parse_command (data : str) : json :=
  let unknown := JObj [(lit "type", JStr (lit "unknown"))] in
  if startswith data (lit "{") then
    match json_loads ext data with
    | Some cmd => cmd
    | None => unknown
    end
  else unknown.

(** One iteration of [while True:] inside the inner [try]. *)
Definition step (m : ClientMsg) (L : Locals) : M (Flow * Locals) :=
  match m with
  | ReceiveBytes audio_data =>
      L <- on_bytes L audio_data ;; ret (Continue, L)
  | ReceiveText data =>
      match parse_command data with
      | JObj cmd =>
          if eq_str (dict_get cmd (lit "type") JNull) (lit "end") then
            L <- on_end L ;; ret (Continue, L)
          else ret (Continue, L)
      | _ => raise AttributeError
      end
  | Disconnect => ret (Break, L)
  end.

(** The [while True:] loop over the messages the client sends; when
    they run out the client is gone.  An exception is reported to the
    client and ends the loop.  The release of the connections in the
    [finally] block that follows the loop is left out. *)
Fixpoint main_loop (msgs : list ClientMsg) (L : Locals) : M unit :=
  match msgs with
  | [] => ret tt
  | m :: rest =>
      fun w =>
        match step m L w with
        | (Ok (Continue, L'), w') => main_loop rest L' w'
        | (Ok (Break, _), w') => (Ok tt, w')
        | (Raise e, w') =>
            (emit (Log (TurnError e)) ;;;
             send_json "error" (JStr (str_of_exn ext e))) w'
        end
  end.

Definition websocket_voice_chat (msgs : list ClientMsg) : M unit :=
  let default_prompt :=
    match character_setting_prompt ext with
    | [] => builtin_prompt
    | _ :: _ => character_setting_prompt ext
    end in
  let llm := Llm.add_system_message Llm.new_client default_prompt in
  main_loop msgs {| asr_client := None; tts_client := None;
                    llm_client := llm; asr_result := JStr [] |}.

End WithExternals.

End Main.

(* ================================================================== *)
(** ** main.py: the toy configuration *)
(* ================================================================== *)

Module Config.

(** What opening, reading or writing a file raises. *)
Inductive io_error : Type :=
| FileNotFoundError
| PermissionError
| UnicodeError.

Inductive Io (A : Type) : Type :=
| Done (a : A)
| Failed (e : io_error).
Arguments Done {A} a.
Arguments Failed {A} e.

(** The files below the project root, named by their path components.
    [read_text] is [open(path, 'r', encoding='utf-8')] followed by
    [read()] (or [readlines()], which splits the same text);
    [write_text] is [open(path, 'w', encoding='utf-8')] followed by
    [write(text)], and also says what the disk holds afterwards. *)
Record FileSystem : Type := {
  Disk : Type;
  read_text : Disk -> list str -> Io str;
  write_text : Disk -> list str -> str -> Io unit * Disk;
  str_of_io_error : io_error -> str
}.

Record VoiceInfo : Type := {
  voice_name : str;
  voice_code : str;
  choose : bool
}.

Module ToyConfigSave.
Record t : Type := {
  toy_name : str;
  voice_code : str;
  toy_prompt : str
}.
End ToyConfigSave.

(** The module-level variables [toy_name], [voice_id], [voices] and
    [toy_prompt]. *)
Record Globals : Type := {
  toy_name : str;
  voice_id : str;
  voices : list VoiceInfo;
  toy_prompt : str
}.

(** Their values when the module is loaded; [voice_id] starts as
    [config.TTS_VOICE_TYPE]. *)
Definition initial (TTS_VOICE_TYPE : str) : Globals :=
  {| toy_name := []; voice_id := TTS_VOICE_TYPE; voices := []; toy_prompt := [] |}.

(** "未命名手办" *)
Definition unnamed : str := [0x672a; 0x547d; 0x540d; 0x624b; 0x529e]%N.

(** "[智能体-提示词加载失败] 原因：" *)
Definition load_failed : str :=
  [0x5b; 0x667a; 0x80fd; 0x4f53; 0x2d; 0x63d0; 0x793a; 0x8bcd; 0x52a0; 0x8f7d;
   0x5931; 0x8d25; 0x5d; 0x20; 0x539f; 0x56e0; 0xff1a]%N.

(** "保存成功" and "保存失败: " *)
Definition saved : str := [0x4fdd; 0x5b58; 0x6210; 0x529f]%N.
Definition save_failed : str := [0x4fdd; 0x5b58; 0x5931; 0x8d25; 0x3a; 0x20]%N.

(** [os.path.join(project_root, "data", name)] and
    [os.path.join(project_root, "prompts", name)]. *)
Definition data_path (name : string) : list str := [lit "data"; lit name].
Definition prompts_path (name : str) : list str := [lit "prompts"; name].

(** [f.readlines()] on the text of a file: the lines with their
    newline, the last one possibly without. *)
Fixpoint readlines_from (cur : str) (s : str) : list str :=
  match s with
  | [] => match cur with
          | [] => []
          | _ :: _ => [rev cur]
          end
  | c :: s' =>
      if (c =? 10)%N then rev (c :: cur) :: readlines_from [] s'
      else readlines_from (c :: cur) s'
  end.
Definition readlines (s : str) : list str := readlines_from [] s.

(** [s.split(sep)] for a one-character separator. *)
Fixpoint split_from (sep : char) (cur : str) (s : str) : list str :=
  match s with
  | [] => [rev cur]
  | c :: s' =>
      if (c =? sep)%N then rev cur :: split_from sep [] s'
      else split_from sep (c :: cur) s'
  end.
Definition split (s : str) (sep : char) : list str := split_from sep [] s.

Section WithFiles.
Variable fs : FileSystem.

Definition load_prompt (d : Disk fs) (file_name : str) : str :=
  match read_text fs d (prompts_path file_name) with
  | Done s => strip s
  | Failed e => load_failed ++ str_of_io_error fs e
  end.

(** The loop [for idx, line in enumerate(lines)] of [load_toy_config];
    its variables are [voices] and [voice_id]. *)
Fixpoint read_voices (idx : Z) (lines : list str) (vars : list VoiceInfo * str)
  : list VoiceInfo * str :=
  match lines with
  | [] => vars
  | line :: rest =>
      let line := strip line in
      let vars :=
        match line with
        | [] => vars
        | _ :: _ =>
            match split line 44%N with
            | code :: name :: _ =>
                let code := strip code in
                let name := strip name in
                (fst vars ++ [{| voice_name := name; voice_code := code;
                                 choose := (idx =? 0) |}],
                 if idx =? 0 then code else snd vars)
            | _ => vars
            end
        end in
      read_voices (idx + 1) rest vars
  end.

(** Every failure is logged and replaced by a default. *)
Definition load_toy_config (d : Disk fs) (g : Globals) : Globals :=
  let toy_name :=
    match read_text fs d (data_path "toy_name.txt") with
    | Done s => strip s
    | Failed _ => unnamed
    end in
  let '(voices, voice_id) :=
    match read_text fs d (data_path "voice_id.txt") with
    | Done s => read_voices 0 (readlines s) ([], voice_id g)
    | Failed _ => ([], voice_id g)
    end in
  let toy_prompt :=
    match read_text fs d (prompts_path (lit "character_setting_prompt.txt")) with
    | Done s => strip s
    | Failed _ => []
    end in
  {| toy_name := toy_name; voice_id := voice_id; voices := voices;
     toy_prompt := toy_prompt |}.

(** Returns what it raised, the disk and the module variables. *)
Definition save_toy_config (config : ToyConfigSave.t) (d : Disk fs) (g : Globals)
  : Io unit * Disk fs * Globals :=
  match write_text fs d (data_path "toy_name.txt") (ToyConfigSave.toy_name config) with
  | (Failed e, d) => (Failed e, d, g)
  | (Done _, d) =>
      let g :=
        {| toy_name := ToyConfigSave.toy_name config;
           voice_id := ToyConfigSave.voice_code config;
           voices :=
             map (fun v => {| voice_name := voice_name v; voice_code := voice_code v;
                              choose := str_eqb (voice_code v)
                                          (ToyConfigSave.voice_code config) |})
                 (voices g);
           toy_prompt := toy_prompt g |} in
      match write_text fs d (prompts_path (lit "character_setting_prompt.txt"))
                       (ToyConfigSave.toy_prompt config) with
      | (Failed e, d) => (Failed e, d, g)
      | (Done _, d) =>
          (Done tt, d,
           {| toy_name := toy_name g; voice_id := voice_id g; voices := voices g;
              toy_prompt := ToyConfigSave.toy_prompt config |})
      end
  end.

Definition startup_event (d : Disk fs) (g : Globals) : Globals := load_toy_config d g.

(** [{"toy_name": ..., "voices": [...], "toy_prompt": ...}] *)
Definition get_toy_info (g : Globals) : str * list VoiceInfo * str :=
  (toy_name g, voices g, toy_prompt g).

(** [{"success": ..., "message": ...}], the disk and the module
    variables. *)
Definition save_toy_info (config : ToyConfigSave.t) (d : Disk fs) (g : Globals)
  : (bool * str) * Disk fs * Globals :=
  match save_toy_config config d g with
  | (Done _, d, g) => ((true, saved), d, g)
  | (Failed e, d, g) => ((false, save_failed ++ str_of_io_error fs e), d, g)
  end.

End WithFiles.

End Config.

(* ================================================================== *)
(** ** A concrete environment *)
(* ================================================================== *)

(** A small instance of the library functions, used to run the model
    on concrete inputs: a codec that keeps gzip's two magic bytes and
    its refusal of data that lacks them, a one-byte-per-character text
    encoding for ASCII, and a JSON reader for three one-field shapes:
    [{"type":"X"}], [{"result":{"text":"X"}}] and
    [{"choices":[{"delta":{"content":"X"}}]}]. *)
Module Demo.

Definition quote : str := [34%N].

Fixpoint strip_prefix (p s : str) : option str :=
  match p, s with
  | [], _ => Some s
  | _ :: _, [] => None
  | c :: p', d :: s' => if N.eqb c d then strip_prefix p' s' else None
  end.

Definition strip_suffix (p s : str) : option str :=
  option_map (@rev char) (strip_prefix (rev p) (rev s)).

(** [s] is [before ++ X ++ after] with [X] free of quotes and backslashes. *)
Definition between (before after s : str) : option str :=
  match strip_prefix before s with
  | None => None
  | Some rest =>
      match strip_suffix after rest with
      | None => None
      | Some x => if existsb (fun c => N.eqb c 34 || N.eqb c 92) x then None else Some x
      end
  end.

Definition command_open : str := lit "{" ++ quote ++ lit "type" ++ quote ++ lit ":" ++ quote.
Definition command_close : str := quote ++ lit "}".
Definition result_open : str :=
  lit "{" ++ quote ++ lit "result" ++ quote ++ lit ":{" ++ quote ++ lit "text" ++ quote
  ++ lit ":" ++ quote.
Definition result_close : str := quote ++ lit "}}".
Definition chunk_open : str :=
  lit "{" ++ quote ++ lit "choices" ++ quote ++ lit ":[{" ++ quote ++ lit "delta" ++ quote
  ++ lit ":{" ++ quote ++ lit "content" ++ quote ++ lit ":" ++ quote.
Definition chunk_close : str := quote ++ lit "}}]}".

Definition loads (s : str) : option json :=
  match between command_open command_close s with
  | Some x => Some (JObj [(lit "type", JStr x)])
  | None =>
      match between result_open result_close s with
      | Some x => Some (JObj [(lit "result", JObj [(lit "text", JStr x)])])
      | None =>
          match between chunk_open chunk_close s with
          | Some x =>
              Some (JObj [(lit "choices",
                           JArr [JObj [(lit "delta", JObj [(lit "content", JStr x)])]])])
          | None => None
          end
      end
  end.

Definition encode (s : str) : bytes := map (fun c => byte_of (Z.of_N c)) s.
Definition decode (b : bytes) : option str :=
  if forallb (fun x => byte_val x <? 128) b
  then Some (map (fun x => Z.to_N (byte_val x)) b) else None.

Definition compress (b : bytes) : bytes := x1f :: x8b :: b.
Definition decompress (b : bytes) : option bytes :=
  match b with
  | b0 :: b1 :: rest => if Byte.eqb b0 x1f && Byte.eqb b1 x8b then Some rest else None
  | _ => None
  end.

Definition ext : Externals :=
  {| gzip_compress := compress;
     gzip_decompress := decompress;
     utf8_encode := encode;
     utf8_decode := decode;
     json_dumps := fun _ => lit "{}";
     json_loads := loads;
     uuid4 := fun n => lit "uuid-" ++ [(48 + N.of_nat n)%N];
     b64encode := fun b => map (fun x => Z.to_N (byte_val x)) b;
     str_of_exn := fun _ => lit "error";
     ASR_APP_KEY := lit "app";
     ASR_ACCESS_KEY := lit "access";
     TTS_APPID := lit "appid";
     TTS_TOKEN := lit "token";
     TTS_CLUSTER := lit "cluster";
     voice_id := lit "voice";
     DOUBAO_API_KEY := lit "key";
     DOUBAO_MODEL := lit "model";
     character_setting_prompt := lit "Be brief." |}.

(** A world with nothing scripted and nothing done yet. *)
Definition quiet : World :=
  {| asr_remote := []; tts_remote := []; llm_remote := []; uuids := 0; trace := [] |}.

(** The text message [{"type":"end"}]. *)
Definition end_command : str := command_open ++ lit "end" ++ command_close.

(** A body line [data: {"choices":[{"delta":{"content":"X"}}]}]. *)
Definition delta_line (x : str) : bytes :=
  encode (lit "data: " ++ chunk_open ++ x ++ chunk_close).

(** A synthesis audio frame: header [0x11 0xb1 0x10 0x00], sequence
    number, declared size, audio. *)
Definition audio_frame (seq_no : Z) (declared : Z) (audio : bytes) : bytes :=
  [x11; xb1; x10; x00] ++ be_bytes 4 seq_no ++ be_bytes 4 declared ++ audio.

(** A recognition response: header [0x11 0x9f 0x11 0x00] with [f] the
    flags nibble, sequence number, payload size, compressed
    [{"result":{"text":"X"}}]. *)
Definition asr_response (flags : Z) (seq_no : Z) (x : str) : bytes :=
  let body := compress (encode (result_open ++ x ++ result_close)) in
  [x11; byte_of (Z.lor 0x90 flags); x11; x00]
  ++ be_bytes 4 seq_no ++ be_bytes 4 (len body) ++ body.

(** The recognition service is reachable once and acknowledges the
    session. *)
Definition listening : World :=
  {| asr_remote := [[BINARY (asr_response 1 1 [])]]; tts_remote := [];
     llm_remote := []; uuids := 0; trace := [] |}.

(** A synthesis error frame: header [0x11 0xf0 c 0x00] with [c] the
    serialization and compression byte, an error code, the message size
    and the message. *)
Definition error_frame (c : byte) (msg : bytes) : bytes :=
  [x11; xf0; c; x00] ++ be_bytes 4 3001 ++ be_bytes 4 (len msg) ++ msg.

(** A reply of 130 characters with a comma at index 52 and no other
    punctuation. *)
Definition reply_130 : str := repeat 97%N 52 ++ [44%N] ++ repeat 98%N 77.

(** An open synthesis session that will deliver three audio chunks;
    the second and the third each end a sentence. *)
Definition tts_session : Channel :=
  {| inbox := [BINARY (audio_frame 1 1 [x0a]);
               BINARY (audio_frame (-2) 1 [x0b]);
               BINARY (audio_frame (-1) 1 [x0c])];
     closed := false |}.

(** The orchestrator in the middle of a turn: a recognition session
    with counter 5 that will still receive [asr_inbox], the synthesis
    session above, and the transcript so far. *)
Definition in_turn (transcript : json) (asr_inbox : list WSMsg) : Main.Locals :=
  {| Main.asr_client :=
       Some {| Asr.seq := 5; Asr.ws := Some {| inbox := asr_inbox; closed := false |} |};
     Main.tts_client :=
       Some {| Tts.voice_type := lit "voice"; Tts.ws := Some tts_session |};
     Main.llm_client := Llm.add_system_message Llm.new_client (lit "Be brief.");
     Main.asr_result := transcript |}.

(** The services around it: recognition can be reached once more,
    synthesis twice, and generation will answer with [lines]. *)
Definition answering (lines : list bytes) : World :=
  {| asr_remote := [[BINARY (asr_response 1 1 [])]]; tts_remote := [[]; []];
     llm_remote := [lines]; uuids := 0; trace := [] |}.

End Demo.

(** A small file system, used to run the configuration code on
    concrete inputs: the text files it holds, the latest first, and
    the paths that cannot be written. *)
Module DemoFiles.
Import Config.

Definition path_eqb (a b : list str) : bool :=
  if list_eq_dec (list_eq_dec N.eq_dec) a b then true else false.

Record disk : Type := {
  files : list (list str * str);
  locked : list (list str)
}.

Fixpoint find (fl : list (list str * str)) (p : list str) : option str :=
  match fl with
  | [] => None
  | (q, s) :: rest => if path_eqb p q then Some s else find rest p
  end.

Definition read (d : disk) (p : list str) : Io str :=
  match find (files d) p with
  | Some s => Done s
  | None => Failed FileNotFoundError
  end.

Definition write (d : disk) (p : list str) (s : str) : Io unit * disk :=
  if existsb (path_eqb p) (locked d) then (Failed PermissionError, d)
  else (Done tt, {| files := (p, s) :: files d; locked := locked d |}).

Definition fs : FileSystem :=
  {| Disk := disk;
     read_text := read;
     write_text := write;
     str_of_io_error := fun e =>
       match e with
       | FileNotFoundError => lit "No such file or directory"
       | PermissionError => lit "Permission denied"
       | UnicodeError => lit "invalid start byte"
       end |}.

Definition newline : str := [10%N].

(** A configured toy: a name, five lines of voices (the third blank,
    the fourth without a comma) and a prompt; the prompt file is
    read-only when [lock_prompt] is set. *)
Definition shelf (lock_prompt : bool) : disk :=
  {| files :=
       [ (data_path "toy_name.txt", lit " Robo " ++ newline);
         (data_path "voice_id.txt",
          lit "v_a, Alice" ++ newline ++ lit "v_b, Bob" ++ newline ++ newline
          ++ lit "broken line" ++ newline ++ lit "v_c,Carol");
         (prompts_path (lit "character_setting_prompt.txt"), lit "Be kind." ++ newline) ];
     locked := if lock_prompt
               then [prompts_path (lit "character_setting_prompt.txt")] else [] |}.

(** A disk without any file. *)
Definition bare : disk := {| files := []; locked := [] |}.

Definition new_config : ToyConfigSave.t :=
  {| ToyConfigSave.toy_name := lit "Mecha";
     ToyConfigSave.voice_code := lit "v_b";
     ToyConfigSave.toy_prompt := lit "Be bold." |}.

(** [Demo.ext] when the prompt is what [load_prompt] returns on [d]. *)
Definition ext_on (d : disk) : Externals :=
  Build_Externals
    (gzip_compress Demo.ext) (gzip_decompress Demo.ext)
    (utf8_encode Demo.ext) (utf8_decode Demo.ext)
    (json_dumps Demo.ext) (json_loads Demo.ext)
    (uuid4 Demo.ext) (b64encode Demo.ext) (str_of_exn Demo.ext)
    (ASR_APP_KEY Demo.ext) (ASR_ACCESS_KEY Demo.ext)
    (TTS_APPID Demo.ext) (TTS_TOKEN Demo.ext) (TTS_CLUSTER Demo.ext)
    (lit "voice") (DOUBAO_API_KEY Demo.ext) (DOUBAO_MODEL Demo.ext)
    (load_prompt fs d (lit "character_setting_prompt.txt")).

End DemoFiles.

(* ================================================================== *)
(** ** Notions used in the statements *)
(* ================================================================== *)

Module Notions.

(** A message the recognition parser takes without raising: anything
    but a binary frame that lacks its header bytes or its error code. *)
Definition accepted (m : WSMsg) : Prop :=
  match m with
  | BINARY data => exists s, Asr.strip_frame data = Ok s
  | _ => True
  end.

(** The calls the orchestrator makes to the generation and synthesis
    services, as they appear in a trace. *)
Definition is_call (e : Event) : bool :=
  match e with
  | Synthesize _ | Generate _ | GenerateEnd => true
  | _ => false
  end.
Definition calls (t : list Event) : list Event := filter is_call t.

(** The texts relayed to the client for live display. *)
Definition llm_data (e : Event) : list json :=
  match e with
  | SendJson kind data => if str_eqb kind (lit "llm") then [data] else []
  | _ => []
  end.
Definition llm_relayed (t : list Event) : list json := flat_map llm_data t.

Definition is_log (e : Event) : bool :=
  match e with
  | Log _ => true
  | _ => false
  end.

(** A synthesis frame the parser reads without raising: it has its
    three header bytes and, when it is an error frame, a message that
    decompresses (if marked compressed) and decodes. *)
Definition tts_readable (ext : Externals) (res : bytes) : bool :=
  match index res 0, index res 1, index res 2 with
  | Some r0, Some r1, Some r2 =>
      if Z.shiftr (byte_val r1) 4 =? 0xf then
        let tail := slice_from (slice_from res (Z.land (byte_val r0) 0x0f * 4)) 8 in
        match (if Z.land (byte_val r2) 0x0f =? 1 then gzip_decompress ext tail
               else Some tail) with
        | Some m => match utf8_decode ext m with
                    | Some _ => true
                    | None => false
                    end
        | None => false
        end
      else true
  | _, _, _ => false
  end.

Definition tts_inbox_readable (ext : Externals) (msgs : list WSMsg) : bool :=
  forallb (fun m => match m with
                    | BINARY data => tts_readable ext data
                    | _ => true
                    end) msgs.

(** The synthesis request for [text] fits the 4-byte size field. *)
Definition request_fits (ext : Externals) (text : str) : Prop :=
  forall self uid reqid,
    len (gzip_compress ext (utf8_encode ext
           (json_dumps ext (Tts.request_json ext self text uid reqid)))) < 2 ^ 32.

(** The deltas the body lines of a streamed response yield, in order:
    what [Llm.pump] hands to the loop body (see [LlmFacts.pump_deltas]). *)
Fixpoint deltas (ext : Externals) (lines : list bytes) : Exc (list str) :=
  match lines with
  | [] => Ok []
  | line :: rest =>
      match Llm.parse_line ext line with
      | Raise e => Raise e
      | Ok Llm.Skip => deltas ext rest
      | Ok Llm.Done => Ok []
      | Ok (Llm.Delta d) =>
          match deltas ext rest with
          | Raise e => Raise e
          | Ok ds => Ok (d :: ds)
          end
      end
  end.

(** The transcripts that draining a recognition connection yields, in
    order: what [Asr.receive_loop] hands to the loop body (see
    [OrchestratorFacts.receive_loop_transcripts]). *)
Fixpoint transcripts (ext : Externals) (msgs : list WSMsg) : Exc (list json) :=
  match msgs with
  | [] => Ok []
  | m :: rest =>
      match m with
      | CLOSE | CLOSING | CLOSED | ERROR => Ok []
      | BINARY data =>
          match Asr.strip_frame data with
          | Raise e => Raise e
          | Ok s =>
              let r := fst (Asr.decode_body ext s) in
              let here := if truthy (Asr.text r) then [Asr.text r] else [] in
              if Asr.is_last r then Ok here
              else match transcripts ext rest with
                   | Raise e => Raise e
                   | Ok more => Ok (here ++ more)
                   end
          end
      | _ => transcripts ext rest
      end
  end.

(** A loop body run over the deltas [ds] in order, with the
    [full_response] the generator accumulates on the side. *)
Fixpoint feed {A} (body : A -> str -> M A) (ds : list str) (full_response : str)
  (acc : A) : M (A * str) :=
  match ds with
  | [] => ret (acc, full_response)
  | d :: ds' => bind (body acc d) (fun acc' => feed body ds' (full_response ++ d) acc')
  end.

(** The synthesis side can serve [k] more sentences: every frame it
    will deliver is readable and [k] more connections can be opened. *)
Definition tts_ready (ext : Externals) (k : nat) (ch : Channel) (w : World) : Prop :=
  tts_inbox_readable ext (inbox ch) = true /\
  forallb (tts_inbox_readable ext) (tts_remote w) = true /\
  (k <= List.length (tts_remote w))%nat.

(** Events that are neither a call to generation or synthesis nor a
    text relayed for display. *)
Definition silent (evs : list Event) : Prop :=
  calls evs = [] /\ llm_relayed evs = [].

(** The texts handed to synthesis, in order. *)
Definition synthesized (t : list Event) : list str :=
  flat_map (fun e => match e with
                     | Synthesize text => [text]
                     | _ => []
                     end) t.

(** The running buffer after each delta when nothing is cut: [acc]
    followed by the first delta, by the first two, and so on. *)
Fixpoint running (acc : str) (ds : list str) : list str :=
  match ds with
  | [] => []
  | d :: ds' => (acc ++ d) :: running (acc ++ d) ds'
  end.






(** [m] adds only events that satisfy [Q] to the trace, whether it
    returns or raises. *)
Definition emits (Q : Event -> Prop) {A} (m : M A) : Prop :=
  forall w, exists evs, trace (snd (m w)) = trace w ++ evs /\ Forall Q evs.

(** What the client may be sent: a JSON message of type [asr], [llm],
    [tts] or [error], or the text [over]. *)
Definition client_protocol (e : Event) : Prop :=
  match e with
  | SendJson kind _ =>
      kind = lit "asr" \/ kind = lit "llm" \/ kind = lit "tts" \/ kind = lit "error"
  | SendText data => data = lit "over"
  | _ => True
  end.

(** A request to the generation service names the configured model and
    opens with the system message [prompt]. *)
Definition prompted (ext : Externals) (prompt : str) (e : Event) : Prop :=
  match e with
  | LlmPost model messages =>
      model = DOUBAO_MODEL ext /\ hd_error messages = Some (lit "system", JStr prompt)
  | _ => True
  end.

(** Anything but an [error] message to the client. *)
Definition no_error_report (e : Event) : Prop :=
  match e with
  | SendJson kind _ => str_eqb kind (lit "error") = false
  | _ => True
  end.

End Notions.


(* ================================================================== *)
(** ** Facts about the Python primitives *)
(* ================================================================== *)

Module PyFacts.

Lemma len_nonneg {A} (l : list A) : 0 <= len l.
Proof. unfold len; lia. Qed.

Lemma len_nil_iff {A} (l : list A) : len l = 0 <-> l = [].
Proof.
  unfold len; destruct l as [|x l]; simpl; split; intros H;
    try reflexivity; try discriminate; lia.
Qed.

Lemma len_app {A} (l1 l2 : list A) : len (l1 ++ l2) = len l1 + len l2.
Proof. unfold len. rewrite length_app. lia. Qed.

Lemma in_range a b i : In i (range a b) <-> a <= i < b.
Proof.
  unfold range. rewrite in_map_iff. split.
  - intros (k & <- & Hk). apply in_seq in Hk. lia.
  - intros H. exists (Z.to_nat (i - a)). split; [lia|].
    apply in_seq. lia.
Qed.

Lemma in_range_down a b i : In i (range_down a b) <-> b < i <= a.
Proof.
  unfold range_down. rewrite in_map_iff. split.
  - intros (k & <- & Hk). apply in_seq in Hk. lia.
  - intros H. exists (Z.to_nat (a - i)). split; [lia|].
    apply in_seq. lia.
Qed.

Lemma range_cons a b : a < b -> range a b = a :: range (a + 1) b.
Proof.
  intros H. unfold range.
  replace (Z.to_nat (b - a)) with (S (Z.to_nat (b - (a + 1)))) by lia.
  cbn [seq map]. f_equal; [lia|].
  rewrite <- seq_shift, map_map. apply map_ext. intros k. lia.
Qed.

Lemma index_in_bounds {A} (l : list A) i :
  0 <= i < len l -> index l i = nth_error l (Z.to_nat i).
Proof.
  intros H. unfold index.
  replace ((0 <=? i) && (i <? len l)) with true; [reflexivity|].
  symmetry; apply andb_true_iff; split; [apply Z.leb_le|apply Z.ltb_lt]; lia.
Qed.

Lemma index_some {A} (l : list A) i :
  0 <= i < len l -> exists x, index l i = Some x.
Proof.
  intros H. rewrite index_in_bounds by assumption.
  destruct (nth_error l (Z.to_nat i)) eqn:E; [eauto|].
  apply nth_error_None in E. unfold len in H. lia.
Qed.

Lemma slice_from_nonneg {A} (l : list A) a :
  0 <= a -> slice_from l a = skipn (Z.to_nat a) l.
Proof.
  intros H. unfold slice_from, clamp.
  replace (a <? 0) with false by (symmetry; apply Z.ltb_ge; lia).
  destruct (Z.le_gt_cases a (len l)).
  - now rewrite Z.min_l.
  - rewrite Z.min_r by lia. unfold len in *.
    rewrite !skipn_all2; [reflexivity | lia | lia].
Qed.

Lemma slice_to_nonneg {A} (l : list A) b :
  0 <= b -> slice_to l b = firstn (Z.to_nat b) l.
Proof.
  intros H. unfold slice_to, clamp.
  replace (b <? 0) with false by (symmetry; apply Z.ltb_ge; lia).
  destruct (Z.le_gt_cases b (len l)).
  - now rewrite Z.min_l.
  - rewrite Z.min_r by lia. unfold len in *.
    rewrite !firstn_all2; [reflexivity | lia | lia].
Qed.

Lemma slice_nonneg {A} (l : list A) a b :
  0 <= a <= b -> slice l a b = firstn (Z.to_nat (b - a)) (skipn (Z.to_nat a) l).
Proof.
  intros H. unfold slice, clamp.
  replace (a <? 0) with false by (symmetry; apply Z.ltb_ge; lia).
  replace (b <? 0) with false by (symmetry; apply Z.ltb_ge; lia).
  destruct (Z.le_gt_cases a (len l)) as [Ha|Ha].
  - rewrite (Z.min_l a) by lia.
    destruct (Z.le_gt_cases b (len l)) as [Hb|Hb].
    + rewrite Z.min_l by lia. f_equal. lia.
    + rewrite Z.min_r by lia.
      rewrite !firstn_all2; [reflexivity | |]; rewrite length_skipn; unfold len in *; lia.
  - rewrite !Z.min_r by lia. unfold len in *.
    rewrite !skipn_all2 by lia. now rewrite !firstn_nil.
Qed.

(** *** Big-endian integers *)

Lemma byte_val_range b : 0 <= byte_val b < 256.
Proof.
  unfold byte_val. pose proof (Byte.to_N_bounded b). lia.
Qed.

Lemma byte_val_byte_of z : byte_val (byte_of z) = z mod 256.
Proof.
  unfold byte_val, byte_of.
  pose proof (Z.mod_pos_bound z 256 ltac:(lia)) as Hb.
  destruct (Byte.of_N (Z.to_N (z mod 256))) eqn:E.
  - apply Byte.to_of_N in E. rewrite E. lia.
  - apply Byte.of_N_None_iff in E. lia.
Qed.

Lemma from_bytes_unsigned_snoc l b :
  from_bytes_unsigned (l ++ [b]) = from_bytes_unsigned l * 256 + byte_val b.
Proof. unfold from_bytes_unsigned. now rewrite fold_left_app. Qed.

Lemma length_be_bytes k n : List.length (be_bytes k n) = k.
Proof.
  revert n; induction k as [|k IH]; intros n; simpl; [reflexivity|].
  rewrite length_app, IH. simpl. lia.
Qed.

Lemma from_bytes_unsigned_be_bytes k n :
  from_bytes_unsigned (be_bytes k n) = n mod 256 ^ Z.of_nat k.
Proof.
  revert n; induction k as [|k IH]; intros n.
  - simpl. now rewrite Z.mod_1_r.
  - cbn [be_bytes]. rewrite from_bytes_unsigned_snoc, IH, byte_val_byte_of.
    rewrite Nat2Z.inj_succ, Z.pow_succ_r by lia.
    rewrite (Z.rem_mul_r n 256 (256 ^ Z.of_nat k)) by lia. lia.
Qed.

(** A packed 32-bit signed integer reads back as itself. *)
Lemma from_bytes_signed_be_bytes4 n :
  - 2 ^ 31 <= n < 2 ^ 31 -> from_bytes_signed (be_bytes 4 n) = n.
Proof.
  intros H. unfold from_bytes_signed.
  rewrite from_bytes_unsigned_be_bytes.
  unfold len. rewrite length_be_bytes.
  change (8 * Z.of_nat 4) with 32. change (256 ^ Z.of_nat 4) with (2 ^ 32).
  change (0 <? 32) with true. cbn [andb].
  destruct (Z.le_gt_cases 0 n) as [Hn|Hn].
  - rewrite Z.mod_small by lia.
    replace (2 ^ (32 - 1) <=? n) with false by (symmetry; apply Z.leb_gt; lia).
    reflexivity.
  - assert (E : n mod 2 ^ 32 = n + 2 ^ 32).
    { symmetry. apply Z.mod_unique with (q := -1); lia. }
    rewrite E.
    replace (2 ^ (32 - 1) <=? n + 2 ^ 32) with true by (symmetry; apply Z.leb_le; lia).
    lia.
Qed.

Lemma unpack_pack_i n b : pack_i n = Ok b -> unpack_i b = Ok n.
Proof.
  unfold pack_i, unpack_i.
  destruct ((- 2 ^ 31 <=? n) && (n <? 2 ^ 31)) eqn:E; [|discriminate].
  intros Hb. assert (b = be_bytes 4 n) as -> by congruence. clear Hb.
  apply andb_true_iff in E as [E1 E2].
  apply Z.leb_le in E1. apply Z.ltb_lt in E2.
  replace (len (be_bytes 4 n) =? 4) with true
    by (unfold len; now rewrite length_be_bytes).
  now rewrite from_bytes_signed_be_bytes4 by lia.
Qed.

Lemma index_0 {A} (a : A) l : index (a :: l) 0 = Some a.
Proof.
  rewrite index_in_bounds; [reflexivity|]. unfold len. cbn [List.length]. lia.
Qed.

Lemma index_1 {A} (a b : A) l : index (a :: b :: l) 1 = Some b.
Proof.
  rewrite index_in_bounds; [reflexivity|]. unfold len. cbn [List.length]. lia.
Qed.

Lemma index_2 {A} (a b c : A) l : index (a :: b :: c :: l) 2 = Some c.
Proof.
  rewrite index_in_bounds; [reflexivity|]. unfold len. cbn [List.length]. lia.
Qed.

End PyFacts.

(* ================================================================== *)
(** ** The segmenter: bounds of the cut *)
(* ================================================================== *)

Module SegmenterFacts.
Import Segmenter PyFacts.

(** A scan over non-negative indices never raises, and a hit is one of
    the scanned indices and lies inside the text. *)
Lemma scan_total text idxs :
  Forall (fun i => 0 <= i) idxs ->
  scan text idxs = Ok None \/
  exists i, scan text idxs = Ok (Some i) /\ In i idxs /\ 0 <= i < len text.
Proof.
  induction 1 as [|i rest Hi _ IH]; simpl; [now left|].
  destruct (i <? len text) eqn:Hlt.
  - apply Z.ltb_lt in Hlt.
    destruct (index_some text i) as (c & ->); [lia|].
    destruct (is_punct c).
    + right. exists i. repeat split; auto; lia.
    + destruct IH as [IH | (j & Hj & Hin & Hb)]; [now left|].
      right. exists j. auto.
  - destruct IH as [IH | (j & Hj & Hin & Hb)]; [now left|].
    right. exists j. auto.
Qed.

Lemma range_nonneg a b : 0 <= a -> Forall (fun i => 0 <= i) (range a b).
Proof. intros H. apply Forall_forall. intros i Hi. apply in_range in Hi. lia. Qed.

Lemma range_down_nonneg a b : -1 <= b -> Forall (fun i => 0 <= i) (range_down a b).
Proof. intros H. apply Forall_forall. intros i Hi. apply in_range_down in Hi. lia. Qed.

(** The forward scan stops at the first punctuation mark. *)
Lemma scan_forward_hit text (n : nat) : forall a j b c,
  j = a + Z.of_nat n -> 0 <= a -> j < b -> j < len text ->
  (forall i, a <= i < j -> exists d, index text i = Some d /\ is_punct d = false) ->
  index text j = Some c -> is_punct c = true ->
  scan text (range a b) = Ok (Some j).
Proof.
  induction n as [|n IH]; intros a j b c Hj Ha Hb Hlen Hbefore Hc Hp.
  - assert (j = a) as -> by lia.
    rewrite range_cons by lia. cbn [scan].
    replace (a <? len text) with true by (symmetry; apply Z.ltb_lt; lia).
    now rewrite Hc, Hp.
  - rewrite range_cons by lia. cbn [scan].
    replace (a <? len text) with true by (symmetry; apply Z.ltb_lt; lia).
    destruct (Hbefore a) as (d & -> & ->); [lia|].
    apply (IH (a + 1) j b c); auto; try lia.
    intros i Hi. apply Hbefore. lia.
Qed.

(** When the buffer fits in the target length the whole buffer is
    consumed: the cut is its last index. *)
Lemma find_cut_short text t :
  len text <= t -> find_nearest_punctuation text t = Ok (len text - 1).
Proof.
  intros H. unfold find_nearest_punctuation.
  apply Z.leb_le in H. now rewrite H.
Qed.

Lemma find_cut_long text t :
  0 <= t -> t < len text ->
  exists i, find_nearest_punctuation text t = Ok i /\ 0 <= i < len text.
Proof.
  intros Ht Hlen. unfold find_nearest_punctuation.
  replace (len text <=? t) with false by (symmetry; apply Z.leb_gt; lia).
  cbv zeta.
  destruct (scan_total text (range t (Z.min (len text) (t + 20))))
    as [-> | (i & -> & _ & Hb)]; [apply range_nonneg; lia | | eauto].
  destruct (scan_total text (range_down t (Z.max 0 (t - 20) - 1)))
    as [-> | (i & -> & _ & Hb)]; [apply range_down_nonneg; lia | | eauto].
  exists (Z.min t (len text - 1)). split; [reflexivity | lia].
Qed.

(** A punctuation mark at [j], at most 19 places after the target and
    with none between the target and it, is where the cut lands. *)
Lemma find_cut_forward text t j c :
  0 <= t <= j -> j < t + 20 -> j < len text ->
  (forall i, t <= i < j -> exists d, index text i = Some d /\ is_punct d = false) ->
  index text j = Some c -> is_punct c = true ->
  find_nearest_punctuation text t = Ok j.
Proof.
  intros Ht Hj Hlen Hbefore Hc Hp. unfold find_nearest_punctuation.
  replace (len text <=? t) with false by (symmetry; apply Z.leb_gt; lia).
  cbv zeta.
  rewrite (scan_forward_hit text (Z.to_nat (j - t)) t j _ c); auto; lia.
Qed.

(** C7. For every buffer and every target length [t >= 0] shorter than
    the buffer, the segmenter returns (it raises nothing) an index [i]
    with [0 <= i < len buf].  The segmenter is a function of the buffer
    and the target alone: it takes no other argument and reads no
    state, so equal arguments give equal cuts. *)
Theorem find_cut_within_bounds (buf : str) (t : Z) :
  0 <= t -> t < len buf ->
  (exists i, find_nearest_punctuation buf t = Ok i /\ 0 <= i < len buf) /\
  (forall buf' t', buf' = buf -> t' = t ->
     find_nearest_punctuation buf' t' = find_nearest_punctuation buf t).
Proof.
  intros Ht Hlen. split.
  - now apply find_cut_long.
  - intros buf' t' -> ->. reflexivity.
Qed.

Lemma find_cut_within_bounds_witness :
  (exists i, find_nearest_punctuation (lit "Hi there, friend.") 5 = Ok i
             /\ 0 <= i < len (lit "Hi there, friend.")) /\
  (forall buf' t', buf' = lit "Hi there, friend." -> t' = 5 ->
     find_nearest_punctuation buf' t'
     = find_nearest_punctuation (lit "Hi there, friend.") 5).
Proof.
  apply (find_cut_within_bounds (lit "Hi there, friend.") 5).
  - discriminate.
  - reflexivity.
Defined.

(** C10. For every target length [t >= 0] the segmenter returns [-1] on
    the empty buffer and, more generally, [len buf - 1] on every buffer
    with [len buf <= t]; and whatever the buffer, the segmenter returns
    an index, which is negative exactly when the buffer is empty. *)
Theorem find_cut_negative_iff_empty (buf : str) (t : Z) :
  0 <= t ->
  find_nearest_punctuation [] t = Ok (-1) /\
  (len buf <= t -> find_nearest_punctuation buf t = Ok (len buf - 1)) /\
  (exists i, find_nearest_punctuation buf t = Ok i /\ (i < 0 <-> buf = [])).
Proof.
  intros Ht. split; [|split].
  - apply (find_cut_short [] t). cbn. lia.
  - apply find_cut_short.
  - destruct (Z.le_gt_cases (len buf) t) as [Hs|Hl].
    + exists (len buf - 1). split; [now apply find_cut_short|].
      pose proof (len_nonneg buf).
      split; intros H0; [apply len_nil_iff; lia | apply len_nil_iff in H0; lia].
    + destruct (find_cut_long buf t Ht) as (i & Hi & Hb); [lia|].
      exists i. split; [exact Hi|].
      split; intros H0; [lia | apply len_nil_iff in H0; lia].
Qed.

Lemma find_cut_negative_iff_empty_witness :
  find_nearest_punctuation [] 50 = Ok (-1) /\
  (len (lit "ok") <= 50 -> find_nearest_punctuation (lit "ok") 50 = Ok (len (lit "ok") - 1)) /\
  (exists i, find_nearest_punctuation (lit "ok") 50 = Ok i /\ (i < 0 <-> lit "ok" = [])).
Proof.
  apply (find_cut_negative_iff_empty (lit "ok") 50). discriminate.
Defined.

End SegmenterFacts.

(* ================================================================== *)
(** ** Facts about the effect monad *)
(* ================================================================== *)

Module EffectFacts.

Lemma extend_nil w : extend w [] = w.
Proof. destruct w. unfold extend. cbn. now rewrite app_nil_r. Qed.

Lemma extend_extend w a b : extend (extend w a) b = extend w (a ++ b).
Proof. unfold extend. cbn. now rewrite app_assoc. Qed.

Lemma bind_ok {A B} (m : M A) (k : A -> M B) w a w' :
  m w = (Ok a, w') -> bind m k w = k a w'.
Proof. intros H. unfold bind. now rewrite H. Qed.

Lemma bind_emit {B} e (k : unit -> M B) w : bind (emit e) k w = k tt (extend w [e]).
Proof. reflexivity. Qed.

Lemma bind_ret {A B} (a : A) (k : A -> M B) w : bind (ret a) k w = k a w.
Proof. reflexivity. Qed.

End EffectFacts.

(* ================================================================== *)
(** ** The recognition session: frames and the sequence counter *)
(* ================================================================== *)

Module AsrFacts.
Import Asr PyFacts EffectFacts Notions.

Lemma pack_i_ok n : - 2 ^ 31 <= n < 2 ^ 31 -> pack_i n = Ok (be_bytes 4 n).
Proof.
  intros H. unfold pack_i.
  replace ((- 2 ^ 31 <=? n) && (n <? 2 ^ 31)) with true; [reflexivity|].
  symmetry. apply andb_true_iff. split; [apply Z.leb_le | apply Z.ltb_lt]; lia.
Qed.

Lemma pack_I_ok n : 0 <= n < 2 ^ 32 -> pack_I n = Ok (be_bytes 4 n).
Proof.
  intros H. unfold pack_I.
  replace ((0 <=? n) && (n <? 2 ^ 32)) with true; [reflexivity|].
  symmetry. apply andb_true_iff. split; [apply Z.leb_le | apply Z.ltb_lt]; lia.
Qed.

Lemma build_audio_request_ok ext self audio last :
  - 2 ^ 31 < seq self < 2 ^ 31 ->
  len (gzip_compress ext audio) < 2 ^ 32 ->
  _build_audio_request ext self audio last
  = Ok ([x11; if last then x23 else x21; x11; x00] ++ be_bytes 4 (if last then - seq self else seq self)
        ++ be_bytes 4 (len (gzip_compress ext audio)) ++ gzip_compress ext audio).
Proof.
  intros Hseq Hlen. unfold _build_audio_request.
  pose proof (len_nonneg (gzip_compress ext audio)).
  destruct last; cbv zeta.
  - change (to_bytes _) with (Ok ([x11; x23; x11; x00])). cbv iota beta.
    rewrite pack_i_ok, pack_I_ok by lia. reflexivity.
  - change (to_bytes _) with (Ok ([x11; x21; x11; x00])). cbv iota beta.
    rewrite pack_i_ok, pack_I_ok by lia. reflexivity.
Qed.

Lemma build_full_request_ok ext self uid :
  - 2 ^ 31 <= seq self < 2 ^ 31 ->
  len (gzip_compress ext (utf8_encode ext (json_dumps ext (full_request_payload uid)))) < 2 ^ 32 ->
  _build_full_request ext self uid
  = Ok ([x11; x11; x11; x00] ++ be_bytes 4 (seq self)
        ++ be_bytes 4 (len (gzip_compress ext (utf8_encode ext
                              (json_dumps ext (full_request_payload uid)))))
        ++ gzip_compress ext (utf8_encode ext (json_dumps ext (full_request_payload uid)))).
Proof.
  intros Hseq Hlen. unfold _build_full_request.
  set (c := gzip_compress ext _) in *.
  pose proof (len_nonneg c).
  cbv zeta. change (to_bytes new_header) with (Ok [x11; x11; x11; x00]). cbv iota beta.
  rewrite pack_i_ok, pack_I_ok by lia. reflexivity.
Qed.

(** The sequence field of a frame: bytes 4 to 8. *)
Lemma sequence_field (h s rest : bytes) :
  List.length h = 4%nat -> List.length s = 4%nat -> slice (h ++ s ++ rest) 4 8 = s.
Proof.
  intros Hh Hs. rewrite slice_nonneg by lia.
  destruct h as [|h0 [|h1 [|h2 [|h3 [|]]]]]; try discriminate.
  destruct s as [|s0 [|s1 [|s2 [|s3 [|]]]]]; try discriminate.
  reflexivity.
Qed.

Lemma frame_sequence (h : bytes) n rest :
  List.length h = 4%nat ->
  - 2 ^ 31 <= n < 2 ^ 31 ->
  unpack_i (slice (h ++ be_bytes 4 n ++ rest) 4 8) = Ok n.
Proof.
  intros Hh H. rewrite sequence_field; [| exact Hh | apply length_be_bytes].
  apply unpack_pack_i. now apply pack_i_ok.
Qed.

Lemma send_end_frame ext self ch w :
  ws self = Some ch ->
  - 2 ^ 31 < seq self < 2 ^ 31 ->
  len (gzip_compress ext []) < 2 ^ 32 ->
  send_end ext self w
  = (Ok tt, extend w [AsrSend ([x11; x23; x11; x00] ++ be_bytes 4 (- seq self)
                               ++ be_bytes 4 (len (gzip_compress ext []))
                               ++ gzip_compress ext [])]).
Proof.
  intros Hws Hseq Hlen. unfold send_end, bind, lift.
  rewrite build_audio_request_ok by assumption. now rewrite Hws.
Qed.

Lemma send_audio_nonempty ext self ch audio w :
  ws self = Some ch ->
  - 2 ^ 31 < seq self < 2 ^ 31 ->
  len (gzip_compress ext audio) < 2 ^ 32 ->
  audio <> [] ->
  send_audio ext self audio w
  = (Ok {| seq := seq self + 1; ws := ws self |},
     extend w [AsrSend ([x11; x21; x11; x00] ++ be_bytes 4 (seq self)
                        ++ be_bytes 4 (len (gzip_compress ext audio))
                        ++ gzip_compress ext audio)]).
Proof.
  intros Hws Hseq Hlen Hne. unfold send_audio.
  replace (len audio =? 0) with false.
  2:{ symmetry. apply Z.eqb_neq. intros E. now apply len_nil_iff in E. }
  unfold bind, lift. rewrite build_audio_request_ok by assumption.
  now rewrite Hws.
Qed.

Lemma send_audio_empty ext self w :
  send_audio ext self [] w = (Ok self, extend w [Log AsrEmptyAudio]).
Proof. reflexivity. Qed.

(** C3, as the code has it.  In every state of a connected session whose
    counter is a positive 32-bit integer, [send_end] emits exactly one
    frame, whose 4-byte signed big-endian sequence field is the negation
    of the counter (so it is negative), and leaves the counter alone;
    for every non-empty byte string, whatever its size, [send_audio]
    emits exactly one frame carrying the counter itself (positive) and
    increments the counter by exactly 1; on the empty byte string
    [send_audio] emits no frame, records a warning and leaves the
    counter unchanged. *)
Theorem sequence_sign_invariant (ext : Externals) (self : AsrClient) (ch : Channel)
  (audio_data : bytes) (w : World) :
  ws self = Some ch ->
  1 <= seq self < 2 ^ 31 ->
  len (gzip_compress ext []) < 2 ^ 32 ->
  len (gzip_compress ext audio_data) < 2 ^ 32 ->
  (exists frame,
      send_end ext self w = (Ok tt, extend w [AsrSend frame]) /\
      unpack_i (slice frame 4 8) = Ok (- seq self) /\ - seq self < 0) /\
  (audio_data <> [] ->
   exists frame,
      send_audio ext self audio_data w
      = (Ok {| seq := seq self + 1; ws := ws self |}, extend w [AsrSend frame]) /\
      unpack_i (slice frame 4 8) = Ok (seq self) /\ 0 < seq self) /\
  send_audio ext self [] w = (Ok self, extend w [Log AsrEmptyAudio]).
Proof.
  intros Hws Hseq Hend Haudio. split; [|split].
  - eexists. split; [apply (send_end_frame ext self ch); auto; lia|].
    split; [apply frame_sequence; [reflexivity | lia] | lia].
  - intros Hne. eexists.
    split; [apply (send_audio_nonempty ext self ch); auto; lia|].
    split; [apply frame_sequence; [reflexivity | lia] | lia].
  - apply send_audio_empty.
Qed.

Lemma sequence_sign_invariant_witness :
  let self := {| seq := 2; ws := Some {| inbox := []; closed := false |} |} in
  (exists frame,
      send_end Demo.ext self Demo.quiet = (Ok tt, extend Demo.quiet [AsrSend frame]) /\
      unpack_i (slice frame 4 8) = Ok (- seq self) /\ - seq self < 0) /\
  ([x01; x02] <> [] ->
   exists frame,
      send_audio Demo.ext self [x01; x02] Demo.quiet
      = (Ok {| seq := seq self + 1; ws := ws self |}, extend Demo.quiet [AsrSend frame]) /\
      unpack_i (slice frame 4 8) = Ok (seq self) /\ 0 < seq self) /\
  send_audio Demo.ext self [] Demo.quiet = (Ok self, extend Demo.quiet [Log AsrEmptyAudio]).
Proof.
  intros self.
  apply (sequence_sign_invariant Demo.ext self {| inbox := []; closed := false |}
           [x01; x02] Demo.quiet).
  - reflexivity.
  - split; [discriminate | reflexivity].
  - reflexivity.
  - reflexivity.
Defined.

(** C3 as stated fails on the empty byte string: [send_audio] returns
    early, so no frame is emitted (the only event is the warning) and
    the counter stays at 2. *)
Lemma send_audio_skips_empty_input :
  send_audio Demo.ext {| seq := 2; ws := Some {| inbox := []; closed := false |} |} []
    Demo.quiet
  = (Ok {| seq := 2; ws := Some {| inbox := []; closed := false |} |},
     {| asr_remote := []; tts_remote := []; llm_remote := []; uuids := 0;
        trace := [Log AsrEmptyAudio] |}).
Proof. reflexivity. Qed.

(** *** Connecting *)

Lemma parse_response_accepted ext msg s w :
  strip_frame msg = Ok s ->
  _parse_response ext msg w
  = (Ok (fst (decode_body ext s)),
     extend w (if snd (decode_body ext s) then [Log AsrParseError] else [])).
Proof.
  intros Hs. unfold _parse_response, bind, lift. rewrite Hs.
  destruct (decode_body ext s) as [r caught]. cbn [fst snd].
  destruct caught; cbn [emit ret].
  - reflexivity.
  - now rewrite extend_nil.
Qed.

(** What [connect] does on a fresh client when the service answers. *)
Lemma connect_fresh ext uid w msgs rest :
  asr_remote w = msgs :: rest ->
  accepted (fst (ws_receive {| inbox := msgs; closed := false |})) ->
  len (gzip_compress ext (utf8_encode ext (json_dumps ext (full_request_payload uid)))) < 2 ^ 32 ->
  exists headers payload logs,
    connect ext new_client uid w
    = (Ok {| seq := 2; ws := Some (snd (ws_receive {| inbox := msgs; closed := false |})) |},
       {| asr_remote := rest; tts_remote := tts_remote w; llm_remote := llm_remote w;
          uuids := S (uuids w);
          trace := trace w ++ [AsrConnect headers;
                               AsrSend ([x11; x11; x11; x00] ++ be_bytes 4 1 ++ payload)]
                           ++ logs |}) /\
    (logs = [] \/ logs = [Log AsrParseError]).
Proof.
  intros Hremote Hacc Hlen.
  cbv [connect bind _build_auth_headers fresh_uuid ret asr_ws_connect lift].
  cbn [asr_remote tts_remote llm_remote uuids trace].
  rewrite Hremote.
  rewrite build_full_request_ok; [| cbn; lia | exact Hlen].
  cbv [emit extend]. cbn [asr_remote tts_remote llm_remote uuids trace seq new_client].
  destruct (ws_receive {| inbox := msgs; closed := false |}) as [m ch'] eqn:Hrecv.
  cbn [fst snd] in *.
  do 2 eexists.
  destruct m; cbn [accepted] in Hacc;
    try (exists []; split;
         [repeat rewrite <- app_assoc; rewrite app_nil_r; reflexivity | now left]).
  destruct Hacc as (s & Hs).
  rewrite (parse_response_accepted ext data s _ Hs).
  exists (if snd (decode_body ext s) then [Log AsrParseError] else []).
  split; [| destruct (snd (decode_body ext s)); auto].
  unfold extend. cbn [asr_remote tts_remote llm_remote uuids trace].
  repeat rewrite <- app_assoc. reflexivity.
Qed.

(** C8, as the code has it.  On a fresh client, when the service takes
    the connection and its first answer is one the parser accepts,
    [connect] opens the connection, sends exactly one frame, a
    ClientFullRequest with the positive-sequence flag that carries
    sequence number 1, and returns with the counter at 2.  The first
    [send_audio] that follows (on non-empty audio) therefore emits
    sequence number 2 and moves the counter to 3, and every later
    [send_audio] of non-empty audio emits the current counter and adds
    one to it. *)
Theorem connect_then_audio_sequence (ext : Externals) (uid : str) (w : World)
  (msgs : list WSMsg) (rest : list (list WSMsg)) :
  asr_remote w = msgs :: rest ->
  accepted (fst (ws_receive {| inbox := msgs; closed := false |})) ->
  len (gzip_compress ext (utf8_encode ext (json_dumps ext (full_request_payload uid)))) < 2 ^ 32 ->
  exists c w' headers frame logs,
    connect ext new_client uid w = (Ok c, w') /\
    trace w' = trace w ++ [AsrConnect headers; AsrSend frame] ++ logs /\
    (logs = [] \/ logs = [Log AsrParseError]) /\
    option_map byte_val (index frame 1)
    = Some (Z.lor (Z.shiftl CLIENT_FULL_REQUEST 4) POS_SEQUENCE) /\
    unpack_i (slice frame 4 8) = Ok 1 /\
    seq c = 2 /\
    (forall audio w2,
        audio <> [] -> len (gzip_compress ext audio) < 2 ^ 32 ->
        exists frame2,
          send_audio ext c audio w2
          = (Ok {| seq := 3; ws := ws c |}, extend w2 [AsrSend frame2]) /\
          unpack_i (slice frame2 4 8) = Ok 2) /\
    (forall (c' : AsrClient) ch' audio w2,
        ws c' = Some ch' -> 1 <= seq c' < 2 ^ 31 ->
        audio <> [] -> len (gzip_compress ext audio) < 2 ^ 32 ->
        exists frame2,
          send_audio ext c' audio w2
          = (Ok {| seq := seq c' + 1; ws := ws c' |}, extend w2 [AsrSend frame2]) /\
          unpack_i (slice frame2 4 8) = Ok (seq c')).
Proof.
  intros Hremote Hacc Hlen.
  destruct (connect_fresh ext uid w msgs rest Hremote Hacc Hlen)
    as (headers & payload & logs & Hconnect & Hlogs).
  do 5 eexists. split; [exact Hconnect|].
  cbn [trace seq ws].
  split; [reflexivity|]. split; [exact Hlogs|].
  split; [cbn [app]; now rewrite index_1|].
  split; [apply frame_sequence; [reflexivity | lia]|].
  split; [reflexivity|].
  split.
  - intros audio w2 Hne Ha.
    rewrite (send_audio_nonempty ext
               {| seq := 2;
                  ws := Some (snd (ws_receive {| inbox := msgs; closed := false |})) |}
               (snd (ws_receive {| inbox := msgs; closed := false |}))
               audio w2 eq_refl);
      [| cbn [seq]; lia | exact Ha | exact Hne].
    cbn [seq ws]. eexists. split; [reflexivity|].
    apply frame_sequence; [reflexivity | lia].
  - intros c' ch' audio w2 Hws Hseq Hne Ha.
    rewrite (send_audio_nonempty ext c' ch' audio w2 Hws); [| lia | exact Ha | exact Hne].
    eexists. split; [reflexivity|].
    apply frame_sequence; [reflexivity | lia].
Qed.

Lemma connect_then_audio_sequence_witness :
  exists c w' headers frame logs,
    connect Demo.ext new_client default_uid Demo.listening = (Ok c, w') /\
    trace w' = trace Demo.listening ++ [AsrConnect headers; AsrSend frame] ++ logs /\
    (logs = [] \/ logs = [Log AsrParseError]) /\
    option_map byte_val (index frame 1)
    = Some (Z.lor (Z.shiftl CLIENT_FULL_REQUEST 4) POS_SEQUENCE) /\
    unpack_i (slice frame 4 8) = Ok 1 /\
    seq c = 2 /\
    (forall audio w2,
        audio <> [] -> len (gzip_compress Demo.ext audio) < 2 ^ 32 ->
        exists frame2,
          send_audio Demo.ext c audio w2
          = (Ok {| seq := 3; ws := ws c |}, extend w2 [AsrSend frame2]) /\
          unpack_i (slice frame2 4 8) = Ok 2) /\
    (forall (c' : AsrClient) ch' audio w2,
        ws c' = Some ch' -> 1 <= seq c' < 2 ^ 31 ->
        audio <> [] -> len (gzip_compress Demo.ext audio) < 2 ^ 32 ->
        exists frame2,
          send_audio Demo.ext c' audio w2
          = (Ok {| seq := seq c' + 1; ws := ws c' |}, extend w2 [AsrSend frame2]) /\
          unpack_i (slice frame2 4 8) = Ok (seq c')).
Proof.
  apply (connect_then_audio_sequence Demo.ext default_uid Demo.listening
           [BINARY (Demo.asr_response 1 1 [])] []).
  - reflexivity.
  - cbn [ws_receive inbox fst accepted]. eexists. vm_compute. reflexivity.
  - reflexivity.
Defined.

(** C8 as stated fails: after [connect] the counter is 2, not 1, and
    the first audio frame carries sequence number 2, not 1. *)
Lemma connect_leaves_counter_at_two :
  exists c w1 c2 frame,
    connect Demo.ext new_client default_uid Demo.listening = (Ok c, w1) /\
    seq c = 2 /\
    send_audio Demo.ext c [x01] w1 = (Ok c2, extend w1 [AsrSend frame]) /\
    unpack_i (slice frame 4 8) = Ok 2 /\
    seq c2 = 3.
Proof.
  do 4 eexists. split; [vm_compute; reflexivity|].
  split; [reflexivity|].
  split; [vm_compute; reflexivity|].
  split; reflexivity.
Qed.

(** *** Parsing what the client itself builds *)

Lemma slice_from_4 {A} (a b c d : A) rest : slice_from (a :: b :: c :: d :: rest) 4 = rest.
Proof. now rewrite slice_from_nonneg by lia. Qed.

(** The parser on an audio request: the header nibbles come back, the
    sequence field is skipped, and the payload still starts with the
    4-byte size because the message type is not a server response. *)
Lemma strip_audio_request (last : bool) n size rest :
  strip_frame ([x11; if last then x23 else x21; x11; x00]
               ++ be_bytes 4 n ++ be_bytes 4 size ++ rest)
  = Ok {| s_message_type := CLIENT_AUDIO_ONLY_REQUEST;
          s_flags := if last then NEG_WITH_SEQUENCE else POS_SEQUENCE;
          s_serialization := JSON;
          s_compression := GZIP;
          s_result := {| code := JInt 0; is_last := last; text := JStr [] |};
          s_payload := be_bytes 4 size ++ rest |}.
Proof.
  unfold strip_frame. cbn [app].
  rewrite index_0, index_1, index_2.
  destruct last.
  - change (Z.land (byte_val x11) 15) with 1.
    change (Z.shiftr (byte_val x23) 4) with 2.
    change (Z.land (byte_val x23) 15) with 3.
    change (Z.shiftr (byte_val x11) 4) with 1.
    cbv zeta. change (1 * 4) with 4. rewrite slice_from_4.
    change (Z.land 3 1 =? 0) with false. change (Z.land 3 2 =? 0) with false.
    change (Z.land 3 4 =? 0) with true. cbv iota.
    cbn [be_bytes app]. rewrite slice_from_4. reflexivity.
  - change (Z.land (byte_val x11) 15) with 1.
    change (Z.shiftr (byte_val x21) 4) with 2.
    change (Z.land (byte_val x21) 15) with 1.
    change (Z.shiftr (byte_val x11) 4) with 1.
    cbv zeta. change (1 * 4) with 4. rewrite slice_from_4.
    change (Z.land 1 1 =? 0) with false. change (Z.land 1 2 =? 0) with true.
    change (Z.land 1 4 =? 0) with true. cbv iota.
    cbn [be_bytes app]. rewrite slice_from_4. reflexivity.
Qed.

(** A size below [0x1f8b0000] does not start with gzip's magic bytes. *)
Lemma size_prefix_not_gzip size rest tail :
  0 <= size < 0x1f8b0000 -> be_bytes 4 size ++ rest <> x1f :: x8b :: tail.
Proof.
  intros Hsize E. cbn [be_bytes app] in E.
  injection E as E0 E1 _.
  apply (f_equal byte_val) in E0, E1.
  rewrite byte_val_byte_of in E0, E1.
  change (byte_val x1f) with 31 in E0. change (byte_val x8b) with 139 in E1.
  Z.to_euclidean_division_equations. lia.
Qed.

(** C2, as the code has it.  Whatever [gzip] does, as long as it
    refuses data that lacks its two magic bytes: for every audio
    payload whose compressed size is below [0x1f8b0000] and every
    sequence counter of 32 bits, parsing the bytes that
    [_build_audio_request] produces reads back the header fields that
    were encoded (ClientAudioOnly, the sequence flags, JSON, gzip) and
    the end-of-stream flag, and skips the sequence field; but the
    payload is not recovered: the 4-byte size is left in front of the
    compressed bytes, decompression fails, the failure is logged, and
    the result is [{code: 0, is_last, text: ""}]. *)
Theorem audio_request_parses_without_payload (ext : Externals) (self : AsrClient)
  (audio : bytes) (last : bool) (w : World) :
  (forall d r, gzip_decompress ext d = Some r -> exists rest, d = x1f :: x8b :: rest) ->
  - 2 ^ 31 < seq self < 2 ^ 31 ->
  len (gzip_compress ext audio) < 0x1f8b0000 ->
  exists frame s,
    _build_audio_request ext self audio last = Ok frame /\
    strip_frame frame = Ok s /\
    s_message_type s = CLIENT_AUDIO_ONLY_REQUEST /\
    s_flags s = (if last then NEG_WITH_SEQUENCE else POS_SEQUENCE) /\
    s_serialization s = JSON /\
    s_compression s = GZIP /\
    is_last (s_result s) = last /\
    s_payload s = be_bytes 4 (len (gzip_compress ext audio)) ++ gzip_compress ext audio /\
    gzip_decompress ext (s_payload s) = None /\
    _parse_response ext frame w
    = (Ok {| code := JInt 0; is_last := last; text := JStr [] |},
       extend w [Log AsrParseError]).
Proof.
  intros Hmagic Hseq Hlen.
  pose proof (len_nonneg (gzip_compress ext audio)) as Hpos.
  assert (Hnone : gzip_decompress ext
                    (be_bytes 4 (len (gzip_compress ext audio)) ++ gzip_compress ext audio)
                  = None).
  { destruct (gzip_decompress ext _) as [r|] eqn:E; [|reflexivity].
    destruct (Hmagic _ _ E) as (tail & Htail).
    exfalso. revert Htail. apply size_prefix_not_gzip. lia. }
  do 2 eexists.
  split; [apply build_audio_request_ok; lia|].
  split; [apply strip_audio_request|].
  cbn [s_message_type s_flags s_serialization s_compression s_result s_payload is_last].
  repeat (split; [reflexivity|]).
  split; [exact Hnone|].
  rewrite (parse_response_accepted _ _ _ _ (strip_audio_request last _ _ _)).
  unfold decode_body.
  cbn [s_message_type s_flags s_serialization s_compression s_result s_payload].
  cbn [be_bytes app] in *. rewrite Hnone. reflexivity.
Qed.

Lemma audio_request_parses_without_payload_witness :
  exists frame s,
    _build_audio_request Demo.ext {| seq := 2; ws := None |} [x01; x02] false = Ok frame /\
    strip_frame frame = Ok s /\
    s_message_type s = CLIENT_AUDIO_ONLY_REQUEST /\
    s_flags s = POS_SEQUENCE /\
    s_serialization s = JSON /\
    s_compression s = GZIP /\
    is_last (s_result s) = false /\
    s_payload s = be_bytes 4 (len (gzip_compress Demo.ext [x01; x02]))
                  ++ gzip_compress Demo.ext [x01; x02] /\
    gzip_decompress Demo.ext (s_payload s) = None /\
    _parse_response Demo.ext frame Demo.quiet
    = (Ok {| code := JInt 0; is_last := false; text := JStr [] |},
       extend Demo.quiet [Log AsrParseError]).
Proof.
  apply (audio_request_parses_without_payload Demo.ext {| seq := 2; ws := None |}
           [x01; x02] false Demo.quiet).
  - intros d r. cbn [gzip_decompress Demo.ext]. unfold Demo.decompress.
    destruct d as [|b0 [|b1 rest]]; try discriminate.
    destruct (Byte.eqb b0 x1f) eqn:E0; [|discriminate].
    destruct (Byte.eqb b1 x8b) eqn:E1; [|discriminate].
    apply Byte.byte_dec_bl in E0, E1. subst b0 b1.
    intros _. now exists rest.
  - split; reflexivity.
  - reflexivity.
Defined.

(** C2 as stated fails.  The audio [01 02] is framed with sequence
    number 2; the parser hands the size field together with the
    compressed bytes to decompression, which refuses them, and returns
    an empty text: nothing of the payload comes back, although the
    compressed bytes alone would decompress to it. *)
Lemma audio_request_round_trip_loses_payload :
  exists frame s,
    _build_audio_request Demo.ext {| seq := 2; ws := None |} [x01; x02] false = Ok frame /\
    strip_frame frame = Ok s /\
    s_payload s = [x00; x00; x00; x04; x1f; x8b; x01; x02] /\
    gzip_compress Demo.ext [x01; x02] = [x1f; x8b; x01; x02] /\
    gzip_decompress Demo.ext (gzip_compress Demo.ext [x01; x02]) = Some [x01; x02] /\
    gzip_decompress Demo.ext (s_payload s) = None /\
    _parse_response Demo.ext frame Demo.quiet
    = (Ok {| code := JInt 0; is_last := false; text := JStr [] |},
       extend Demo.quiet [Log AsrParseError]).
Proof.
  do 2 eexists. split; [vm_compute; reflexivity|].
  split; [vm_compute; reflexivity|].
  repeat split.
Qed.

End AsrFacts.

(* ================================================================== *)
(** ** The synthesis session: what each inbound frame does *)
(* ================================================================== *)

Module TtsFacts.
Import Tts PyFacts EffectFacts Notions.

Section Frames.
Variable ext : Externals.
Variables (res : bytes) (r0 r1 r2 : byte).
Hypothesis H0 : index res 0 = Some r0.
Hypothesis H1 : index res 1 = Some r1.
Hypothesis H2 : index res 2 = Some r2.

Let payload : bytes := slice_from res (Z.land (byte_val r0) 0x0f * 4).

(** An audio-chunk frame with payload-present flags. *)
Lemma parse_audio_chunk w :
  Z.shiftr (byte_val r1) 4 = 0xb -> Z.land (byte_val r1) 0x0f <> 0 ->
  _parse_response ext res w
  = (Ok (Some (slice_from payload 8), from_bytes_signed (slice_to payload 4) <? 0),
     extend w (if len (slice_from payload 8) =? from_bytes_unsigned (slice payload 4 8)
               then []
               else [Log (TtsSizeMismatch (from_bytes_unsigned (slice payload 4 8))
                                          (len (slice_from payload 8)))])).
Proof.
  intros Hmt Hflags. unfold _parse_response. rewrite H0, H1, H2. cbv zeta.
  rewrite Hmt. change (0xb =? 0xb) with true. cbv iota.
  apply Z.eqb_neq in Hflags. rewrite Hflags.
  fold payload. unfold bind.
  destruct (len (slice_from payload 8) =? from_bytes_unsigned (slice payload 4 8)).
  - cbn [ret]. now rewrite extend_nil.
  - reflexivity.
Qed.

(** An audio-chunk frame without the payload flags. *)
Lemma parse_audio_ack w :
  Z.shiftr (byte_val r1) 4 = 0xb -> Z.land (byte_val r1) 0x0f = 0 ->
  _parse_response ext res w = (Ok (None, false), w).
Proof.
  intros Hmt Hflags. unfold _parse_response. rewrite H0, H1, H2. cbv zeta.
  rewrite Hmt, Hflags. reflexivity.
Qed.

(** An error frame. *)
Lemma parse_error_frame w :
  Z.shiftr (byte_val r1) 4 = 0xf ->
  _parse_response ext res w
  = match (if Z.land (byte_val r2) 0x0f =? 1
           then gzip_decompress ext (slice_from payload 8)
           else Some (slice_from payload 8)) with
    | Some m =>
        match utf8_decode ext m with
        | Some shown => (Ok (None, true), extend w [Log (TtsError shown)])
        | None => (Raise UnicodeDecodeError, w)
        end
    | None => (Raise BadGzipFile, w)
    end.
Proof.
  intros Hmt. unfold _parse_response. rewrite H0, H1, H2. cbv zeta.
  rewrite Hmt. change (0xf =? 0xb) with false. change (0xf =? 0xf) with true.
  cbv iota. fold payload. unfold bind.
  destruct (Z.land (byte_val r2) 15 =? 1).
  - destruct (gzip_decompress ext (slice_from payload 8)) as [m|]; cbn [lift_opt ret raise];
      [|reflexivity].
    destruct (utf8_decode ext m); reflexivity.
  - cbn [ret]. destruct (utf8_decode ext (slice_from payload 8)); reflexivity.
Qed.

(** A frontend-event frame. *)
Lemma parse_frontend_frame w :
  Z.shiftr (byte_val r1) 4 = 0xc ->
  _parse_response ext res w = (Ok (None, false), extend w [Log (TtsFrontend payload)]).
Proof.
  intros Hmt. unfold _parse_response. rewrite H0, H1, H2. cbv zeta.
  rewrite Hmt. reflexivity.
Qed.

(** Any other message type. *)
Lemma parse_other_frame w :
  Z.shiftr (byte_val r1) 4 <> 0xb -> Z.shiftr (byte_val r1) 4 <> 0xf ->
  Z.shiftr (byte_val r1) 4 <> 0xc ->
  _parse_response ext res w = (Ok (None, false), w).
Proof.
  intros Hb Hf Hc. unfold _parse_response. rewrite H0, H1, H2. cbv zeta.
  apply Z.eqb_neq in Hb, Hf, Hc. now rewrite Hb, Hf, Hc.
Qed.

End Frames.

(** C9.  For every audio-chunk frame with payload-present flags, the
    parser returns all the bytes that remain after the 4-byte sequence
    number and the 4-byte declared size, whatever that declared size
    says: it is never used to truncate or pad.  The declared size only
    decides whether a warning is logged.  [synthesize] hands exactly
    those bytes to its consumer (when there are any), then stops or
    goes on according to the sign of the sequence number. *)
Theorem declared_size_only_logged (ext : Externals) (res : bytes) (r0 r1 r2 : byte)
  (A : Type) (rest : list WSMsg) (was_closed : bool) (body : A -> bytes -> M A)
  (acc : A) (w : World) :
  index res 0 = Some r0 -> index res 1 = Some r1 -> index res 2 = Some r2 ->
  Z.shiftr (byte_val r1) 4 = 0xb -> Z.land (byte_val r1) 0x0f <> 0 ->
  let payload := slice_from res (Z.land (byte_val r0) 0x0f * 4) in
  let declared := from_bytes_unsigned (slice payload 4 8) in
  let audio := slice_from payload 8 in
  let warning := if len audio =? declared then []
                 else [Log (TtsSizeMismatch declared (len audio))] in
  _parse_response ext res w
  = (Ok (Some audio, from_bytes_signed (slice_to payload 4) <? 0), extend w warning) /\
  synthesize_loop ext (BINARY res :: rest) was_closed body acc w
  = bind (match audio with
          | [] => ret acc
          | _ :: _ => body acc audio
          end)
         (fun acc' =>
            if from_bytes_signed (slice_to payload 4) <? 0
            then ret (acc', {| inbox := rest; closed := was_closed |})
            else synthesize_loop ext rest was_closed body acc')
         (extend w warning).
Proof.
  intros H0 H1 H2 Hmt Hflags payload declared audio warning.
  pose proof (parse_audio_chunk ext res r0 r1 r2 H0 H1 H2 w Hmt Hflags) as Hparse.
  cbv zeta in Hparse. fold payload in Hparse. fold audio in Hparse.
  fold declared in Hparse. fold warning in Hparse.
  split; [exact Hparse|].
  cbn [synthesize_loop]. unfold bind at 1. rewrite Hparse.
  unfold bind. destruct audio; reflexivity.
Qed.

Lemma declared_size_only_logged_witness :
  let res := Demo.audio_frame 1 99 [x0a; x0b] in
  _parse_response Demo.ext res Demo.quiet
  = (Ok (Some [x0a; x0b], false), extend Demo.quiet [Log (TtsSizeMismatch 99 2)]) /\
  synthesize_loop Demo.ext [BINARY res] false
    (fun (n : Z) (chunk : bytes) => ret (n + len chunk)) 0 Demo.quiet
  = (Ok (2, {| inbox := []; closed := true |}),
     extend Demo.quiet [Log (TtsSizeMismatch 99 2)]).
Proof.
  intros res.
  pose proof (declared_size_only_logged Demo.ext res x11 xb1 x10 Z [] false
                (fun (n : Z) (chunk : bytes) => ret (n + len chunk)) 0 Demo.quiet
                eq_refl eq_refl eq_refl eq_refl) as H.
  cbv zeta in H. destruct H as [Hparse Hloop]; [discriminate|].
  split; [rewrite Hparse | rewrite Hloop]; reflexivity.
Defined.

(** C6, as the code has it.  For every inbound binary frame that has
    its three header bytes, one turn of the [synthesize] loop does the
    following.  An audio-chunk frame (type [0xb]) with payload-present
    flags hands its audio bytes to the consumer iff they are non-empty,
    and a negative signed 4-byte sequence number stops the iteration.
    An error frame (type [0xf]) yields nothing and ends the iteration:
    its message is decompressed only when the compression nibble of the
    header is 1, and taken as it is otherwise; it is then decoded and
    logged and the iteration stops; when decompression or decoding
    fails, the exception leaves [synthesize] and nothing is logged.  A
    frontend-event frame (type [0xc]) is logged and the iteration goes
    on without yielding.  Any other frame yields nothing and the
    iteration goes on.  Every frame shorter than three bytes raises
    [IndexError], whatever its bytes say: the exception leaves
    [synthesize], nothing is logged and nothing is yielded. *)
Theorem synthesize_frame_dispatch (ext : Externals) (res : bytes)
  (A : Type) (rest : list WSMsg) (was_closed : bool) (body : A -> bytes -> M A)
  (acc : A) (w : World) :
  let turn := synthesize_loop ext (BINARY res :: rest) was_closed body acc w in
  (forall r0 r1 r2 : byte,
      index res 0 = Some r0 -> index res 1 = Some r1 -> index res 2 = Some r2 ->
      let message_type := Z.shiftr (byte_val r1) 4 in
      let flags := Z.land (byte_val r1) 0x0f in
      let compression := Z.land (byte_val r2) 0x0f in
      let payload := slice_from res (Z.land (byte_val r0) 0x0f * 4) in
      let tail := slice_from payload 8 in
      let stopped := {| inbox := rest; closed := was_closed |} in
      (message_type = 0xb -> flags <> 0 ->
       exists warning,
         Forall (fun e => is_log e = true) warning /\
         turn = bind (match tail with
                      | [] => ret acc
                      | _ :: _ => body acc tail
                      end)
                     (fun acc' =>
                        if from_bytes_signed (slice_to payload 4) <? 0
                        then ret (acc', stopped)
                        else synthesize_loop ext rest was_closed body acc')
                     (extend w warning)) /\
      (message_type = 0xf ->
       turn = match (if compression =? 1 then gzip_decompress ext tail else Some tail) with
              | Some m =>
                  match utf8_decode ext m with
                  | Some shown => (Ok (acc, stopped), extend w [Log (TtsError shown)])
                  | None => (Raise UnicodeDecodeError, w)
                  end
              | None => (Raise BadGzipFile, w)
              end) /\
      (message_type = 0xc ->
       turn = synthesize_loop ext rest was_closed body acc
                (extend w [Log (TtsFrontend payload)])) /\
      ((message_type <> 0xb /\ message_type <> 0xf /\ message_type <> 0xc)
       \/ (message_type = 0xb /\ flags = 0) ->
       turn = synthesize_loop ext rest was_closed body acc w)) /\
  (len res < 3 -> turn = (Raise IndexError, w)).
Proof.
  intros turn. split.
  - intros r0 r1 r2 H0 H1 H2 message_type flags compression payload tail stopped.
    subst turn. cbn [synthesize_loop].
    repeat split.
    + intros Hmt Hflags. unfold bind at 1.
      rewrite (parse_audio_chunk ext res r0 r1 r2 H0 H1 H2 w Hmt Hflags).
      cbv zeta. fold payload. fold tail.
      exists (if len tail =? from_bytes_unsigned (slice payload 4 8) then []
              else [Log (TtsSizeMismatch (from_bytes_unsigned (slice payload 4 8))
                                         (len tail))]).
      split; [destruct (len tail =? _); repeat constructor|].
      unfold bind. destruct tail; reflexivity.
    + intros Hmt. unfold bind at 1.
      rewrite (parse_error_frame ext res r0 r1 r2 H0 H1 H2 w Hmt).
      cbv zeta. fold payload. fold tail. fold compression.
      destruct (if compression =? 1 then gzip_decompress ext tail else Some tail) as [m|];
        [|reflexivity].
      destruct (utf8_decode ext m); reflexivity.
    + intros Hmt. unfold bind at 1.
      rewrite (parse_frontend_frame ext res r0 r1 r2 H0 H1 H2 w Hmt). reflexivity.
    + intros [(Hb & Hf & Hc) | (Hb & Hfl)]; unfold bind at 1.
      * rewrite (parse_other_frame ext res r0 r1 r2 H0 H1 H2 w Hb Hf Hc). reflexivity.
      * rewrite (parse_audio_ack ext res r0 r1 r2 H0 H1 H2 w Hb Hfl). reflexivity.
  - intros Hshort. subst turn. cbn [synthesize_loop]. unfold bind, _parse_response.
    destruct res as [|a [|b [|c t]]]; try reflexivity.
    exfalso. unfold len in Hshort. cbn [List.length] in Hshort. lia.
Qed.

Lemma synthesize_frame_dispatch_witness :
  synthesize_loop Demo.ext
    [BINARY (Demo.error_frame x11 (Demo.compress (Demo.encode (lit "no"))))] false
    (fun (n : Z) (_ : bytes) => ret (n + 1)) 0 Demo.quiet
  = (Ok (0, {| inbox := []; closed := false |}),
     extend Demo.quiet [Log (TtsError (lit "no"))]) /\
  synthesize_loop Demo.ext [BINARY [x11; xb1]; BINARY (Demo.audio_frame 1 1 [x0a])] false
    (fun (n : Z) (_ : bytes) => ret (n + 1)) 0 Demo.quiet
  = (Raise IndexError, Demo.quiet).
Proof.
  split.
  - pose proof (synthesize_frame_dispatch Demo.ext
                  (Demo.error_frame x11 (Demo.compress (Demo.encode (lit "no"))))
                  Z [] false (fun (n : Z) (_ : bytes) => ret (n + 1)) 0
                  Demo.quiet) as H.
    cbv zeta in H. destruct H as [H _].
    destruct (H x11 xf0 x11 eq_refl eq_refl eq_refl) as (_ & Herr & _).
    rewrite Herr; reflexivity.
  - pose proof (synthesize_frame_dispatch Demo.ext [x11; xb1]
                  Z [BINARY (Demo.audio_frame 1 1 [x0a])] false
                  (fun (n : Z) (_ : bytes) => ret (n + 1)) 0 Demo.quiet) as H.
    cbv zeta in H. destruct H as [_ H]. apply H. reflexivity.
Defined.

(** C6 as stated fails in two places.  An error frame whose header
    marks the message as not compressed is logged as it arrived: the
    message [no] is not decompressed (decompressing it would fail).
    And a two-byte frame with the frontend-event type does not let the
    iteration go on: reading its third header byte raises. *)
Lemma error_frame_not_always_decompressed :
  synthesize_loop Demo.ext [BINARY (Demo.error_frame x10 (Demo.encode (lit "no")))] false
    (fun (n : Z) (_ : bytes) => ret (n + 1)) 0 Demo.quiet
  = (Ok (0, {| inbox := []; closed := false |}),
     extend Demo.quiet [Log (TtsError (lit "no"))]) /\
  gzip_decompress Demo.ext (Demo.encode (lit "no")) = None /\
  synthesize_loop Demo.ext [BINARY [x11; xc0]; BINARY (Demo.audio_frame 1 1 [x0a])] false
    (fun (n : Z) (_ : bytes) => ret (n + 1)) 0 Demo.quiet
  = (Raise IndexError, Demo.quiet).
Proof. repeat split. Qed.

End TtsFacts.

(* ================================================================== *)
(** ** The generation stream *)
(* ================================================================== *)

Module LlmFacts.
Import Llm EffectFacts Notions.

(** The loop of [generate_stream] hands the deltas of the response to
    the consumer's body, one after the other. *)
Lemma pump_deltas ext {A} (body : A -> str -> M A) lines :
  forall ds full acc w,
    deltas ext lines = Ok ds ->
    pump ext lines full body acc w = feed body ds full acc w.
Proof.
  induction lines as [|line rest IH]; intros ds full acc w Hds; cbn [deltas] in Hds.
  - injection Hds as <-. reflexivity.
  - cbn [pump]. unfold bind at 1. unfold lift.
    destruct (parse_line ext line) as [[| |d]|e]; try discriminate.
    + now apply IH.
    + injection Hds as <-. reflexivity.
    + destruct (deltas ext rest) as [ds'|e] eqn:Hrest; [|discriminate].
      injection Hds as <-. cbn [feed]. unfold bind.
      destruct (body acc d w) as [[acc'|e] w']; [|reflexivity].
      now apply IH.
Qed.

End LlmFacts.

(* ================================================================== *)
(** ** The turn orchestrator *)
(* ================================================================== *)

Module OrchestratorFacts.
Import Segmenter Main PyFacts EffectFacts Notions SegmenterFacts AsrFacts TtsFacts LlmFacts.

Lemma calls_app a b : calls (a ++ b) = calls a ++ calls b.
Proof. unfold calls. apply filter_app. Qed.

Lemma llm_relayed_app a b : llm_relayed (a ++ b) = llm_relayed a ++ llm_relayed b.
Proof. unfold llm_relayed. apply flat_map_app. Qed.

Lemma silent_nil : silent [].
Proof. split; reflexivity. Qed.

Lemma silent_app a b : silent a -> silent b -> silent (a ++ b).
Proof.
  intros [Ha1 Ha2] [Hb1 Hb2]. split.
  - now rewrite calls_app, Ha1, Hb1.
  - now rewrite llm_relayed_app, Ha2, Hb2.
Qed.

Lemma logs_silent logs : Forall (fun e => is_log e = true) logs -> silent logs.
Proof.
  induction 1 as [|e logs He _ IH]; [apply silent_nil|].
  change (e :: logs) with ([e] ++ logs). apply silent_app; [|exact IH].
  destruct e; try discriminate. split; reflexivity.
Qed.

(** *** Synthesis against a well-behaved service *)

Lemma tts_parse_quiet ext res w :
  tts_readable ext res = true ->
  exists r logs,
    Tts._parse_response ext res w = (Ok r, extend w logs) /\
    Forall (fun e => is_log e = true) logs.
Proof.
  unfold tts_readable.
  destruct (index res 0) as [r0|] eqn:H0; [|discriminate].
  destruct (index res 1) as [r1|] eqn:H1; [|discriminate].
  destruct (index res 2) as [r2|] eqn:H2; [|discriminate].
  destruct (Z.shiftr (byte_val r1) 4 =? 0xf) eqn:Hf.
  - apply Z.eqb_eq in Hf. intros Hok.
    rewrite (parse_error_frame ext res r0 r1 r2 H0 H1 H2 w Hf). cbv zeta in *.
    destruct (if Z.land (byte_val r2) 15 =? 1 then _ else _) as [m|]; [|discriminate].
    destruct (utf8_decode ext m) as [shown|]; [|discriminate].
    do 2 eexists. split; [reflexivity|]. repeat constructor.
  - intros _. apply Z.eqb_neq in Hf.
    destruct (Z.eq_dec (Z.shiftr (byte_val r1) 4) 0xb) as [Hb|Hb].
    + destruct (Z.eq_dec (Z.land (byte_val r1) 0x0f) 0) as [Hfl|Hfl].
      * rewrite (parse_audio_ack ext res r0 r1 r2 H0 H1 H2 w Hb Hfl).
        exists (None, false), []. rewrite extend_nil. split; [reflexivity|constructor].
      * rewrite (parse_audio_chunk ext res r0 r1 r2 H0 H1 H2 w Hb Hfl). cbv zeta.
        do 2 eexists. split; [reflexivity|].
        destruct (_ =? _); repeat constructor.
    + destruct (Z.eq_dec (Z.shiftr (byte_val r1) 4) 0xc) as [Hc|Hc].
      * rewrite (parse_frontend_frame ext res r0 r1 r2 H0 H1 H2 w Hc). cbv zeta.
        do 2 eexists. split; [reflexivity|]. repeat constructor.
      * rewrite (parse_other_frame ext res r0 r1 r2 H0 H1 H2 w Hb Hf Hc).
        exists (None, false), []. rewrite extend_nil. split; [reflexivity|constructor].
Qed.

Lemma synthesize_loop_quiet ext msgs :
  forall was_closed n w,
    tts_inbox_readable ext msgs = true ->
    exists n' ch' evs,
      Tts.synthesize_loop ext msgs was_closed (relay_chunk ext) n w
      = (Ok (n', ch'), extend w evs) /\
      silent evs /\
      tts_inbox_readable ext (inbox ch') = true.
Proof.
  induction msgs as [|m rest IH]; intros was_closed n w Hok.
  - exists n, {| inbox := []; closed := true |}, []. rewrite extend_nil.
    repeat split.
  - cbn [tts_inbox_readable forallb] in Hok. apply andb_true_iff in Hok as [Hm Hrest].
    fold (tts_inbox_readable ext rest) in Hrest.
    assert (Hskip : forall w0, exists n' ch' evs,
               Tts.synthesize_loop ext rest was_closed (relay_chunk ext) n w0
               = (Ok (n', ch'), extend w0 evs) /\
               silent evs /\ tts_inbox_readable ext (inbox ch') = true)
      by (intros w0; now apply IH).
    assert (Hstop : exists n' ch' evs,
               (Ok (n, {| inbox := rest; closed := true |}), w)
               = (@Ok (Z * Channel) (n', ch'), extend w evs) /\
               silent evs /\ tts_inbox_readable ext (inbox ch') = true).
    { exists n, {| inbox := rest; closed := true |}, []. rewrite extend_nil.
      repeat split. exact Hrest. }
    destruct m; cbn [Tts.synthesize_loop]; try apply Hskip; try exact Hstop.
    destruct (tts_parse_quiet ext data w Hm) as ([audio_data is_done] & logs & Hparse & Hlogs).
    unfold bind at 1. rewrite Hparse.
    assert (Hbody : exists n1 evs1,
               match audio_data with
               | Some (b :: audio) => relay_chunk ext n (b :: audio)
               | _ => ret n
               end (extend w logs) = (Ok n1, extend w evs1) /\ silent evs1).
    { destruct audio_data as [[|b audio]|].
      - exists n, logs. split; [reflexivity | now apply logs_silent].
      - eexists _, (logs ++ [_]). split.
        + unfold relay_chunk, bind, send_json, emit, ret.
          rewrite extend_extend. reflexivity.
        + apply silent_app; [now apply logs_silent | split; reflexivity].
      - exists n, logs. split; [reflexivity | now apply logs_silent]. }
    destruct Hbody as (n1 & evs1 & Hbody & Hsilent1).
    unfold bind. rewrite Hbody.
    destruct is_done.
    + exists n1, {| inbox := rest; closed := was_closed |}, evs1.
      repeat split; try apply Hsilent1. exact Hrest.
    + destruct (IH was_closed n1 (extend w evs1) Hrest)
        as (n' & ch' & evs & Hloop & Hsilent & Hread).
      exists n', ch', (evs1 ++ evs). rewrite Hloop, extend_extend.
      repeat split; try assumption; now apply silent_app.
Qed.

Lemma to_bytes4_ok n : 0 <= n < 2 ^ 32 -> to_bytes4 n = Ok (be_bytes 4 n).
Proof.
  intros H. unfold to_bytes4.
  replace ((0 <=? n) && (n <? 2 ^ 32)) with true; [reflexivity|].
  symmetry. apply andb_true_iff. split; [apply Z.leb_le | apply Z.ltb_lt]; lia.
Qed.

(** One [synthesize] call against readable frames: it returns, it is
    the only call in the events it adds, and it opens no connection. *)
Lemma synthesize_quiet ext c ch text w :
  Tts.ws c = Some ch ->
  tts_inbox_readable ext (inbox ch) = true ->
  request_fits ext text ->
  exists n' ch' w' evs,
    Tts.synthesize ext c text (relay_chunk ext) 0 w
    = (Ok (n', {| Tts.voice_type := Tts.voice_type c; Tts.ws := Some ch' |}), w') /\
    tts_inbox_readable ext (inbox ch') = true /\
    trace w' = trace w ++ Synthesize text :: evs /\
    silent evs /\
    asr_remote w' = asr_remote w /\ tts_remote w' = tts_remote w /\
    llm_remote w' = llm_remote w.
Proof.
  intros Hws Hread Hfits.
  unfold Tts.synthesize, Tts._build_request.
  cbv [bind emit fresh_uuid ret lift]. cbn [uuids].
  rewrite to_bytes4_ok by (split; [apply len_nonneg | apply Hfits]).
  rewrite Hws.
  match goal with
  | |- context [Tts.synthesize_loop ext _ _ _ _ ?w0] =>
      destruct (synthesize_loop_quiet ext (inbox ch) (closed ch) 0 w0 Hread)
        as (n' & ch' & evs & Hloop & Hsilent & Hread')
  end.
  rewrite Hloop.
  eexists n', ch', _, (TtsSend _ :: evs).
  split; [reflexivity|]. split; [exact Hread'|].
  cbn [extend trace asr_remote tts_remote llm_remote].
  split; [now rewrite <- !app_assoc|].
  split; [|repeat split].
  change (TtsSend ?f :: evs) with ([TtsSend f] ++ evs).
  apply silent_app; [split; reflexivity | exact Hsilent].
Qed.

(** One [synthesize_and_send] when the synthesis side can serve at
    least one more sentence. *)
Lemma synthesize_and_send_ready ext k c ch text w :
  Tts.ws c = Some ch ->
  tts_ready ext (S k) ch w ->
  request_fits ext text ->
  exists c' ch' w' evs,
    synthesize_and_send ext (Some c) text w = (Ok (Some c'), w') /\
    Tts.ws c' = Some ch' /\
    tts_ready ext k ch' w' /\
    trace w' = trace w ++ evs /\
    calls evs = [Synthesize text] /\
    llm_relayed evs = [] /\
    llm_remote w' = llm_remote w /\ asr_remote w' = asr_remote w.
Proof.
  intros Hws (Hread & Hremote & Hk) Hfits.
  unfold synthesize_and_send. rewrite Hws.
  destruct (closed ch) eqn:Hclosed.
  - (* the session is closed: a new one is opened first *)
    destruct (tts_remote w) as [|msgs rest] eqn:Hr; [cbn in Hk; lia|].
    cbn [forallb] in Hremote. apply andb_true_iff in Hremote as [Hmsgs Hrest].
    unfold fresh_tts, Tts.connect, tts_ws_connect. unfold bind at 1 2. rewrite Hr.
    cbn [ret].
    match goal with
    | |- exists _ _ _ _, bind (Tts.synthesize ext ?c1 text _ 0) _ ?w1 = _ /\ _ =>
        destruct (synthesize_quiet ext c1 {| inbox := msgs; closed := false |} text w1
                    eq_refl Hmsgs Hfits)
          as (n' & ch' & w' & evs & Hsyn & Hread' & Htrace & Hsilent & Ha & Ht & Hl)
    end.
    unfold bind. rewrite Hsyn. cbn [ret Tts.ws].
    cbn [trace asr_remote tts_remote llm_remote] in Htrace, Ha, Ht, Hl.
    eexists _, ch', w', (TtsConnect _ :: Synthesize text :: evs).
    split; [reflexivity|]. split; [reflexivity|].
    split; [repeat split; [exact Hread' | now rewrite Ht | rewrite Ht; cbn in Hk |- *; lia]|].
    split; [rewrite Htrace, <- app_assoc; reflexivity|].
    destruct Hsilent as [Hc Hm].
    repeat split; auto.
    all: try (cbn [calls filter is_call]; fold (calls evs); now rewrite Hc).
  - (* the session is open *)
    destruct (synthesize_quiet ext c ch text w Hws Hread Hfits)
      as (n' & ch' & w' & evs & Hsyn & Hread' & Htrace & Hsilent & Ha & Ht & Hl).
    unfold bind at 1. cbn [ret]. unfold bind. rewrite Hsyn. cbn [ret].
    eexists _, ch', w', (Synthesize text :: evs).
    split; [reflexivity|]. split; [reflexivity|].
    split; [repeat split; [exact Hread' | now rewrite Ht | rewrite Ht; lia]|].
    split; [exact Htrace|].
    destruct Hsilent as [Hc Hm].
    repeat split; auto.
    all: try (cbn [calls filter is_call]; fold (calls evs); now rewrite Hc).
Qed.

(** *** The body of the generation loop *)

(** Each delta is appended to the running buffer, and the running
    buffer is relayed at once; a cut follows when it is longer than 100
    characters. *)
Lemma on_llm_chunk_relays ext buf tts chunk w :
  on_llm_chunk ext (buf, tts) chunk w
  = (if len (buf ++ chunk) >? 100 then
       bind (lift (find_nearest_punctuation (buf ++ chunk) 50))
            (fun cut_pos =>
               bind (synthesize_and_send ext tts (slice_to (buf ++ chunk) (cut_pos + 1)))
                    (fun tts' => ret (slice_from (buf ++ chunk) (cut_pos + 1), tts')))
     else ret (buf ++ chunk, tts))
      (extend w [SendJson (lit "llm") (JStr (buf ++ chunk))]).
Proof. reflexivity. Qed.

Lemma tts_ready_same_remote ext k ch w w' :
  tts_remote w' = tts_remote w -> tts_ready ext k ch w -> tts_ready ext k ch w'.
Proof. intros E (H1 & H2 & H3). unfold tts_ready. now rewrite E. Qed.

Lemma len_slice_to {A} (l : list A) n : 0 <= n <= len l -> len (slice_to l n) = n.
Proof.
  intros H. rewrite slice_to_nonneg by lia. unfold len in *.
  rewrite length_firstn. lia.
Qed.

Lemma len_slice_from {A} (l : list A) n : 0 <= n <= len l -> len (slice_from l n) = len l - n.
Proof.
  intros H. rewrite slice_from_nonneg by lia. unfold len in *.
  rewrite length_skipn. lia.
Qed.

Lemma slice_to_from {A} (l : list A) n : 0 <= n -> slice_to l n ++ slice_from l n = l.
Proof.
  intros H. rewrite slice_to_nonneg, slice_from_nonneg by lia. apply firstn_skipn.
Qed.

(** C4.  The generation stream yields the single delta [text], 130
    characters long, with a punctuation mark at index 52 and none at
    indices 50 and 51; the synthesis side serves its requests.  Then
    the turn's generation and synthesis complete, and the calls made
    are, in order: the generation request; one synthesis of the first
    53 characters, made before the generation stream is exhausted; the
    end of the generation stream; one synthesis of the remaining 77
    characters. *)
Theorem mid_stream_cut (ext : Externals) (L : Locals) (c : Tts.TTSClient) (ch : Channel)
  (text : str) (p : char) (lines : list bytes) (rest : list (list bytes)) (w : World) :
  tts_client L = Some c -> Tts.ws c = Some ch ->
  tts_ready ext 2 ch w ->
  llm_remote w = lines :: rest ->
  deltas ext lines = Ok [text] ->
  len text = 130 ->
  index text 52 = Some p -> is_punct p = true ->
  (forall i, 50 <= i < 52 -> exists d, index text i = Some d /\ is_punct d = false) ->
  request_fits ext (slice_to text 53) ->
  request_fits ext (slice_from text 53) ->
  exists L' w' evs,
    generate_and_synthesize ext L w = (Ok L', w') /\
    trace w' = trace w ++ evs /\
    calls evs = [Generate (asr_result L); Synthesize (slice_to text 53);
                 GenerateEnd; Synthesize (slice_from text 53)] /\
    len (slice_to text 53) = 53 /\
    len (slice_from text 53) = 77 /\
    slice_to text 53 ++ slice_from text 53 = text.
Proof.
  intros Htts Hws Hready Hllm Hdeltas Hlen Hp Hpunct Hbefore Hfit1 Hfit2.
  assert (Hcut : find_nearest_punctuation text 50 = Ok 52)
    by (apply (find_cut_forward text 50 52 p); auto; lia).
  assert (Hlen2 : len (slice_from text 53) = 77)
    by (rewrite len_slice_from; lia).
  unfold generate_and_synthesize, Llm.generate_stream.
  rewrite Htts.
  set (self := if truthy (asr_result L) then _ else _).
  unfold bind at 1 2 3. unfold emit at 1, llm_post.
  cbn [extend llm_remote asr_remote tts_remote uuids trace]. rewrite Hllm.
  unfold bind at 1.
  rewrite (pump_deltas ext _ lines [text] _ _ _ Hdeltas). cbn [feed app].
  unfold bind at 1. rewrite on_llm_chunk_relays. cbn [app].
  replace (len text >? 100) with true by (rewrite Hlen; reflexivity).
  unfold bind at 1. unfold lift. rewrite Hcut. change (52 + 1) with 53.
  match goal with
  | |- context [bind (synthesize_and_send ext (Some c) _) _ ?w0] =>
      destruct (synthesize_and_send_ready ext 1 c ch (slice_to text 53) w0 Hws)
        as (c1 & ch1 & w1 & evs1 & Hsyn1 & Hws1 & Hready1 & Htrace1 & Hcalls1 & _ & Hllm1 & _);
      [ apply (tts_ready_same_remote ext 2 ch w); [reflexivity | exact Hready]
      | exact Hfit1 | ]
  end.
  unfold bind at 1. rewrite Hsyn1. cbn [ret].
  unfold bind at 1. unfold emit. cbn [ret].
  destruct (slice_from text 53) as [|x tail] eqn:Hrem; [discriminate|].
  rewrite <- Hrem in *.
  destruct (synthesize_and_send_ready ext 0 c1 ch1 (slice_from text 53)
              (extend w1 [GenerateEnd]) Hws1)
    as (c2 & ch2 & w2 & evs2 & Hsyn2 & _ & _ & Htrace2 & Hcalls2 & _ & _ & _);
    [ apply (tts_ready_same_remote ext 1 ch1 w1); [reflexivity | exact Hready1]
    | exact Hfit2 | ].
  unfold bind. rewrite Hsyn2. cbn [ret].
  eexists _, w2,
    ([Generate (asr_result L); LlmPost (DOUBAO_MODEL ext) (Llm.messages self);
      SendJson (lit "llm") (JStr text)] ++ evs1 ++ [GenerateEnd] ++ evs2).
  split; [reflexivity|].
  split.
  { rewrite Htrace2. cbn [extend trace]. rewrite Htrace1. cbn [extend trace].
    repeat rewrite <- app_assoc. reflexivity. }
  split.
  { repeat rewrite calls_app. rewrite Hcalls1, Hcalls2. reflexivity. }
  split; [apply len_slice_to; lia|].
  split; [exact Hlen2 | apply slice_to_from; lia].
Qed.

(** *** Draining the recognition results *)

Lemma last_cons_default {A} (t : A) more d : last (t :: more) d = last more t.
Proof.
  revert t d. induction more as [|m more IH]; intros t d; [reflexivity|].
  change (last (t :: m :: more) d) with (last (m :: more) d).
  now rewrite (IH m d), (IH m t).
Qed.

(** Draining [receive_results] with the orchestrator's body
    [asr_result = text] keeps the last transcript yielded, or the old
    value when none is; it only adds log records to the trace. *)
Lemma receive_loop_transcripts ext msgs :
  forall was_closed acc w ts,
    transcripts ext msgs = Ok ts ->
    exists ch' logs,
      Asr.receive_loop ext msgs was_closed (fun (_ : json) text => ret text) acc w
      = (Ok (last ts acc, ch'), extend w logs) /\
      Forall (fun e => is_log e = true) logs.
Proof.
  induction msgs as [|m rest IH]; intros was_closed acc w ts Hts; cbn [transcripts] in Hts.
  - injection Hts as <-. exists {| inbox := []; closed := true |}, [].
    rewrite extend_nil. split; [reflexivity | constructor].
  - destruct m; cbn [Asr.receive_loop];
      try (now apply IH);
      try (injection Hts as <-; eexists _, []; rewrite extend_nil;
           split; [reflexivity | constructor]).
    + (* a binary frame *)
      destruct (Asr.strip_frame data) as [s|e] eqn:Hs; [|discriminate].
      cbv zeta in Hts.
      unfold bind at 1. rewrite (parse_response_accepted ext data s w Hs).
      set (r := fst (Asr.decode_body ext s)) in *.
      set (logs0 := if snd (Asr.decode_body ext s) then [Log AsrParseError] else []).
      assert (Hlogs0 : Forall (fun e => is_log e = true) logs0)
        by (subst logs0; destruct (snd _); repeat constructor).
      set (logs1 := if Asr.code_is_error (Asr.code r)
                    then [Log (AsrErrorCode (Asr.code r))] else []).
      assert (Hlogs1 : Forall (fun e => is_log e = true) logs1)
        by (subst logs1; destruct (Asr.code_is_error _); repeat constructor).
      assert (Hstep : (if Asr.code_is_error (Asr.code r)
                       then emit (Log (AsrErrorCode (Asr.code r))) else ret tt)
                        (extend w logs0)
                      = (Ok tt, extend w (logs0 ++ logs1))).
      { subst logs1. destruct (Asr.code_is_error _); unfold emit, ret.
        - now rewrite extend_extend.
        - now rewrite app_nil_r. }
      unfold bind at 1. rewrite Hstep.
      unfold bind at 1.
      assert (Hbody : (if truthy (Asr.text r) then ret (Asr.text r) else ret acc)
                        (extend w (logs0 ++ logs1))
                      = (Ok (if truthy (Asr.text r) then Asr.text r else acc),
                         extend w (logs0 ++ logs1)))
        by (destruct (truthy _); reflexivity).
      rewrite Hbody.
      destruct (Asr.is_last r).
      * injection Hts as <-. eexists _, (logs0 ++ logs1).
        split; [|apply Forall_app; split; assumption].
        destruct (truthy (Asr.text r)); reflexivity.
      * destruct (transcripts ext rest) as [more|e] eqn:Hmore; [|discriminate].
        injection Hts as <-.
        destruct (IH was_closed (if truthy (Asr.text r) then Asr.text r else acc)
                    (extend w (logs0 ++ logs1)) more eq_refl)
          as (ch' & logs & Hloop & Hlogs).
        rewrite Hloop, extend_extend.
        eexists ch', ((logs0 ++ logs1) ++ logs).
        split; [|apply Forall_app; split; [apply Forall_app; split|]; assumption].
        destruct (truthy (Asr.text r)); [|reflexivity].
        cbn [app]. now rewrite last_cons_default.
    + (* an error message *)
      injection Hts as <-. eexists _, [Log (AsrChannelTrouble ERROR)].
      split; [reflexivity | repeat constructor].
Qed.

(** *** The end-of-turn signal *)

(** C5.  An end-of-turn signal arrives while the transcript is clear
    (as it is at the start of every turn, see
    [step_keeps_transcript_clear]); draining [receive_results] yields
    no non-empty text; the recognition service takes a new connection.
    Then the orchestrator sends the end frame, reports the empty
    transcript, sends the bare completion marker [over], connects a
    fresh recognition session (counter 2, new connection) and goes on
    with the loop; it makes no call to generation or synthesis and
    asks nothing of their services; the synthesis session and the
    conversation are untouched. *)
Theorem empty_transcript_short_circuit (ext : Externals) (L : Locals)
  (asr : Asr.AsrClient) (ch : Channel) (data : str) (cmd : list (str * json))
  (msgs : list WSMsg) (rest : list (list WSMsg)) (w : World) :
  parse_command ext data = JObj cmd ->
  eq_str (dict_get cmd (lit "type") JNull) (lit "end") = true ->
  asr_client L = Some asr -> Asr.ws asr = Some ch ->
  asr_result L = JStr [] ->
  - 2 ^ 31 < Asr.seq asr < 2 ^ 31 ->
  len (gzip_compress ext []) < 2 ^ 32 ->
  transcripts ext (inbox ch) = Ok [] ->
  asr_remote w = msgs :: rest ->
  accepted (fst (ws_receive {| inbox := msgs; closed := false |})) ->
  len (gzip_compress ext (utf8_encode ext
         (json_dumps ext (Asr.full_request_payload Asr.default_uid)))) < 2 ^ 32 ->
  exists w' end_frame logs1 headers full_frame logs2,
    step ext (ReceiveText data) L w
    = (Ok (Continue,
           {| asr_client :=
                Some {| Asr.seq := 2;
                        Asr.ws := Some (snd (ws_receive {| inbox := msgs;
                                                           closed := false |})) |};
              tts_client := tts_client L;
              llm_client := llm_client L;
              asr_result := JStr [] |}), w') /\
    trace w' = trace w ++ [AsrSend end_frame] ++ logs1
               ++ [SendJson (lit "asr") (JStr []); SendText (lit "over");
                   AsrConnect headers; AsrSend full_frame] ++ logs2 /\
    Forall (fun e => is_log e = true) logs1 /\
    Forall (fun e => is_log e = true) logs2 /\
    calls (skipn (List.length (trace w)) (trace w')) = [] /\
    asr_remote w' = rest /\ tts_remote w' = tts_remote w /\ llm_remote w' = llm_remote w.
Proof.
  intros Hcmd Hend Hasr Hws Hclear Hseq Hgz Hts Hremote Hacc Hfull.
  unfold step. rewrite Hcmd, Hend. unfold bind at 1.
  unfold on_end. rewrite Hasr.
  rewrite (bind_ok _ _ _ _ _ (send_end_frame ext asr ch w Hws Hseq Hgz)).
  cbv beta. set (w1 := extend w _).
  destruct (receive_loop_transcripts ext (inbox ch) (closed ch) (asr_result L) w1 [] Hts)
    as (ch' & logs1 & Hloop & Hlogs1).
  assert (Hrecv : Asr.receive_results ext asr (fun (_ : json) text => ret text)
                    (asr_result L) w1
                  = (Ok (JStr [], {| Asr.seq := Asr.seq asr; Asr.ws := Some ch' |}),
                     extend w1 logs1)).
  { unfold Asr.receive_results. rewrite Hws.
    rewrite (bind_ok _ _ _ _ _ Hloop). cbn [last]. now rewrite Hclear. }
  rewrite (bind_ok _ _ _ _ _ Hrecv). cbv beta iota.
  unfold send_json at 1. rewrite bind_emit.
  cbn [truthy negb]. cbv beta iota.
  unfold send_text at 1. rewrite bind_emit.
  unfold fresh_asr.
  destruct (connect_fresh ext Asr.default_uid
              (extend (extend (extend w1 logs1) [SendJson (lit "asr") (JStr [])])
                 [SendText (lit "over")]) msgs rest Hremote Hacc Hfull)
    as (headers & payload & logs2 & Hconnect & Hlogs2).
  rewrite (bind_ok _ _ _ _ _ Hconnect). cbn [ret].
  eexists _, _, logs1, headers, _, logs2. split; [reflexivity|].
  subst w1. cbn [trace extend asr_remote tts_remote llm_remote].
  assert (Hlogs2' : Forall (fun e => is_log e = true) logs2)
    by (destruct Hlogs2 as [-> | ->]; repeat constructor).
  split; [repeat rewrite <- app_assoc; reflexivity|].
  split; [exact Hlogs1|]. split; [exact Hlogs2'|].
  split; [|repeat split].
  repeat rewrite <- app_assoc.
  rewrite skipn_app, skipn_all, Nat.sub_diag. cbn [skipn app].
  change (AsrSend ?f :: ?l) with ([AsrSend f] ++ l).
  repeat rewrite calls_app.
  destruct (logs_silent logs1 Hlogs1) as [-> _].
  destruct (logs_silent logs2 Hlogs2') as [Hc2 _].
  cbn [calls filter is_call app]. exact Hc2.
Qed.

Lemma demo_requests_fit text : request_fits Demo.ext text.
Proof. intros self uid reqid. reflexivity. Qed.

Lemma mid_stream_cut_witness :
  let L := Demo.in_turn (JStr (lit "hello")) [] in
  let w := Demo.answering [Demo.delta_line Demo.reply_130] in
  exists L' w' evs,
    generate_and_synthesize Demo.ext L w = (Ok L', w') /\
    trace w' = trace w ++ evs /\
    calls evs = [Generate (asr_result L); Synthesize (slice_to Demo.reply_130 53);
                 GenerateEnd; Synthesize (slice_from Demo.reply_130 53)] /\
    len (slice_to Demo.reply_130 53) = 53 /\
    len (slice_from Demo.reply_130 53) = 77 /\
    slice_to Demo.reply_130 53 ++ slice_from Demo.reply_130 53 = Demo.reply_130.
Proof.
  intros L w.
  apply (mid_stream_cut Demo.ext L
           {| Tts.voice_type := lit "voice"; Tts.ws := Some Demo.tts_session |}
           Demo.tts_session Demo.reply_130 44%N [Demo.delta_line Demo.reply_130] [] w).
  - reflexivity.
  - reflexivity.
  - repeat split; apply le_n.
  - reflexivity.
  - vm_compute. reflexivity.
  - reflexivity.
  - reflexivity.
  - reflexivity.
  - intros i Hi. assert (Hcase : i = 50 \/ i = 51) by lia.
    destruct Hcase as [-> | ->]; exists 97%N; split; reflexivity.
  - apply demo_requests_fit.
  - apply demo_requests_fit.
Defined.

Lemma empty_transcript_short_circuit_witness :
  let L := Demo.in_turn (JStr []) [BINARY (Demo.asr_response 3 (-5) [])] in
  let w := Demo.answering [] in
  exists w' end_frame logs1 headers full_frame logs2,
    step Demo.ext (ReceiveText Demo.end_command) L w
    = (Ok (Continue,
           {| asr_client :=
                Some {| Asr.seq := 2;
                        Asr.ws := Some (snd (ws_receive
                                               {| inbox := [BINARY (Demo.asr_response 1 1 [])];
                                                  closed := false |})) |};
              tts_client := tts_client L;
              llm_client := llm_client L;
              asr_result := JStr [] |}), w') /\
    trace w' = trace w ++ [AsrSend end_frame] ++ logs1
               ++ [SendJson (lit "asr") (JStr []); SendText (lit "over");
                   AsrConnect headers; AsrSend full_frame] ++ logs2 /\
    Forall (fun e => is_log e = true) logs1 /\
    Forall (fun e => is_log e = true) logs2 /\
    calls (skipn (List.length (trace w)) (trace w')) = [] /\
    asr_remote w' = [] /\ tts_remote w' = tts_remote w /\ llm_remote w' = llm_remote w.
Proof.
  intros L w.
  apply (empty_transcript_short_circuit Demo.ext L
           {| Asr.seq := 5;
              Asr.ws := Some {| inbox := [BINARY (Demo.asr_response 3 (-5) [])];
                                closed := false |} |}
           {| inbox := [BINARY (Demo.asr_response 3 (-5) [])]; closed := false |}
           Demo.end_command [(lit "type", JStr (lit "end"))]
           [BINARY (Demo.asr_response 1 1 [])] [] w).
  - reflexivity.
  - reflexivity.
  - reflexivity.
  - reflexivity.
  - reflexivity.
  - split; reflexivity.
  - reflexivity.
  - vm_compute. reflexivity.
  - reflexivity.
  - cbn [ws_receive inbox fst accepted]. eexists. vm_compute. reflexivity.
  - reflexivity.
Defined.

(** C1 at a failing input.  The reply arrives as two deltas: 101 times
    the letter [a], then [b].  The first relayed text is the 101
    letters; it is longer than 100, so the first 51 letters are cut off
    and synthesized.  The text relayed for the second delta is the 50
    letters left over followed by [b] (51 characters), not the text
    generated so far in the turn (102 characters). *)
Theorem relayed_text_restarts_after_cut :
  exists L' w',
    generate_and_synthesize Demo.ext (Demo.in_turn (JStr (lit "hello")) [])
      (Demo.answering [Demo.delta_line (repeat 97%N 101); Demo.delta_line [98%N]])
    = (Ok L', w') /\
    llm_relayed (trace w')
    = [JStr (repeat 97%N 101); JStr (repeat 97%N 50 ++ [98%N])] /\
    calls (trace w')
    = [Generate (JStr (lit "hello")); Synthesize (repeat 97%N 51); GenerateEnd;
       Synthesize (repeat 97%N 50 ++ [98%N])] /\
    Llm.messages (llm_client L')
    = [(lit "system", JStr (lit "Be brief.")); (lit "user", JStr (lit "hello"));
       (lit "assistant", JStr (repeat 97%N 101 ++ [98%N]))].
Proof.
  do 2 eexists. split; [vm_compute; reflexivity|].
  repeat split; vm_compute; reflexivity.
Qed.

(** *** The transcript is clear at the start of every turn *)

Lemma on_bytes_keeps_transcript ext L audio w L' w' :
  on_bytes ext L audio w = (Ok L', w') -> asr_result L' = asr_result L.
Proof.
  unfold on_bytes, bind. destruct (asr_client L) as [asr|] eqn:Hasr.
  - cbn [ret]. rewrite Hasr.
    destruct (Asr.send_audio ext asr audio w) as [[asr'|e] w1]; intros H;
      [injection H as <- <-; reflexivity | discriminate].
  - destruct (fresh_asr ext w) as [[asr|e] w1]; [|discriminate].
    destruct (fresh_tts ext w1) as [[tts|e] w2]; [|discriminate].
    cbn [ret asr_client].
    destruct (Asr.send_audio ext asr audio w2) as [[asr'|e] w3]; intros H;
      [injection H as <- <-; reflexivity | discriminate].
Qed.

Lemma on_end_clears_transcript ext L w L' w' :
  on_end ext L w = (Ok L', w') -> asr_result L' = JStr [].
Proof.
  unfold on_end, bind. destruct (asr_client L) as [asr|]; [|discriminate].
  destruct (Asr.send_end ext asr w) as [[u|e] w1]; [|discriminate].
  destruct (Asr.receive_results ext asr _ (asr_result L) w1) as [[[result asr']|e] w2];
    [|discriminate].
  cbn [send_json send_text emit].
  destruct (negb (truthy result)).
  - destruct (fresh_asr ext _) as [[asr2|e] w3]; intros H;
      [injection H as <- <-; reflexivity | discriminate].
  - destruct (generate_and_synthesize ext _ _) as [[L1|e] w3]; [|discriminate].
    destruct (fresh_asr ext _) as [[asr2|e] w4]; intros H;
      [injection H as <- <-; reflexivity | discriminate].
Qed.

(** Every iteration of the loop that goes on leaves [asr_result]
    empty when it found it empty: audio and unknown commands do not
    touch it, and the end-of-turn branch resets it on both paths. *)
Lemma step_keeps_transcript_clear ext m L w flow L' w' :
  asr_result L = JStr [] ->
  step ext m L w = (Ok (flow, L'), w') ->
  asr_result L' = JStr [].
Proof.
  intros Hclear Hstep. destruct m as [audio | data |]; cbn [step] in Hstep.
  - unfold bind in Hstep.
    destruct (on_bytes ext L audio w) as [[L1|e] w1] eqn:Hb; [|discriminate].
    injection Hstep as <- <- <-.
    rewrite (on_bytes_keeps_transcript ext L audio w L1 w1 Hb). exact Hclear.
  - destruct (parse_command ext data); try discriminate.
    destruct (eq_str _ _).
    + unfold bind in Hstep.
      destruct (on_end ext L w) as [[L1|e] w1] eqn:He; [|discriminate].
      injection Hstep as <- <- <-.
      exact (on_end_clears_transcript ext L w L1 w1 He).
    + injection Hstep as <- <- <-. exact Hclear.
  - injection Hstep as <- <- <-. exact Hclear.
Qed.

End OrchestratorFacts.

(* ================================================================== *)
(** ** The segmenter: where the cut lands *)
(* ================================================================== *)

Module SegmenterChoice.
Import Segmenter PyFacts SegmenterFacts.

Lemma range_down_cons a b : b < a -> range_down a b = a :: range_down (a - 1) b.
Proof.
  intros H. unfold range_down.
  replace (Z.to_nat (a - b)) with (S (Z.to_nat (a - 1 - b))) by lia.
  cbn [seq map]. f_equal; [lia|].
  rewrite <- seq_shift, map_map. apply map_ext. intros k. lia.
Qed.

(** A hit of a scan is a punctuation mark inside the text. *)
Lemma scan_hit text idxs i :
  Forall (fun k => 0 <= k) idxs ->
  scan text idxs = Ok (Some i) ->
  In i idxs /\ 0 <= i < len text /\ exists c, index text i = Some c /\ is_punct c = true.
Proof.
  induction 1 as [|k rest Hk _ IH]; cbn [scan]; [discriminate|].
  destruct (k <? len text) eqn:Hlt.
  - apply Z.ltb_lt in Hlt.
    destruct (index_some text k) as (c & Hc); [lia|]. rewrite Hc.
    destruct (is_punct c) eqn:Hp.
    + intros [= <-]. split; [now left|]. split; [lia|]. eauto.
    + intros H. destruct (IH H) as (Hin & Hb & Hm). split; [now right | auto].
  - intros H. destruct (IH H) as (Hin & Hb & Hm). split; [now right | auto].
Qed.

(** A scan that falls through saw no punctuation mark. *)
Lemma scan_miss text idxs :
  Forall (fun k => 0 <= k) idxs ->
  scan text idxs = Ok None ->
  forall k, In k idxs -> k < len text ->
            exists c, index text k = Some c /\ is_punct c = false.
Proof.
  induction 1 as [|j rest Hj _ IH]; cbn [scan]; intros Hscan k Hin Hk; [destruct Hin|].
  destruct (j <? len text) eqn:Hlt.
  - apply Z.ltb_lt in Hlt.
    destruct (index_some text j) as (c & Hc); [lia|]. rewrite Hc in Hscan.
    destruct (is_punct c) eqn:Hp; [discriminate|].
    destruct Hin as [<- | Hin]; [eauto | now apply IH].
  - apply Z.ltb_ge in Hlt. destruct Hin as [<- | Hin]; [lia | now apply IH].
Qed.

(** A scan over places without punctuation falls through. *)
Lemma scan_nothing text idxs :
  (forall k, In k idxs -> k < len text ->
             exists c, index text k = Some c /\ is_punct c = false) ->
  scan text idxs = Ok None.
Proof.
  induction idxs as [|j rest IH]; intros H; cbn [scan]; [reflexivity|].
  destruct (j <? len text) eqn:Hlt.
  - apply Z.ltb_lt in Hlt.
    destruct (H j (or_introl eq_refl) Hlt) as (c & -> & ->).
    apply IH. intros k Hk. apply H. now right.
  - apply IH. intros k Hk. apply H. now right.
Qed.

(** The backward scan stops at the first punctuation mark it meets. *)
Lemma scan_backward_hit text (n : nat) : forall a j b c,
  j = a - Z.of_nat n -> b < j -> a < len text ->
  (forall i, j < i <= a -> exists d, index text i = Some d /\ is_punct d = false) ->
  index text j = Some c -> is_punct c = true ->
  scan text (range_down a b) = Ok (Some j).
Proof.
  induction n as [|n IH]; intros a j b c Hj Hb Hlen Hafter Hc Hp.
  - assert (j = a) as -> by lia.
    rewrite range_down_cons by lia. cbn [scan].
    replace (a <? len text) with true by (symmetry; apply Z.ltb_lt; lia).
    now rewrite Hc, Hp.
  - rewrite range_down_cons by lia. cbn [scan].
    replace (a <? len text) with true by (symmetry; apply Z.ltb_lt; lia).
    destruct (Hafter a) as (d & -> & ->); [lia|].
    apply (IH (a - 1) j b c); auto; try lia.
    intros i Hi. apply Hafter. lia.
Qed.

Lemma cut_window (text : str) (t : Z) :
  0 <= t -> t < len text ->
  exists i c,
    find_nearest_punctuation text t = Ok i /\
    Z.max 0 (t - 20) <= i < Z.min (len text) (t + 20) /\
    index text i = Some c /\
    (is_punct c = true \/ i = t).
Proof.
  intros Ht Hlen. unfold find_nearest_punctuation.
  replace (len text <=? t) with false by (symmetry; apply Z.leb_gt; lia).
  cbv zeta.
  destruct (scan_total text (range t (Z.min (len text) (t + 20))))
    as [Hf | (i & Hf & _)]; [apply range_nonneg; lia | |].
  - rewrite Hf.
    destruct (scan_total text (range_down t (Z.max 0 (t - 20) - 1)))
      as [Hb | (i & Hb & _)]; [apply range_down_nonneg; lia | |].
    + rewrite Hb. rewrite Z.min_l by lia.
      destruct (index_some text t) as (c & Hc); [lia|].
      exists t, c. repeat split; auto; lia.
    + rewrite Hb.
      assert (Hdown : Forall (fun k => 0 <= k) (range_down t (Z.max 0 (t - 20) - 1)))
        by (apply range_down_nonneg; lia).
      destruct (scan_hit text _ i Hdown Hb) as (Hin & Hbound & c & Hc & Hp).
      apply in_range_down in Hin.
      exists i, c. repeat split; auto; lia.
  - rewrite Hf.
    destruct (scan_hit text _ i (range_nonneg t _ Ht) Hf) as (Hin & Hbound & c & Hc & Hp).
    apply in_range in Hin.
    exists i, c. repeat split; auto; lia.
Qed.

(** X1.  On a buffer longer than the target [t >= 0], the cut lies in
    the window from [t - 20] (or 0) up to [t + 19] (or the end of the
    buffer), and it is either on a punctuation mark or exactly at
    [t]. *)
Theorem cut_lands_in_window (text : str) (t : Z) :
  0 <= t -> t < len text ->
  exists i c,
    find_nearest_punctuation text t = Ok i /\
    Z.max 0 (t - 20) <= i < Z.min (len text) (t + 20) /\
    index text i = Some c /\
    (is_punct c = true \/ i = t).
Proof. apply cut_window. Qed.

Lemma cut_lands_in_window_witness :
  exists i c,
    find_nearest_punctuation (lit "one, two, three, four, five, six") 25 = Ok i /\
    Z.max 0 (25 - 20) <= i < Z.min (len (lit "one, two, three, four, five, six")) (25 + 20) /\
    index (lit "one, two, three, four, five, six") i = Some c /\
    (is_punct c = true \/ i = 25).
Proof.
  apply (cut_lands_in_window (lit "one, two, three, four, five, six") 25).
  - discriminate.
  - reflexivity.
Defined.

(** X2.  A punctuation mark at [j], from the target up to 19 places
    after it, with no mark between the target and it, is where the cut
    lands, whatever stands before the target: a mark just before the
    target loses to a mark up to 19 places after it. *)
Theorem forward_mark_wins (text : str) (t j : Z) (c : char) :
  0 <= t <= j -> j < t + 20 -> j < len text ->
  (forall i, t <= i < j -> exists d, index text i = Some d /\ is_punct d = false) ->
  index text j = Some c -> is_punct c = true ->
  find_nearest_punctuation text t = Ok j.
Proof. apply find_cut_forward. Qed.

Lemma forward_mark_wins_witness :
  find_nearest_punctuation (lit "ab,defghijklmnopqrstu.wxyz") 3 = Ok 21.
Proof.
  apply (forward_mark_wins (lit "ab,defghijklmnopqrstu.wxyz") 3 21 46%N).
  - lia.
  - lia.
  - reflexivity.
  - intros i Hi.
    assert (Hn : exists n, (n < 18)%nat /\ i = 3 + Z.of_nat n)
      by (exists (Z.to_nat (i - 3)); lia).
    destruct Hn as (n & Hn & ->).
    do 18 (destruct n as [|n]; [eexists; split; reflexivity|]). lia.
  - reflexivity.
  - reflexivity.
Defined.

(** X3.  When there is no punctuation mark from the target up to 19
    places after it, the cut lands on the closest mark before the
    target, at most 20 places back. *)
Theorem backward_mark_when_none_ahead (text : str) (t j : Z) (c : char) :
  0 <= j < t -> t - 20 <= j -> t < len text ->
  (forall i, j < i < Z.min (len text) (t + 20) ->
             exists d, index text i = Some d /\ is_punct d = false) ->
  index text j = Some c -> is_punct c = true ->
  find_nearest_punctuation text t = Ok j.
Proof.
  intros Hj Hback Hlen Hnone Hc Hp. unfold find_nearest_punctuation.
  replace (len text <=? t) with false by (symmetry; apply Z.leb_gt; lia).
  cbv zeta.
  rewrite (scan_nothing text (range t _)).
  2:{ intros k Hk _. apply in_range in Hk. apply Hnone. lia. }
  rewrite (scan_backward_hit text (Z.to_nat (t - j)) t j _ c); auto; try lia.
  intros i Hi. apply Hnone. lia.
Qed.

Lemma backward_mark_when_none_ahead_witness :
  find_nearest_punctuation (lit "ab,defgh") 5 = Ok 2.
Proof.
  apply (backward_mark_when_none_ahead (lit "ab,defgh") 5 2 44%N).
  - lia.
  - lia.
  - reflexivity.
  - intros i Hi. change (Z.min _ _) with 8 in Hi.
    assert (Hn : exists n, (n < 5)%nat /\ i = 3 + Z.of_nat n)
      by (exists (Z.to_nat (i - 3)); lia).
    destruct Hn as (n & Hn & ->).
    do 5 (destruct n as [|n]; [eexists; split; reflexivity|]). lia.
  - reflexivity.
  - reflexivity.
Defined.

(** X4.  When the window around the target holds no punctuation mark
    at all, the cut is a hard cut exactly at the target. *)
Theorem hard_cut_without_marks (text : str) (t : Z) :
  0 <= t -> t < len text ->
  (forall i, Z.max 0 (t - 20) <= i < Z.min (len text) (t + 20) ->
             exists d, index text i = Some d /\ is_punct d = false) ->
  find_nearest_punctuation text t = Ok t.
Proof.
  intros Ht Hlen Hnone. unfold find_nearest_punctuation.
  replace (len text <=? t) with false by (symmetry; apply Z.leb_gt; lia).
  cbv zeta.
  rewrite (scan_nothing text (range t _)).
  2:{ intros k Hk _. apply in_range in Hk. apply Hnone. lia. }
  rewrite (scan_nothing text (range_down t _)).
  2:{ intros k Hk _. apply in_range_down in Hk. apply Hnone. lia. }
  f_equal. lia.
Qed.

Lemma hard_cut_without_marks_witness :
  find_nearest_punctuation (lit "abcdefgh") 5 = Ok 5.
Proof.
  apply (hard_cut_without_marks (lit "abcdefgh") 5).
  - lia.
  - reflexivity.
  - intros i Hi. change (Z.max _ _) with 0 in Hi. change (Z.min _ _) with 8 in Hi.
    assert (Hn : exists n, (n < 8)%nat /\ i = Z.of_nat n)
      by (exists (Z.to_nat i); lia).
    destruct Hn as (n & Hn & ->).
    do 8 (destruct n as [|n]; [eexists; split; reflexivity|]). lia.
Defined.

End SegmenterChoice.

(* ================================================================== *)
(** ** One turn: what is relayed and what is synthesized *)
(* ================================================================== *)

Module TurnFacts.
Import Segmenter Main PyFacts EffectFacts Notions SegmenterFacts SegmenterChoice AsrFacts
  TtsFacts LlmFacts OrchestratorFacts.

Lemma synthesized_app a b : synthesized (a ++ b) = synthesized a ++ synthesized b.
Proof. unfold synthesized. apply flat_map_app. Qed.

Lemma tts_ready_weaken ext k k' ch w :
  (k' <= k)%nat -> tts_ready ext k ch w -> tts_ready ext k' ch w.
Proof. intros Hk (H1 & H2 & H3). repeat split; auto. lia. Qed.

(** What [generate_stream] does when the service answers with [lines]:
    the request goes out, the deltas are fed to the body, then the
    stream ends and the reply, if any, joins the conversation. *)
Lemma generate_stream_feeds ext {A} self user_text (body : A -> str -> M A) acc w
  lines rest ds :
  llm_remote w = lines :: rest ->
  deltas ext lines = Ok ds ->
  Llm.generate_stream ext self user_text body acc w
  = bind (feed body ds [] acc)
         (fun r =>
            bind (emit GenerateEnd)
                 (fun _ =>
                    ret (fst r,
                         match snd r with
                         | [] => if truthy user_text
                                 then Llm.add_user_message self user_text else self
                         | _ :: _ =>
                             Llm.add_assistant_message
                               (if truthy user_text
                                then Llm.add_user_message self user_text else self)
                               (snd r)
                         end)))
         {| asr_remote := asr_remote w; tts_remote := tts_remote w;
            llm_remote := rest; uuids := uuids w;
            trace := trace w
                     ++ [Generate user_text;
                         LlmPost (DOUBAO_MODEL ext)
                           (Llm.messages (if truthy user_text
                                          then Llm.add_user_message self user_text
                                          else self))] |}.
Proof.
  intros Hllm Hds. unfold Llm.generate_stream.
  rewrite bind_emit. unfold bind at 1. unfold llm_post.
  cbn [extend llm_remote asr_remote tts_remote uuids trace]. rewrite Hllm.
  rewrite <- app_assoc. cbn [app].
  unfold bind at 1 3.
  rewrite (pump_deltas ext _ lines ds _ _ _ Hds).
  destruct (feed body ds [] acc _) as [[[acc' full]|e] w']; reflexivity.
Qed.

(** The body of the loop on a buffer that stays within 100 characters:
    the buffer is relayed and nothing else happens. *)
Lemma chunk_kept ext buf tts chunk w :
  len (buf ++ chunk) <= 100 ->
  on_llm_chunk ext (buf, tts) chunk w
  = (Ok (buf ++ chunk, tts), extend w [SendJson (lit "llm") (JStr (buf ++ chunk))]).
Proof.
  intros H. rewrite on_llm_chunk_relays.
  replace (len (buf ++ chunk) >? 100) with false; [reflexivity|].
  symmetry. rewrite Z.gtb_ltb. apply Z.ltb_ge. lia.
Qed.

(** The body of the loop on a buffer that grew beyond 100 characters,
    when synthesis is served. *)
Lemma chunk_cut ext k buf chunk c ch w :
  Tts.ws c = Some ch ->
  tts_ready ext (S k) ch w ->
  100 < len (buf ++ chunk) ->
  (forall text, len text <= len (buf ++ chunk) -> request_fits ext text) ->
  exists sentence remaining c' ch' w' evs,
    on_llm_chunk ext (buf, Some c) chunk w = (Ok (remaining, Some c'), w') /\
    sentence ++ remaining = buf ++ chunk /\
    31 <= len sentence <= 70 /\
    Tts.ws c' = Some ch' /\ tts_ready ext k ch' w' /\
    trace w' = trace w ++ evs /\
    calls evs = [Synthesize sentence] /\
    llm_relayed evs = [JStr (buf ++ chunk)] /\
    llm_remote w' = llm_remote w /\ asr_remote w' = asr_remote w.
Proof.
  intros Hws Hready Hlong Hfits.
  set (b := buf ++ chunk) in *.
  destruct (cut_window b 50) as (i & p & Hcut & Hi & _); [lia | lia |].
  assert (Hi' : 30 <= i <= 69) by lia.
  assert (Hlen : len (slice_to b (i + 1)) = i + 1) by (apply len_slice_to; lia).
  rewrite on_llm_chunk_relays. fold b.
  replace (len b >? 100) with true by (symmetry; rewrite Z.gtb_ltb; apply Z.ltb_lt; lia).
  unfold bind at 1. unfold lift. rewrite Hcut.
  destruct (synthesize_and_send_ready ext k c ch (slice_to b (i + 1))
              (extend w [SendJson (lit "llm") (JStr b)]) Hws)
    as (c' & ch' & w' & evs & Hsyn & Hws' & Hready' & Htrace & Hcalls & Hrel & Hl & Ha);
    [ apply (tts_ready_same_remote ext (S k) ch w); [reflexivity | exact Hready]
    | apply Hfits; lia | ].
  rewrite (bind_ok _ _ _ _ _ Hsyn). cbn [ret].
  exists (slice_to b (i + 1)), (slice_from b (i + 1)), c', ch', w',
    (SendJson (lit "llm") (JStr b) :: evs).
  split; [reflexivity|].
  split; [apply slice_to_from; lia|].
  split; [lia|]. split; [exact Hws'|]. split; [exact Hready'|].
  split; [rewrite Htrace; cbn [extend trace]; now rewrite <- app_assoc|].
  split; [cbn [calls filter is_call]; exact Hcalls|].
  split; [|split; assumption].
  change (SendJson ?k ?d :: evs) with ([SendJson k d] ++ evs).
  rewrite llm_relayed_app, Hrel. reflexivity.
Qed.

Lemma len_concat_cons (d : str) ds : len (List.concat (d :: ds)) = len d + len (List.concat ds).
Proof. cbn [List.concat]. apply len_app. Qed.

(** Feeding the deltas to the loop body, when synthesis is served:
    what was cut off so far, followed by the buffer, is all the text
    received so far. *)
Lemma feed_conserves ext : forall ds buf c ch w full k,
  Tts.ws c = Some ch ->
  tts_ready ext (List.length ds + k) ch w ->
  (forall text, len text <= len buf + len (List.concat ds) -> request_fits ext text) ->
  exists buf' c' ch' w' evs mid,
    feed (on_llm_chunk ext) ds full (buf, Some c) w
    = (Ok ((buf', Some c'), full ++ List.concat ds), w') /\
    Tts.ws c' = Some ch' /\ tts_ready ext k ch' w' /\
    trace w' = trace w ++ evs /\
    calls evs = map Synthesize mid /\
    List.concat mid ++ buf' = buf ++ List.concat ds /\
    (List.length mid <= List.length ds)%nat /\
    Forall (fun s => 31 <= len s <= 70) mid /\
    llm_remote w' = llm_remote w /\ asr_remote w' = asr_remote w.
Proof.
  induction ds as [|d ds IH]; intros buf c ch w full k Hws Hready Hfits.
  - exists buf, c, ch, w, [], []. cbn [feed List.concat ret app List.length map].
    rewrite !app_nil_r. repeat split; auto; apply Hready.
  - cbn [feed]. pose proof (len_nonneg (List.concat ds)) as Hpos.
    pose proof (len_concat_cons d ds) as Hcons.
    destruct (Z.le_gt_cases (len (buf ++ d)) 100) as [Hshort | Hlong].
    + (* the buffer stays: no cut *)
      rewrite (bind_ok _ _ _ _ _ (chunk_kept ext buf (Some c) d w Hshort)). cbv beta.
      destruct (IH (buf ++ d) c ch (extend w [SendJson (lit "llm") (JStr (buf ++ d))])
                  (full ++ d) k Hws)
        as (buf' & c' & ch' & w' & evs & mid & Hfeed & Hws' & Hready' & Htrace
            & Hcalls & Hcat & Hn & Hmid & Hl & Ha).
      { apply (tts_ready_same_remote ext _ ch w); [reflexivity|].
        apply (tts_ready_weaken ext (List.length (d :: ds) + k)); [cbn [List.length]; lia | exact Hready]. }
      { intros text Ht. apply Hfits. rewrite len_app in Ht. unfold str, char in *. lia. }
      exists buf', c', ch', w', (SendJson (lit "llm") (JStr (buf ++ d)) :: evs), mid.
      cbn [List.concat]. rewrite !app_assoc.
      split; [exact Hfeed|]. split; [exact Hws'|]. split; [exact Hready'|].
      split; [rewrite Htrace; cbn [extend trace]; now rewrite <- !app_assoc|].
      split; [cbn [calls filter is_call]; exact Hcalls|].
      split; [exact Hcat|].
      split; [cbn [List.length]; lia|]. repeat split; assumption.
    + (* the buffer is cut *)
      destruct (chunk_cut ext (List.length ds + k) buf d c ch w Hws Hready)
        as (sentence & remaining & c1 & ch1 & w1 & evs1 & Hchunk & Hsplit & Hsent
            & Hws1 & Hready1 & Htrace1 & Hcalls1 & _ & Hl1 & Ha1); [lia | |].
      { intros text Ht. apply Hfits. rewrite len_app in Ht. unfold str, char in *. lia. }
      rewrite (bind_ok _ _ _ _ _ Hchunk). cbv beta.
      assert (Hrem : len remaining <= len buf + len d).
      { rewrite <- len_app, <- Hsplit, len_app. pose proof (len_nonneg sentence).
        unfold str, char in *. lia. }
      destruct (IH remaining c1 ch1 w1 (full ++ d) k Hws1 Hready1)
        as (buf' & c' & ch' & w' & evs & mid & Hfeed & Hws' & Hready' & Htrace
            & Hcalls & Hcat & Hn & Hmid & Hl & Ha).
      { intros text Ht. apply Hfits. unfold str, char in *. lia. }
      exists buf', c', ch', w', (evs1 ++ evs), (sentence :: mid).
      cbn [List.concat]. rewrite !app_assoc.
      split; [exact Hfeed|]. split; [exact Hws'|]. split; [exact Hready'|].
      split; [rewrite Htrace, Htrace1; now rewrite <- !app_assoc|].
      split; [rewrite calls_app, Hcalls1, Hcalls; reflexivity|].
      split; [rewrite <- (app_assoc sentence), Hcat, (app_assoc sentence), Hsplit;
              reflexivity|].
      split; [cbn [List.length]; lia|].
      split; [constructor; assumption|].
      split; congruence.
Qed.

(** X5.  One delta that makes the running buffer longer than 100
    characters, when synthesis is served: the first event is the relay
    of the whole buffer to the client; everything else comes after it,
    and holds exactly one call to synthesis, for one sentence, and no
    further relay of text.  The sentence is the first 31 to 70
    characters of the buffer, and the rest stays in the buffer; nothing
    is lost. *)
Theorem long_buffer_is_cut_once (ext : Externals) (k : nat) (buf chunk : str)
  (c : Tts.TTSClient) (ch : Channel) (w : World) :
  Tts.ws c = Some ch ->
  tts_ready ext (S k) ch w ->
  100 < len (buf ++ chunk) ->
  (forall text, len text <= len (buf ++ chunk) -> request_fits ext text) ->
  exists sentence remaining c' ch' w' evs,
    on_llm_chunk ext (buf, Some c) chunk w = (Ok (remaining, Some c'), w') /\
    sentence ++ remaining = buf ++ chunk /\
    31 <= len sentence <= 70 /\
    Tts.ws c' = Some ch' /\ tts_ready ext k ch' w' /\
    trace w' = trace w ++ SendJson (lit "llm") (JStr (buf ++ chunk)) :: evs /\
    calls evs = [Synthesize sentence] /\
    llm_relayed evs = [] /\
    llm_remote w' = llm_remote w /\ asr_remote w' = asr_remote w.
Proof.
  intros Hws Hready Hlong Hfits.
  set (b := buf ++ chunk) in *.
  destruct (cut_window b 50) as (i & p & Hcut & Hi & _); [lia | lia |].
  assert (Hi' : 30 <= i <= 69) by lia.
  assert (Hlen : len (slice_to b (i + 1)) = i + 1) by (apply len_slice_to; lia).
  rewrite on_llm_chunk_relays. fold b.
  replace (len b >? 100) with true by (symmetry; rewrite Z.gtb_ltb; apply Z.ltb_lt; lia).
  unfold bind at 1. unfold lift. rewrite Hcut.
  destruct (synthesize_and_send_ready ext k c ch (slice_to b (i + 1))
              (extend w [SendJson (lit "llm") (JStr b)]) Hws)
    as (c' & ch' & w' & evs & Hsyn & Hws' & Hready' & Htrace & Hcalls & Hrel & Hl & Ha);
    [ apply (tts_ready_same_remote ext (S k) ch w); [reflexivity | exact Hready]
    | apply Hfits; lia | ].
  rewrite (bind_ok _ _ _ _ _ Hsyn). cbn [ret].
  exists (slice_to b (i + 1)), (slice_from b (i + 1)), c', ch', w', evs.
  split; [reflexivity|].
  split; [apply slice_to_from; lia|].
  split; [lia|]. split; [exact Hws'|]. split; [exact Hready'|].
  split; [rewrite Htrace; cbn [extend trace]; now rewrite <- app_assoc|].
  split; [exact Hcalls|].
  split; [exact Hrel|]. split; assumption.
Qed.

Lemma long_buffer_is_cut_once_witness :
  let c := {| Tts.voice_type := lit "voice"; Tts.ws := Some Demo.tts_session |} in
  let buf := repeat 97%N 60 in
  let chunk := repeat 98%N 60 in
  let w := Demo.answering [] in
  exists sentence remaining c' ch' w' evs,
    on_llm_chunk Demo.ext (buf, Some c) chunk w = (Ok (remaining, Some c'), w') /\
    sentence ++ remaining = buf ++ chunk /\
    31 <= len sentence <= 70 /\
    Tts.ws c' = Some ch' /\ tts_ready Demo.ext 1 ch' w' /\
    trace w' = trace w ++ SendJson (lit "llm") (JStr (buf ++ chunk)) :: evs /\
    calls evs = [Synthesize sentence] /\
    llm_relayed evs = [] /\
    llm_remote w' = llm_remote w /\ asr_remote w' = asr_remote w.
Proof.
  intros c buf chunk w.
  apply (long_buffer_is_cut_once Demo.ext 1 buf chunk c Demo.tts_session w).
  - reflexivity.
  - repeat split; apply le_n.
  - reflexivity.
  - intros text _. apply demo_requests_fit.
Defined.

(** X6.  A whole reply, whatever its deltas, when synthesis is served:
    generation and synthesis complete; sentences of 31 to 70 characters
    are synthesized while the stream runs, at most one per delta, and
    at most one more text (never empty) after the stream ends; the
    texts synthesized, put together in order, are exactly the reply. *)
Theorem synthesized_text_is_the_reply (ext : Externals) (L : Locals)
  (c : Tts.TTSClient) (ch : Channel) (lines : list bytes) (rest : list (list bytes))
  (ds : list str) (w : World) :
  tts_client L = Some c -> Tts.ws c = Some ch ->
  tts_ready ext (S (List.length ds)) ch w ->
  llm_remote w = lines :: rest ->
  deltas ext lines = Ok ds ->
  (forall text, len text <= len (List.concat ds) -> request_fits ext text) ->
  exists L' w' evs mid last,
    generate_and_synthesize ext L w = (Ok L', w') /\
    trace w' = trace w ++ evs /\
    calls evs = Generate (asr_result L) :: map Synthesize mid
                ++ GenerateEnd :: map Synthesize last /\
    List.concat (mid ++ last) = List.concat ds /\
    (List.length mid <= List.length ds)%nat /\
    (List.length last <= 1)%nat /\
    Forall (fun s => 31 <= len s <= 70) mid /\
    Forall (fun s => 0 < len s) last.
Proof.
  intros Htts Hws Hready Hllm Hds Hfits.
  unfold generate_and_synthesize. rewrite Htts.
  set (self := if truthy (asr_result L)
               then Llm.add_user_message (llm_client L) (asr_result L)
               else llm_client L).
  set (w0 := {| asr_remote := asr_remote w; tts_remote := tts_remote w;
                llm_remote := rest; uuids := uuids w;
                trace := trace w ++ [Generate (asr_result L);
                                     LlmPost (DOUBAO_MODEL ext) (Llm.messages self)] |}).
  destruct (feed_conserves ext ds [] c ch w0 [] 1 Hws)
    as (buf' & c1 & ch1 & w1 & evs1 & mid & Hfeed & Hws1 & Hready1 & Htrace1
        & Hcalls1 & Hcat & Hn & Hmid & _ & _).
  { apply (tts_ready_same_remote ext _ ch w); [reflexivity|].
    now rewrite Nat.add_1_r. }
  { intros text Ht. apply Hfits. exact Ht. }
  cbn [app] in Hfeed, Hcat.
  assert (Hgen : exists llm,
             Llm.generate_stream ext (llm_client L) (asr_result L) (on_llm_chunk ext)
               ([], Some c) w
             = (Ok ((buf', Some c1), llm), extend w1 [GenerateEnd])).
  { rewrite (generate_stream_feeds ext _ _ _ _ _ lines rest ds Hllm Hds).
    fold self. fold w0.
    rewrite (bind_ok _ _ _ _ _ Hfeed). cbv beta. rewrite bind_emit.
    cbn [ret fst snd]. eexists. reflexivity. }
  destruct Hgen as (llm & Hgen).
  rewrite (bind_ok _ _ _ _ _ Hgen). cbv beta iota.
  destruct buf' as [|x tail] eqn:Hbuf.
  - (* nothing is left to flush *)
    rewrite bind_ret. cbn [ret].
    exists {| asr_client := asr_client L; tts_client := Some c1; llm_client := llm;
              asr_result := asr_result L |},
      (extend w1 [GenerateEnd]),
      ([Generate (asr_result L); LlmPost (DOUBAO_MODEL ext) (Llm.messages self)]
         ++ evs1 ++ [GenerateEnd]), mid, [].
    split; [reflexivity|].
    split; [cbn [extend trace]; rewrite Htrace1; subst w0; cbn [trace];
            now rewrite <- !app_assoc|].
    split; [rewrite !calls_app, Hcalls1; reflexivity|].
    rewrite !app_nil_r in *.
    repeat split; auto.
  - (* the rest of the buffer is flushed *)
    rewrite <- Hbuf in *.
    destruct (synthesize_and_send_ready ext 0 c1 ch1 buf' (extend w1 [GenerateEnd]) Hws1)
      as (c2 & ch2 & w2 & evs2 & Hsyn & _ & _ & Htrace2 & Hcalls2 & _ & _ & _).
    { apply (tts_ready_same_remote ext 1 ch1 w1); [reflexivity | exact Hready1]. }
    { apply Hfits. rewrite <- Hcat, len_app. pose proof (len_nonneg (List.concat mid)).
      unfold str, char in *. lia. }
    rewrite (bind_ok _ _ _ _ _ Hsyn). cbn [ret].
    exists {| asr_client := asr_client L; tts_client := Some c2; llm_client := llm;
              asr_result := asr_result L |}, w2,
      ([Generate (asr_result L); LlmPost (DOUBAO_MODEL ext) (Llm.messages self)]
         ++ evs1 ++ [GenerateEnd] ++ evs2), mid, [buf'].
    split; [reflexivity|].
    split; [rewrite Htrace2; cbn [extend trace]; rewrite Htrace1; subst w0; cbn [trace];
            now rewrite <- !app_assoc|].
    split; [rewrite !calls_app, Hcalls1, Hcalls2; reflexivity|].
    split; [rewrite concat_app; cbn [List.concat]; now rewrite app_nil_r|].
    split; [exact Hn|]. split; [apply le_n|]. split; [exact Hmid|].
    constructor; [|constructor]. rewrite Hbuf. unfold len. cbn [List.length]. lia.
Qed.

Lemma synthesized_text_is_the_reply_witness :
  let L := Demo.in_turn (JStr (lit "hello")) [] in
  let w := Demo.answering [Demo.delta_line Demo.reply_130] in
  exists L' w' evs mid last,
    generate_and_synthesize Demo.ext L w = (Ok L', w') /\
    trace w' = trace w ++ evs /\
    calls evs = Generate (asr_result L) :: map Synthesize mid
                ++ GenerateEnd :: map Synthesize last /\
    List.concat (mid ++ last) = List.concat [Demo.reply_130] /\
    (List.length mid <= List.length [Demo.reply_130])%nat /\
    (List.length last <= 1)%nat /\
    Forall (fun s => 31 <= len s <= 70) mid /\
    Forall (fun s => 0 < len s) last.
Proof.
  intros L w.
  apply (synthesized_text_is_the_reply Demo.ext L
           {| Tts.voice_type := lit "voice"; Tts.ws := Some Demo.tts_session |}
           Demo.tts_session [Demo.delta_line Demo.reply_130] [] [Demo.reply_130] w).
  - reflexivity.
  - reflexivity.
  - repeat split; apply le_n.
  - reflexivity.
  - vm_compute. reflexivity.
  - intros text _. apply demo_requests_fit.
Defined.

(** Feeding deltas that together stay within 100 characters: each one
    is appended and the buffer relayed; nothing else happens. *)
Lemma feed_short ext : forall ds buf tts w full,
  len buf + len (List.concat ds) <= 100 ->
  feed (on_llm_chunk ext) ds full (buf, tts) w
  = (Ok ((buf ++ List.concat ds, tts), full ++ List.concat ds),
     extend w (map (fun s => SendJson (lit "llm") (JStr s)) (running buf ds))).
Proof.
  induction ds as [|d ds IH]; intros buf tts w full Hlen.
  - cbn [feed List.concat running map ret]. now rewrite extend_nil, !app_nil_r.
  - pose proof (len_concat_cons d ds) as Hcons.
    pose proof (len_nonneg (List.concat ds)) as Hpos.
    cbn [feed].
    rewrite (bind_ok _ _ _ _ _ (chunk_kept ext buf tts d w
                                  ltac:(rewrite len_app; unfold str, char in *; lia))).
    cbv beta. rewrite IH by (rewrite len_app; unfold str, char in *; lia).
    rewrite extend_extend. cbn [List.concat running map app].
    now rewrite !app_assoc.
Qed.

(** X7.  A reply whose deltas together stay within 100 characters,
    when synthesis is served: there is no cut while the stream runs;
    one text is relayed per delta, and it is the text of the reply so
    far; after the stream ends the whole reply is synthesized in one
    call (in none when the reply is empty). *)
Theorem short_reply_relayed_then_synthesized (ext : Externals) (L : Locals)
  (c : Tts.TTSClient) (ch : Channel) (lines : list bytes) (rest : list (list bytes))
  (ds : list str) (w : World) :
  tts_client L = Some c -> Tts.ws c = Some ch ->
  tts_ready ext 1 ch w ->
  llm_remote w = lines :: rest ->
  deltas ext lines = Ok ds ->
  len (List.concat ds) <= 100 ->
  request_fits ext (List.concat ds) ->
  exists L' w' evs,
    generate_and_synthesize ext L w = (Ok L', w') /\
    trace w' = trace w ++ evs /\
    llm_relayed evs = map JStr (running [] ds) /\
    calls evs = Generate (asr_result L) :: GenerateEnd
                :: match List.concat ds with
                   | [] => []
                   | _ :: _ => [Synthesize (List.concat ds)]
                   end.
Proof.
  intros Htts Hws Hready Hllm Hds Hlen Hfits.
  unfold generate_and_synthesize. rewrite Htts.
  set (self := if truthy (asr_result L)
               then Llm.add_user_message (llm_client L) (asr_result L)
               else llm_client L).
  set (w0 := {| asr_remote := asr_remote w; tts_remote := tts_remote w;
                llm_remote := rest; uuids := uuids w;
                trace := trace w ++ [Generate (asr_result L);
                                     LlmPost (DOUBAO_MODEL ext) (Llm.messages self)] |}).
  set (relays := map (fun s => SendJson (lit "llm") (JStr s)) (running [] ds)).
  assert (Hrel : llm_relayed relays = map JStr (running [] ds)).
  { subst relays. generalize (running [] ds). intros l.
    induction l as [|s l IH]; [reflexivity|]. cbn [map]. 
    change (SendJson ?k ?d :: ?t) with ([SendJson k d] ++ t).
    rewrite llm_relayed_app, IH. reflexivity. }
  assert (Hquiet : calls relays = []).
  { subst relays. generalize (running [] ds). intros l.
    induction l as [|s l IH]; [reflexivity|]. cbn [map calls filter is_call]. exact IH. }
  assert (Hgen : exists llm,
             Llm.generate_stream ext (llm_client L) (asr_result L) (on_llm_chunk ext)
               ([], Some c) w
             = (Ok ((List.concat ds, Some c), llm),
                extend (extend w0 relays) [GenerateEnd])).
  { rewrite (generate_stream_feeds ext _ _ _ _ _ lines rest ds Hllm Hds).
    fold self. fold w0.
    rewrite (bind_ok _ _ _ _ _ (feed_short ext ds [] (Some c) w0 [] Hlen)).
    cbv beta. rewrite bind_emit. cbn [ret fst snd app]. eexists. reflexivity. }
  destruct Hgen as (llm & Hgen).
  rewrite (bind_ok _ _ _ _ _ Hgen). cbv beta iota.
  destruct (List.concat ds) as [|x tail] eqn:Hreply.
  - rewrite bind_ret. cbn [ret].
    eexists _, _, ([Generate (asr_result L); LlmPost (DOUBAO_MODEL ext) (Llm.messages self)]
                     ++ relays ++ [GenerateEnd]).
    split; [reflexivity|].
    split; [subst w0; cbn [extend trace]; now rewrite <- !app_assoc|].
    split; [rewrite !llm_relayed_app, Hrel; cbn; now rewrite app_nil_r|].
    rewrite !calls_app, Hquiet. reflexivity.
  - rewrite <- Hreply in *.
    destruct (synthesize_and_send_ready ext 0 c ch (List.concat ds)
                (extend (extend w0 relays) [GenerateEnd]) Hws)
      as (c2 & ch2 & w2 & evs2 & Hsyn & _ & _ & Htrace2 & Hcalls2 & Hrel2 & _ & _).
    { apply (tts_ready_same_remote ext 1 ch w); [reflexivity | exact Hready]. }
    { exact Hfits. }
    rewrite (bind_ok _ _ _ _ _ Hsyn). cbn [ret].
    eexists _, w2, ([Generate (asr_result L);
                     LlmPost (DOUBAO_MODEL ext) (Llm.messages self)]
                      ++ relays ++ [GenerateEnd] ++ evs2).
    split; [reflexivity|].
    split; [rewrite Htrace2; subst w0; cbn [extend trace]; now rewrite <- !app_assoc|].
    split; [rewrite !llm_relayed_app, Hrel, Hrel2; cbn; now rewrite app_nil_r|].
    rewrite !calls_app, Hquiet, Hcalls2, Hreply. reflexivity.
Qed.

Lemma short_reply_relayed_then_synthesized_witness :
  let L := Demo.in_turn (JStr (lit "hello")) [] in
  let lines := [Demo.delta_line (lit "Hi"); Demo.delta_line (lit " there, ");
                Demo.delta_line (lit "friend.")] in
  let ds := [lit "Hi"; lit " there, "; lit "friend."] in
  let w := Demo.answering lines in
  exists L' w' evs,
    generate_and_synthesize Demo.ext L w = (Ok L', w') /\
    trace w' = trace w ++ evs /\
    llm_relayed evs = map JStr (running [] ds) /\
    calls evs = Generate (asr_result L) :: GenerateEnd
                :: match List.concat ds with
                   | [] => []
                   | _ :: _ => [Synthesize (List.concat ds)]
                   end.
Proof.
  intros L lines ds w.
  apply (short_reply_relayed_then_synthesized Demo.ext L
           {| Tts.voice_type := lit "voice"; Tts.ws := Some Demo.tts_session |}
           Demo.tts_session lines [] ds w).
  - reflexivity.
  - reflexivity.
  - repeat split. apply le_S, le_n.
  - reflexivity.
  - vm_compute. reflexivity.
  - discriminate.
  - apply demo_requests_fit.
Defined.

End TurnFacts.

(* ================================================================== *)
(** ** The connection loop *)
(* ================================================================== *)

Module LoopFacts.
Import Main PyFacts EffectFacts Notions AsrFacts OrchestratorFacts.

(** X9.  An end-of-turn signal that arrives before any audio finds no
    recognition session: the turn fails, the client gets one error
    message, and the loop ends there; the messages that follow are not
    looked at and no service is contacted. *)
Theorem end_before_audio_ends_connection (ext : Externals) (data : str)
  (cmd : list (str * json)) (rest : list ClientMsg) (w : World) :
  parse_command ext data = JObj cmd ->
  eq_str (dict_get cmd (lit "type") JNull) (lit "end") = true ->
  websocket_voice_chat ext (ReceiveText data :: rest) w
  = (Ok tt, extend w [Log (TurnError AttributeError);
                      SendJson (lit "error") (JStr (str_of_exn ext AttributeError))]).
Proof.
  intros Hcmd Hend. unfold websocket_voice_chat. cbn [main_loop step].
  rewrite Hcmd, Hend. unfold on_end, bind, raise, emit, send_json. cbn [asr_client].
  unfold emit. now rewrite extend_extend.
Qed.

Lemma end_before_audio_ends_connection_witness :
  websocket_voice_chat Demo.ext
    [ReceiveText Demo.end_command; ReceiveBytes [x01]; Disconnect] (Demo.answering [])
  = (Ok tt, extend (Demo.answering [])
              [Log (TurnError AttributeError);
               SendJson (lit "error") (JStr (str_of_exn Demo.ext AttributeError))]).
Proof.
  apply (end_before_audio_ends_connection Demo.ext Demo.end_command
           [(lit "type", JStr (lit "end"))]).
  - reflexivity.
  - reflexivity.
Defined.

(** Audio on a session that is already there. *)
Lemma on_bytes_connected ext L asr ch audio w :
  asr_client L = Some asr -> Asr.ws asr = Some ch ->
  - 2 ^ 31 < Asr.seq asr < 2 ^ 31 ->
  len (gzip_compress ext audio) < 2 ^ 32 ->
  audio <> [] ->
  on_bytes ext L audio w
  = (Ok {| asr_client := Some {| Asr.seq := Asr.seq asr + 1; Asr.ws := Some ch |};
           tts_client := tts_client L; llm_client := llm_client L;
           asr_result := asr_result L |},
     extend w [AsrSend ([x11; x21; x11; x00] ++ be_bytes 4 (Asr.seq asr)
                        ++ be_bytes 4 (len (gzip_compress ext audio))
                        ++ gzip_compress ext audio)]).
Proof.
  intros Hasr Hws Hseq Hlen Hne. unfold on_bytes. rewrite Hasr.
  rewrite bind_ret. rewrite Hasr.
  rewrite (bind_ok _ _ _ _ _ (send_audio_nonempty ext asr ch audio w Hws Hseq Hlen Hne)).
  cbn [ret]. now rewrite Hws.
Qed.

(** X10.  While the client sends audio, every non-empty chunk goes out
    as one recognition frame, and the frames carry consecutive sequence
    numbers starting at the session's counter; nothing else happens,
    and the counter has advanced by the number of chunks when the next
    message is looked at. *)
Theorem audio_chunks_are_numbered (ext : Externals) (chunks : list bytes)
  (rest : list ClientMsg) :
  forall (L : Locals) (asr : Asr.AsrClient) (ch : Channel) (w : World),
    asr_client L = Some asr -> Asr.ws asr = Some ch ->
    1 <= Asr.seq asr -> Asr.seq asr + len chunks < 2 ^ 31 ->
    Forall (fun a => a <> [] /\ len (gzip_compress ext a) < 2 ^ 32) chunks ->
    exists frames,
      main_loop ext (map ReceiveBytes chunks ++ rest) L w
      = main_loop ext rest
          {| asr_client := Some {| Asr.seq := Asr.seq asr + len chunks;
                                   Asr.ws := Some ch |};
             tts_client := tts_client L; llm_client := llm_client L;
             asr_result := asr_result L |}
          (extend w (map AsrSend frames)) /\
      List.length frames = List.length chunks /\
      forall i frame, nth_error frames i = Some frame ->
                      unpack_i (slice frame 4 8) = Ok (Asr.seq asr + Z.of_nat i).
Proof.
  induction chunks as [|a chunks IH]; intros L asr ch w Hasr Hws Hlow Hhigh Hall.
  - exists []. cbn [map app List.length]. rewrite extend_nil.
    replace (Asr.seq asr + len []) with (Asr.seq asr) by (cbn; lia).
    split; [|split; [reflexivity | intros [|i] frame; discriminate]].
    f_equal. destruct L as [a0 t l r]. cbn in *. subst a0. destruct asr as [s o].
    cbn in *. now subst o.
  - inversion Hall as [|a' chunks' [Hne Hlen] Hall' E]; subst.
    assert (Hlen' : len (a :: chunks) = 1 + len chunks)
      by (unfold len; cbn [List.length]; lia).
    pose proof (len_nonneg chunks) as Hpos.
    cbn [map app main_loop step].
    unfold bind at 1.
    rewrite (on_bytes_connected ext L asr ch a w Hasr Hws ltac:(lia) Hlen Hne).
    cbn [ret].
    destruct (IH {| asr_client := Some {| Asr.seq := Asr.seq asr + 1; Asr.ws := Some ch |};
                    tts_client := tts_client L; llm_client := llm_client L;
                    asr_result := asr_result L |}
                {| Asr.seq := Asr.seq asr + 1; Asr.ws := Some ch |} ch
                (extend w [AsrSend ([x11; x21; x11; x00] ++ be_bytes 4 (Asr.seq asr)
                                    ++ be_bytes 4 (len (gzip_compress ext a))
                                    ++ gzip_compress ext a)])
                eq_refl eq_refl ltac:(cbn [Asr.seq]; lia) ltac:(cbn [Asr.seq]; lia) Hall')
      as (frames & Hloop & Hn & Hseqs).
    exists (([x11; x21; x11; x00] ++ be_bytes 4 (Asr.seq asr)
             ++ be_bytes 4 (len (gzip_compress ext a)) ++ gzip_compress ext a) :: frames).
    split; [|split].
    + rewrite Hloop. cbn [Asr.seq tts_client llm_client asr_result map].
      rewrite extend_extend. cbn [app].
      replace (Asr.seq asr + 1 + len chunks) with (Asr.seq asr + len (a :: chunks)) by lia.
      reflexivity.
    + cbn [List.length]. now rewrite Hn.
    + intros [|i] frame Hnth; cbn [nth_error] in Hnth.
      * assert (frame = [x11; x21; x11; x00] ++ be_bytes 4 (Asr.seq asr)
                        ++ be_bytes 4 (len (gzip_compress ext a)) ++ gzip_compress ext a)
          as -> by congruence.
        rewrite Z.add_0_r. apply frame_sequence; [reflexivity | lia].
      * rewrite (Hseqs i frame Hnth). cbn [Asr.seq]. f_equal. lia.
Qed.

Lemma audio_chunks_are_numbered_witness :
  let L := Demo.in_turn (JStr []) [] in
  let w := Demo.answering [] in
  exists frames,
    main_loop Demo.ext (map ReceiveBytes [[x01]; [x02; x03]] ++ [Disconnect]) L w
    = main_loop Demo.ext [Disconnect]
        {| asr_client := Some {| Asr.seq := 5 + len [[x01]; [x02; x03]];
                                 Asr.ws := Some {| inbox := []; closed := false |} |};
           tts_client := tts_client L; llm_client := llm_client L;
           asr_result := asr_result L |}
        (extend w (map AsrSend frames)) /\
    List.length frames = List.length [[x01]; [x02; x03]] /\
    forall i frame, nth_error frames i = Some frame ->
                    unpack_i (slice frame 4 8) = Ok (5 + Z.of_nat i).
Proof.
  intros L w.
  apply (audio_chunks_are_numbered Demo.ext [[x01]; [x02; x03]] [Disconnect] L
           {| Asr.seq := 5; Asr.ws := Some {| inbox := []; closed := false |} |}
           {| inbox := []; closed := false |} w).
  - reflexivity.
  - reflexivity.
  - discriminate.
  - reflexivity.
  - constructor; [split; [discriminate | reflexivity]|].
    constructor; [split; [discriminate | reflexivity]|]. constructor.
Defined.

(** What a returning [_parse_response] did to the world: it logged at
    most a parse error. *)
Lemma parse_response_returned ext msg r w w' :
  Asr._parse_response ext msg w = (Ok r, w') ->
  exists logs, w' = extend w logs /\ Forall (fun e => is_log e = true) logs.
Proof.
  unfold Asr._parse_response, bind, lift.
  destruct (Asr.strip_frame msg) as [s|e]; [|discriminate].
  destruct (Asr.decode_body ext s) as [r0 caught].
  destruct caught; cbn [emit ret]; intros [= <- <-].
  - eexists. split; [reflexivity | repeat constructor].
  - exists []. now rewrite extend_nil.
Qed.

(** What a returning [connect] of a fresh client did: one connection,
    one frame, and the counter is at 2. *)
Lemma connect_returned ext uid c w w' :
  Asr.connect ext Asr.new_client uid w = (Ok c, w') ->
  exists headers frame logs chn,
    c = {| Asr.seq := 2; Asr.ws := Some chn |} /\
    trace w' = trace w ++ [AsrConnect headers; AsrSend frame] ++ logs /\
    Forall (fun e => is_log e = true) logs.
Proof.
  cbv [Asr.connect bind Asr._build_auth_headers fresh_uuid ret asr_ws_connect lift].
  cbn [asr_remote tts_remote llm_remote uuids trace].
  destruct (asr_remote w) as [|msgs rest]; [discriminate|].
  destruct (Asr._build_full_request ext Asr.new_client uid) as [frame|e]; [|discriminate].
  cbv [emit extend]. cbn [asr_remote tts_remote llm_remote uuids trace Asr.seq Asr.new_client].
  destruct (ws_receive {| inbox := msgs; closed := false |}) as [m chn].
  destruct m;
    try (intros [= <- <-]; eexists _, frame, [], chn; cbn [trace];
         split; [reflexivity|]; split; [|constructor];
         rewrite <- !app_assoc; reflexivity).
  destruct (Asr._parse_response ext data _) as [[r|e] w1] eqn:Hparse; [|discriminate].
  intros [= <- <-].
  destruct (parse_response_returned ext data r _ _ Hparse) as (logs & -> & Hlogs).
  eexists _, frame, logs, chn. cbn [extend trace].
  split; [reflexivity|]. split; [|exact Hlogs].
  rewrite <- !app_assoc. reflexivity.
Qed.

(** X11.  Whenever the end-of-turn branch completes, with or without a
    reply, the orchestrator is left with a fresh recognition session
    whose counter is 2 and with an empty transcript, and the last
    things it did were to send the completion marker [over] and to
    open that session with its first frame. *)
Theorem completed_turn_resets_recognition (ext : Externals) (L L' : Locals) (w w' : World) :
  on_end ext L w = (Ok L', w') ->
  exists chn before headers frame logs,
    asr_client L' = Some {| Asr.seq := 2; Asr.ws := Some chn |} /\
    asr_result L' = JStr [] /\
    trace w' = before ++ [SendText (lit "over"); AsrConnect headers; AsrSend frame] ++ logs /\
    Forall (fun e => is_log e = true) logs.
Proof.
  unfold on_end, bind. destruct (asr_client L) as [asr|]; [|discriminate].
  destruct (Asr.send_end ext asr w) as [[u|e] w1]; [|discriminate].
  destruct (Asr.receive_results ext asr _ (asr_result L) w1) as [[[result asr']|e] w2];
    [|discriminate].
  cbn [send_json send_text emit].
  destruct (negb (truthy result)).
  - destruct (fresh_asr ext _) as [[asr2|e] w3] eqn:Hfresh; [|discriminate].
    intros [= <- <-].
    destruct (connect_returned ext _ _ _ _ Hfresh)
      as (headers & frame & logs & chn & -> & Htrace & Hlogs).
    exists chn, (trace (extend w2 [SendJson (lit "asr") result])), headers, frame, logs.
    cbn [asr_client asr_result]. repeat split; auto.
    rewrite Htrace. cbn [extend trace]. now rewrite <- !app_assoc.
  - destruct (generate_and_synthesize ext _ _) as [[L1|e] w3]; [|discriminate].
    destruct (fresh_asr ext _) as [[asr2|e] w4] eqn:Hfresh; [|discriminate].
    intros [= <- <-].
    destruct (connect_returned ext _ _ _ _ Hfresh)
      as (headers & frame & logs & chn & -> & Htrace & Hlogs).
    exists chn, (trace w3), headers, frame, logs.
    cbn [asr_client asr_result]. repeat split; auto.
    rewrite Htrace. cbn [extend trace]. now rewrite <- !app_assoc.
Qed.

Lemma completed_turn_resets_recognition_witness :
  exists L' w' chn before headers frame logs,
    on_end Demo.ext (Demo.in_turn (JStr []) [BINARY (Demo.asr_response 3 (-5) [])])
      (Demo.answering []) = (Ok L', w') /\
    asr_client L' = Some {| Asr.seq := 2; Asr.ws := Some chn |} /\
    asr_result L' = JStr [] /\
    trace w' = before ++ [SendText (lit "over"); AsrConnect headers; AsrSend frame] ++ logs /\
    Forall (fun e => is_log e = true) logs.
Proof.
  destruct (on_end Demo.ext (Demo.in_turn (JStr []) [BINARY (Demo.asr_response 3 (-5) [])])
              (Demo.answering [])) as [[L'|e] w'] eqn:Hrun;
    [|vm_compute in Hrun; discriminate].
  destruct (completed_turn_resets_recognition Demo.ext _ L' _ w' Hrun)
    as (chn & before & headers & frame & logs & H).
  exists L', w', chn, before, headers, frame, logs. split; [reflexivity | exact H].
Defined.

End LoopFacts.

(* ================================================================== *)
(** ** Recognition frames on the wire *)
(* ================================================================== *)

Module WireFacts.
Import Asr PyFacts EffectFacts Notions AsrFacts.

Lemma slice_from_app {A} (a b : list A) n : n = len a -> slice_from (a ++ b) n = b.
Proof.
  intros ->. rewrite slice_from_nonneg by apply len_nonneg.
  unfold len. rewrite Nat2Z.id, skipn_app, skipn_all, Nat.sub_diag. reflexivity.
Qed.

Lemma slice_to_app {A} (a b : list A) n : n = len a -> slice_to (a ++ b) n = a.
Proof.
  intros ->. rewrite slice_to_nonneg by apply len_nonneg.
  unfold len. rewrite Nat2Z.id, firstn_app, firstn_all, Nat.sub_diag.
  cbn [firstn]. apply app_nil_r.
Qed.

Lemma flag_bit (x k : Z) : Z.land (Z.land x 15) k = Z.land x (Z.land 15 k).
Proof. now rewrite Z.land_assoc. Qed.

(** The fields a response carries before its payload, by the flags of
    its second byte: a 4-byte sequence number when bit 0 is set, 4 more
    bytes when bit 2 is set. *)
Lemma skip_optional_fields (m1 : byte) (seqno event rest : bytes) :
  len seqno = (if Z.land (byte_val m1) 1 =? 0 then 0 else 4) ->
  len event = (if Z.land (byte_val m1) 4 =? 0 then 0 else 4) ->
  (let flags := Z.land (byte_val m1) 15 in
   let payload := seqno ++ event ++ rest in
   let payload := if Z.land flags 1 =? 0 then payload else slice_from payload 4 in
   if Z.land flags 4 =? 0 then payload else slice_from payload 4) = rest.
Proof.
  intros Hs He. cbv zeta. rewrite !flag_bit.
  change (Z.land 15 1) with 1. change (Z.land 15 4) with 4.
  destruct (Z.land (byte_val m1) 1 =? 0).
  - apply len_nil_iff in Hs. subst seqno. cbn [app].
    destruct (Z.land (byte_val m1) 4 =? 0).
    + apply len_nil_iff in He. now subst event.
    + now apply slice_from_app.
  - rewrite slice_from_app by auto.
    destruct (Z.land (byte_val m1) 4 =? 0).
    + apply len_nil_iff in He. now subst event.
    + now apply slice_from_app.
Qed.

(** The first half of the parser on a frame laid out as a header of
    [4 * header_size] bytes, the optional fields, and the rest. *)
Lemma strip_layout (m0 m1 m2 : byte) (pad seqno event rest : bytes) :
  len pad = 4 * Z.land (byte_val m0) 15 - 3 ->
  len seqno = (if Z.land (byte_val m1) 1 =? 0 then 0 else 4) ->
  len event = (if Z.land (byte_val m1) 4 =? 0 then 0 else 4) ->
  strip_frame ([m0; m1; m2] ++ pad ++ seqno ++ event ++ rest)
  = let message_type := Z.shiftr (byte_val m1) 4 in
    let flags := Z.land (byte_val m1) 15 in
    let last := negb (Z.land flags 2 =? 0) in
    if message_type =? SERVER_FULL_RESPONSE then
      Ok {| s_message_type := message_type; s_flags := flags;
            s_serialization := Z.shiftr (byte_val m2) 4;
            s_compression := Z.land (byte_val m2) 15;
            s_result := {| code := JInt 0; is_last := last; text := JStr [] |};
            s_payload := slice_from rest 4 |}
    else if message_type =? SERVER_ERROR_RESPONSE then
      match unpack_i (slice_to rest 4) with
      | Ok c =>
          Ok {| s_message_type := message_type; s_flags := flags;
                s_serialization := Z.shiftr (byte_val m2) 4;
                s_compression := Z.land (byte_val m2) 15;
                s_result := {| code := JInt c; is_last := last; text := JStr [] |};
                s_payload := slice_from rest 8 |}
      | Raise e => Raise e
      end
    else
      Ok {| s_message_type := message_type; s_flags := flags;
            s_serialization := Z.shiftr (byte_val m2) 4;
            s_compression := Z.land (byte_val m2) 15;
            s_result := {| code := JInt 0; is_last := last; text := JStr [] |};
            s_payload := rest |}.
Proof.
  intros Hpad Hs He. unfold strip_frame.
  cbn [app]. rewrite index_0, index_1, index_2. cbv zeta.
  change (m0 :: m1 :: m2 :: pad ++ seqno ++ event ++ rest)
    with (([m0; m1; m2] ++ pad) ++ seqno ++ event ++ rest).
  rewrite (slice_from_app ([m0; m1; m2] ++ pad)).
  2:{ rewrite len_app, Hpad. change (len [m0; m1; m2]) with 3. lia. }
  pose proof (skip_optional_fields m1 seqno event rest Hs He) as Hskip.
  cbv zeta in Hskip. rewrite Hskip. reflexivity.
Qed.






(** X14.  An error response without a message does not end the
    stream of results: its code (other than 0 and 20000000) is logged,
    nothing is handed to the consumer, and unless bit 1 of its flags is
    set the loop goes on to the next message. *)
Theorem bare_error_response_is_only_logged (ext : Externals) (A : Type)
  (m0 m1 m2 : byte) (pad seqno event errcode size : bytes) (rest : list WSMsg)
  (was_closed : bool) (body : A -> json -> M A) (acc : A) (w : World) :
  len pad = 4 * Z.land (byte_val m0) 15 - 3 ->
  Z.shiftr (byte_val m1) 4 = SERVER_ERROR_RESPONSE ->
  len seqno = (if Z.land (byte_val m1) 1 =? 0 then 0 else 4) ->
  len event = (if Z.land (byte_val m1) 4 =? 0 then 0 else 4) ->
  len errcode = 4 -> len size = 4 ->
  Z.land (byte_val m1) 2 = 0 ->
  from_bytes_signed errcode <> 0 -> from_bytes_signed errcode <> 20000000 ->
  receive_loop ext (BINARY ([m0; m1; m2] ++ pad ++ seqno ++ event ++ errcode ++ size) :: rest)
    was_closed body acc w
  = receive_loop ext rest was_closed body acc
      (extend w [Log (AsrErrorCode (JInt (from_bytes_signed errcode)))]).
Proof.
  intros Hpad Htype Hs He Hcode Hsize Hlast Hc0 Hc1.
  cbn [receive_loop]. unfold _parse_response. unfold bind at 2. unfold lift.
  rewrite (strip_layout m0 m1 m2 pad seqno event (errcode ++ size) Hpad Hs He).
  cbv zeta. rewrite Htype. cbn [Z.eqb SERVER_FULL_RESPONSE SERVER_ERROR_RESPONSE Pos.eqb].
  rewrite (slice_to_app errcode) by auto.
  unfold unpack_i. rewrite Hcode. cbn [Z.eqb Pos.eqb].
  replace (slice_from (errcode ++ size) 8) with (@nil byte).
  2:{ rewrite <- (app_nil_r (errcode ++ size)) at 1.
      symmetry. apply slice_from_app. rewrite len_app. lia. }
  rewrite flag_bit. change (Z.land 15 2) with 2. rewrite Hlast. cbn [Z.eqb negb].
  unfold decode_body. cbn [s_payload s_result].
  unfold bind, ret. cbn [code text is_last truthy code_is_error].
  apply Z.eqb_neq in Hc0, Hc1. rewrite Hc0, Hc1. cbn [negb andb].
  unfold emit. reflexivity.
Qed.

Lemma bare_error_response_is_only_logged_witness :
  receive_loop Demo.ext
    (BINARY ([x11; xf0; x11] ++ [x00] ++ [] ++ [] ++ be_bytes 4 45000001 ++ be_bytes 4 0)
       :: [BINARY (Demo.asr_response 3 (-2) (lit "hi"))])
    false (fun (_ : json) text => ret text) (JStr [])
    Demo.quiet
  = receive_loop Demo.ext [BINARY (Demo.asr_response 3 (-2) (lit "hi"))]
      false (fun (_ : json) text => ret text) (JStr [])
      (extend Demo.quiet
         [Log (AsrErrorCode (JInt (from_bytes_signed (be_bytes 4 45000001))))]).
Proof.
  apply (bare_error_response_is_only_logged Demo.ext json x11 xf0 x11 [x00] [] []
           (be_bytes 4 45000001) (be_bytes 4 0));
    try reflexivity; discriminate.
Defined.

(** X15.  An error response cut short, with fewer than 4 bytes where
    its code should be, is not parsed: [_parse_response] raises before
    its own [try], nothing is logged, and the exception leaves
    [receive_results]. *)
Theorem truncated_error_response_raises (ext : Externals) (A : Type)
  (m0 m1 m2 : byte) (pad seqno event stub : bytes) (rest : list WSMsg)
  (self : AsrClient) (ch : Channel) (body : A -> json -> M A) (acc : A) (w : World) :
  len pad = 4 * Z.land (byte_val m0) 15 - 3 ->
  Z.shiftr (byte_val m1) 4 = SERVER_ERROR_RESPONSE ->
  len seqno = (if Z.land (byte_val m1) 1 =? 0 then 0 else 4) ->
  len event = (if Z.land (byte_val m1) 4 =? 0 then 0 else 4) ->
  len stub < 4 ->
  ws self = Some ch ->
  inbox ch = BINARY ([m0; m1; m2] ++ pad ++ seqno ++ event ++ stub) :: rest ->
  receive_results ext self body acc w = (Raise StructError, w).
Proof.
  intros Hpad Htype Hs He Hstub Hws Hin.
  unfold receive_results. rewrite Hws, Hin. cbn [receive_loop].
  unfold _parse_response. unfold bind, lift.
  rewrite (strip_layout m0 m1 m2 pad seqno event stub Hpad Hs He).
  cbv zeta. rewrite Htype. cbn [Z.eqb SERVER_FULL_RESPONSE SERVER_ERROR_RESPONSE Pos.eqb].
  unfold unpack_i.
  replace (len (slice_to stub 4) =? 4) with false; [reflexivity|].
  symmetry. apply Z.eqb_neq.
  rewrite slice_to_nonneg by lia. unfold len in *. rewrite length_firstn. lia.
Qed.

Lemma truncated_error_response_raises_witness :
  receive_results Demo.ext
    {| seq := 5; ws := Some {| inbox := [BINARY ([x11; xf0; x11] ++ [x00] ++ [] ++ []
                                                  ++ [x02; xae; xa5]);
                                         BINARY (Demo.asr_response 3 (-2) (lit "hi"))];
                               closed := false |} |}
    (fun (_ : json) text => ret text) (JStr []) Demo.quiet
  = (Raise StructError, Demo.quiet).
Proof.
  apply (truncated_error_response_raises Demo.ext json x11 xf0 x11 [x00] [] []
           [x02; xae; xa5] [BINARY (Demo.asr_response 3 (-2) (lit "hi"))]
           _ {| inbox := [BINARY ([x11; xf0; x11] ++ [x00] ++ [] ++ [] ++ [x02; xae; xa5]);
                          BINARY (Demo.asr_response 3 (-2) (lit "hi"))];
                closed := false |});
    reflexivity.
Defined.


Lemma slice_mid {A} (a b c : list A) i j :
  i = len a -> j = len a + len b -> slice (a ++ b ++ c) i j = b.
Proof.
  intros -> ->. pose proof (len_nonneg a). pose proof (len_nonneg b).
  rewrite slice_nonneg by lia.
  replace (len a + len b - len a) with (len b) by lia.
  unfold len. rewrite !Nat2Z.id, skipn_app, skipn_all, Nat.sub_diag.
  cbn [skipn app]. rewrite firstn_app, firstn_all, Nat.sub_diag.
  cbn [firstn]. apply app_nil_r.
Qed.

(** X16.  Every audio request that is built is laid out in four
    parts: the 4-byte header (flags 1, or 3 on the last request), the
    signed sequence number (negated on the last request), the unsigned
    length of what follows, and the compressed audio, with nothing
    after it. *)
Theorem audio_request_layout (ext : Externals) (self : AsrClient) (audio : bytes)
  (last : bool) (frame : bytes) :
  _build_audio_request ext self audio last = Ok frame ->
  slice_to frame 4 = [x11; if last then x23 else x21; x11; x00] /\
  unpack_i (slice frame 4 8) = Ok (if last then - seq self else seq self) /\
  from_bytes_unsigned (slice frame 8 12) = len (slice_from frame 12) /\
  slice_from frame 12 = gzip_compress ext audio.
Proof.
  unfold _build_audio_request. cbv zeta.
  set (s := if last then - seq self else seq self).
  set (c := gzip_compress ext audio).
  set (h := [x11; if last then x23 else x21; x11; x00]).
  replace (to_bytes _) with (Ok h) by (destruct last; reflexivity).
  cbv iota beta.
  destruct (pack_i s) as [sb|e] eqn:Hs; [|discriminate].
  destruct (pack_I (len c)) as [lb|e] eqn:Hl; [|discriminate].
  intros Hframe. assert (frame = h ++ sb ++ lb ++ c) as -> by congruence. clear Hframe.
  assert (Hlen_s : len sb = 4).
  { unfold pack_i in Hs. destruct (_ && _); [|discriminate].
    assert (sb = be_bytes 4 s) as -> by congruence.
    unfold len. now rewrite length_be_bytes. }
  assert (Hlb : lb = be_bytes 4 (len c) /\ 0 <= len c < 2 ^ 32).
  { unfold pack_I in Hl. destruct (_ && _) eqn:E; [|discriminate].
    apply andb_true_iff in E as [E1 E2]. apply Z.leb_le in E1. apply Z.ltb_lt in E2.
    split; [congruence | lia]. }
  destruct Hlb as [-> Hrange].
  assert (Hlen_l : len (be_bytes 4 (len c)) = 4)
    by (unfold len at 1; now rewrite length_be_bytes).
  split; [now apply slice_to_app|].
  split.
  { rewrite (slice_mid h sb) by (change (len h) with 4; lia).
    now apply unpack_pack_i. }
  assert (Hrest : slice_from (h ++ sb ++ be_bytes 4 (len c) ++ c) 12 = c).
  { rewrite !app_assoc. apply slice_from_app.
    rewrite !len_app. change (len h) with 4. lia. }
  rewrite Hrest. split; [|reflexivity].
  rewrite (app_assoc h sb).
  rewrite (slice_mid (h ++ sb)) by (rewrite len_app; change (len h) with 4; lia).
  rewrite from_bytes_unsigned_be_bytes.
  change (256 ^ Z.of_nat 4) with (2 ^ 32). apply Z.mod_small. exact Hrange.
Qed.

Lemma audio_request_layout_witness :
  let frame := [x11; x23; x11; x00] ++ be_bytes 4 (-5) ++ be_bytes 4 4
               ++ Demo.compress [x0a; x0b] in
  slice_to frame 4 = [x11; x23; x11; x00] /\
  unpack_i (slice frame 4 8) = Ok (- 5) /\
  from_bytes_unsigned (slice frame 8 12) = len (slice_from frame 12) /\
  slice_from frame 12 = Demo.compress [x0a; x0b].
Proof.
  intros frame.
  apply (audio_request_layout Demo.ext {| seq := 5; ws := None |} [x0a; x0b] true frame).
  reflexivity.
Defined.

End WireFacts.

(* ================================================================== *)
(** ** The synthesis stream *)
(* ================================================================== *)

Module SynthesisFacts.
Import Main PyFacts EffectFacts Notions TtsFacts OrchestratorFacts WireFacts.













End SynthesisFacts.

(* ================================================================== *)
(** ** The conversation kept by the generation client *)
(* ================================================================== *)

Module ConversationFacts.
Import Main PyFacts EffectFacts Notions LlmFacts OrchestratorFacts TurnFacts.

(** What a returning [generate_stream] did to the conversation. *)
Lemma generate_stream_history ext {A} self user_text (body : A -> str -> M A) acc w r llm w' :
  Llm.generate_stream ext self user_text body acc w = (Ok (r, llm), w') ->
  exists tail,
    Llm.messages llm
    = Llm.messages (if truthy user_text then Llm.add_user_message self user_text else self)
      ++ tail /\
    (tail = [] \/ exists b reply, tail = [(lit "assistant", JStr (b :: reply))]).
Proof.
  unfold Llm.generate_stream. rewrite bind_emit. unfold bind.
  destruct (llm_post _ _ _) as [[lines|e] w1]; [|discriminate].
  destruct (Llm.pump ext lines [] body acc w1) as [[[acc' full]|e] w2]; [|discriminate].
  cbn [emit ret]. intros [= <- <- <-].
  destruct full as [|b reply].
  - exists []. rewrite app_nil_r. split; [reflexivity | now left].
  - eexists. split; [reflexivity|]. right. now exists b, reply.
Qed.

Lemma on_bytes_keeps_conversation ext L audio w L' w' :
  on_bytes ext L audio w = (Ok L', w') -> llm_client L' = llm_client L.
Proof.
  unfold on_bytes, bind. destruct (asr_client L) as [asr|] eqn:Hasr.
  - cbn [ret]. rewrite Hasr.
    destruct (Asr.send_audio ext asr audio w) as [[asr'|e] w1]; intros H;
      [injection H as <- <-; reflexivity | discriminate].
  - destruct (fresh_asr ext w) as [[asr|e] w1]; [|discriminate].
    destruct (fresh_tts ext w1) as [[tts|e] w2]; [|discriminate].
    cbn [ret asr_client].
    destruct (Asr.send_audio ext asr audio w2) as [[asr'|e] w3]; intros H;
      [injection H as <- <-; reflexivity | discriminate].
Qed.

Lemma generate_and_synthesize_history ext L w L' w' :
  generate_and_synthesize ext L w = (Ok L', w') ->
  exists tail,
    Llm.messages (llm_client L')
    = Llm.messages (if truthy (asr_result L)
                    then Llm.add_user_message (llm_client L) (asr_result L)
                    else llm_client L) ++ tail /\
    (tail = [] \/ exists b reply, tail = [(lit "assistant", JStr (b :: reply))]).
Proof.
  unfold generate_and_synthesize. unfold bind at 1.
  destruct (Llm.generate_stream ext _ _ _ _ w) as [[[[buf tts] llm]|e] w1] eqn:Hgen;
    [|discriminate].
  apply generate_stream_history in Hgen.
  unfold bind.
  destruct (match buf with [] => ret tts | _ :: _ => synthesize_and_send ext tts buf end w1)
    as [[tts'|e] w2]; [|discriminate].
  cbn [ret]. intros [= <- <-]. exact Hgen.
Qed.

(** What an iteration of the loop that completes did to the
    conversation. *)
Lemma step_history (ext : Externals) (m : ClientMsg) (L L' : Locals)
  (f : Flow) (w w' : World) :
  step ext m L w = (Ok (f, L'), w') ->
  exists tail,
    Llm.messages (llm_client L') = Llm.messages (llm_client L) ++ tail /\
    (tail = [] \/
     (exists t, truthy t = true /\ tail = [(lit "user", t)]) \/
     (exists t b reply, truthy t = true /\
                        tail = [(lit "user", t); (lit "assistant", JStr (b :: reply))])).
Proof.
  intros Hstep.
  assert (Hsame : llm_client L' = llm_client L ->
                  exists tail,
                    Llm.messages (llm_client L') = Llm.messages (llm_client L) ++ tail /\
                    (tail = [] \/
                     (exists t, truthy t = true /\ tail = [(lit "user", t)]) \/
                     (exists t b reply, truthy t = true /\
                        tail = [(lit "user", t); (lit "assistant", JStr (b :: reply))]))).
  { intros E. exists []. rewrite E, app_nil_r. split; [reflexivity | now left]. }
  destruct m as [audio|data|]; cbn [step] in Hstep.
  - (* audio *)
    unfold bind in Hstep.
    destruct (on_bytes ext L audio w) as [[L1|e] w1] eqn:Hb; [|discriminate].
    cbn [ret] in Hstep. injection Hstep as _ <- _.
    apply Hsame. now apply on_bytes_keeps_conversation in Hb.
  - (* a text message *)
    destruct (parse_command ext data) as [| | | | |cmd|]; try discriminate.
    destruct (eq_str _ _).
    2:{ cbn [ret] in Hstep. injection Hstep as _ <- _. now apply Hsame. }
    unfold bind in Hstep.
    destruct (on_end ext L w) as [[L1|e] w1] eqn:He; [|discriminate].
    cbn [ret] in Hstep. injection Hstep as _ <- _.
    clear Hsame. unfold on_end, bind in He.
    destruct (asr_client L) as [asr|]; [|discriminate].
    destruct (Asr.send_end ext asr w) as [[u|e] w2]; [|discriminate].
    destruct (Asr.receive_results ext asr _ (asr_result L) w2) as [[[result asr']|e] w3];
      [|discriminate].
    cbn [send_json send_text emit] in He.
    destruct (truthy result) eqn:Htruthy; cbn [negb] in He.
    + destruct (generate_and_synthesize ext _ _) as [[L2|e] w4] eqn:Hgen; [|discriminate].
      destruct (fresh_asr ext _) as [[asr2|e] w5]; [|discriminate].
      cbn [ret] in He. injection He as <- _. cbn [llm_client].
      apply generate_and_synthesize_history in Hgen.
      cbn [asr_result llm_client] in Hgen. rewrite Htruthy in Hgen.
      destruct Hgen as (tail & Hmsgs & [-> | (b & reply & ->)]).
      * exists [(lit "user", result)]. rewrite Hmsgs, app_nil_r.
        split; [reflexivity|]. right. left. now exists result.
      * exists [(lit "user", result); (lit "assistant", JStr (b :: reply))].
        rewrite Hmsgs. cbn [Llm.add_user_message Llm.messages]. rewrite <- app_assoc.
        split; [reflexivity|]. right. right. now exists result, b, reply.
    + destruct (fresh_asr ext _) as [[asr2|e] w4]; [|discriminate].
      cbn [ret] in He. injection He as <- _. cbn [llm_client].
      exists []. rewrite app_nil_r. split; [reflexivity | now left].
  - cbn [ret] in Hstep. injection Hstep as _ <- _. now apply Hsame.
Qed.



(** X20.  One turn with a transcript, when synthesis is served: the
    request to the generation service carries the conversation so far
    followed by the transcript as a user message, and after the turn
    the conversation holds, after that user message, the whole reply as
    one assistant message (none when the reply is empty): the reply is
    recorded whole, however it was cut for synthesis. *)
Theorem reply_joins_the_conversation (ext : Externals) (L : Locals)
  (c : Tts.TTSClient) (ch : Channel) (lines : list bytes) (rest : list (list bytes))
  (ds : list str) (w : World) :
  tts_client L = Some c -> Tts.ws c = Some ch ->
  tts_ready ext (S (List.length ds)) ch w ->
  llm_remote w = lines :: rest ->
  deltas ext lines = Ok ds ->
  (forall text, len text <= len (List.concat ds) -> request_fits ext text) ->
  truthy (asr_result L) = true ->
  exists L' w' after,
    generate_and_synthesize ext L w = (Ok L', w') /\
    trace w' = trace w
               ++ Generate (asr_result L)
               :: LlmPost (DOUBAO_MODEL ext)
                    (Llm.messages (llm_client L) ++ [(lit "user", asr_result L)])
               :: after /\
    Llm.messages (llm_client L')
    = Llm.messages (llm_client L)
      ++ (lit "user", asr_result L)
      :: match List.concat ds with
         | [] => []
         | _ :: _ => [(lit "assistant", JStr (List.concat ds))]
         end.
Proof.
  intros Htts Hws Hready Hllm Hds Hfits Htruthy.
  unfold generate_and_synthesize. rewrite Htts.
  set (self := Llm.add_user_message (llm_client L) (asr_result L)).
  set (w0 := {| asr_remote := asr_remote w; tts_remote := tts_remote w;
                llm_remote := rest; uuids := uuids w;
                trace := trace w ++ [Generate (asr_result L);
                                     LlmPost (DOUBAO_MODEL ext) (Llm.messages self)] |}).
  destruct (feed_conserves ext ds [] c ch w0 [] 1 Hws)
    as (buf' & c1 & ch1 & w1 & evs1 & mid & Hfeed & Hws1 & Hready1 & Htrace1
        & _ & Hcat & _ & _ & _ & _).
  { apply (tts_ready_same_remote ext _ ch w); [reflexivity|].
    now rewrite Nat.add_1_r. }
  { intros text Ht. apply Hfits. exact Ht. }
  cbn [app] in Hfeed, Hcat.
  set (llm := match List.concat ds with
              | [] => self
              | _ :: _ => Llm.add_assistant_message self (List.concat ds)
              end).
  assert (Hgen : Llm.generate_stream ext (llm_client L) (asr_result L) (on_llm_chunk ext)
                   ([], Some c) w
                 = (Ok ((buf', Some c1), llm), extend w1 [GenerateEnd])).
  { rewrite (generate_stream_feeds ext _ _ _ _ _ lines rest ds Hllm Hds).
    rewrite Htruthy. fold self. fold w0.
    rewrite (bind_ok _ _ _ _ _ Hfeed). cbv beta. rewrite bind_emit.
    cbn [ret fst snd]. reflexivity. }
  rewrite (bind_ok _ _ _ _ _ Hgen). cbv beta iota.
  assert (Hmsgs : Llm.messages llm
                  = Llm.messages (llm_client L)
                    ++ (lit "user", asr_result L)
                    :: match List.concat ds with
                       | [] => []
                       | _ :: _ => [(lit "assistant", JStr (List.concat ds))]
                       end).
  { subst llm self. destruct (List.concat ds); cbn [Llm.add_user_message
      Llm.add_assistant_message Llm.messages]; [reflexivity|].
    now rewrite <- app_assoc. }
  destruct buf' as [|x tail] eqn:Hbuf.
  - rewrite bind_ret. cbn [ret].
    eexists _, _, (evs1 ++ [GenerateEnd]).
    split; [reflexivity|]. cbn [llm_client].
    split; [|exact Hmsgs].
    cbn [extend trace]. rewrite Htrace1. subst w0. cbn [trace].
    rewrite <- !app_assoc. reflexivity.
  - rewrite <- Hbuf in *.
    destruct (synthesize_and_send_ready ext 0 c1 ch1 buf' (extend w1 [GenerateEnd]) Hws1)
      as (c2 & ch2 & w2 & evs2 & Hsyn & _ & _ & Htrace2 & _).
    { apply (tts_ready_same_remote ext 1 ch1 w1); [reflexivity | exact Hready1]. }
    { apply Hfits. rewrite <- Hcat, len_app. pose proof (len_nonneg (List.concat mid)).
      unfold str, char in *. lia. }
    rewrite (bind_ok _ _ _ _ _ Hsyn). cbn [ret].
    eexists _, w2, (evs1 ++ [GenerateEnd] ++ evs2).
    split; [reflexivity|]. cbn [llm_client].
    split; [|exact Hmsgs].
    rewrite Htrace2. cbn [extend trace]. rewrite Htrace1. subst w0. cbn [trace].
    rewrite <- !app_assoc. reflexivity.
Qed.

Lemma reply_joins_the_conversation_witness :
  let L := Demo.in_turn (JStr (lit "hello")) [] in
  let w := Demo.answering [Demo.delta_line Demo.reply_130] in
  exists L' w' after,
    generate_and_synthesize Demo.ext L w = (Ok L', w') /\
    trace w' = trace w
               ++ Generate (asr_result L)
               :: LlmPost (DOUBAO_MODEL Demo.ext)
                    (Llm.messages (llm_client L) ++ [(lit "user", asr_result L)])
               :: after /\
    Llm.messages (llm_client L')
    = Llm.messages (llm_client L)
      ++ (lit "user", asr_result L)
      :: match List.concat [Demo.reply_130] with
         | [] => []
         | _ :: _ => [(lit "assistant", JStr (List.concat [Demo.reply_130]))]
         end.
Proof.
  intros L w.
  apply (reply_joins_the_conversation Demo.ext L
           {| Tts.voice_type := lit "voice"; Tts.ws := Some Demo.tts_session |}
           Demo.tts_session [Demo.delta_line Demo.reply_130] [] [Demo.reply_130] w).
  - reflexivity.
  - reflexivity.
  - repeat split; apply le_n.
  - reflexivity.
  - vm_compute. reflexivity.
  - intros text _. apply demo_requests_fit.
  - reflexivity.
Defined.


Lemma pump_stops_at_done ext {A} (body : A -> str -> M A) line post :
  Llm.parse_line ext line = Ok Llm.Done ->
  forall pre full acc w,
    Llm.pump ext (pre ++ line :: post) full body acc w = Llm.pump ext pre full body acc w.
Proof.
  intros Hdone. induction pre as [|l pre IH]; intros full acc w.
  - cbn [app Llm.pump]. unfold bind, lift. now rewrite Hdone.
  - cbn [app Llm.pump]. unfold bind, lift.
    destruct (Llm.parse_line ext l) as [[| |delta]|e]; try reflexivity.
    + apply IH.
    + destruct (body acc delta w) as [[acc'|e] w']; [apply IH | reflexivity].
Qed.

(** X29.  The line [data: [DONE]] ends the stream: what the service
    sends after it is never read, not even decoded, so the deltas
    yielded, the events and the conversation are those of the lines
    before it. *)
Theorem done_line_ends_the_stream (ext : Externals) (A : Type) (self : Llm.LLMClient)
  (user_text : json) (body : A -> str -> M A) (acc : A) (line : bytes) (s : str)
  (pre post : list bytes) (rest : list (list bytes)) (w : World) :
  utf8_decode ext line = Some s ->
  strip s = lit "data: [DONE]" ->
  Llm.generate_stream ext self user_text body acc
    {| asr_remote := asr_remote w; tts_remote := tts_remote w;
       llm_remote := (pre ++ line :: post) :: rest; uuids := uuids w; trace := trace w |}
  = Llm.generate_stream ext self user_text body acc
      {| asr_remote := asr_remote w; tts_remote := tts_remote w;
         llm_remote := pre :: rest; uuids := uuids w; trace := trace w |}.
Proof.
  intros Hdecode Hstrip.
  assert (Hdone : Llm.parse_line ext line = Ok Llm.Done).
  { unfold Llm.parse_line. rewrite Hdecode, Hstrip. reflexivity. }
  unfold Llm.generate_stream. rewrite !bind_emit.
  unfold bind at 1 3. unfold llm_post.
  cbn [extend llm_remote asr_remote tts_remote uuids trace].
  unfold bind at 1 3.
  now rewrite (pump_stops_at_done ext body line post Hdone).
Qed.

Lemma done_line_ends_the_stream_witness :
  let line := Demo.encode (lit " data: [DONE] ") in
  let pre := [Demo.delta_line (lit "Hi.")] in
  let post := [[xff]; Demo.delta_line (lit "never read")] in
  Llm.generate_stream Demo.ext Llm.new_client (JStr (lit "hello"))
    (fun (n : Z) (_ : str) => ret (n + 1)) 0
    {| asr_remote := asr_remote Demo.quiet; tts_remote := tts_remote Demo.quiet;
       llm_remote := (pre ++ line :: post) :: []; uuids := uuids Demo.quiet;
       trace := trace Demo.quiet |}
  = Llm.generate_stream Demo.ext Llm.new_client (JStr (lit "hello"))
      (fun (n : Z) (_ : str) => ret (n + 1)) 0
      {| asr_remote := asr_remote Demo.quiet; tts_remote := tts_remote Demo.quiet;
         llm_remote := pre :: []; uuids := uuids Demo.quiet; trace := trace Demo.quiet |}.
Proof.
  intros line pre post.
  apply (done_line_ends_the_stream Demo.ext Z Llm.new_client (JStr (lit "hello"))
           (fun (n : Z) (_ : str) => ret (n + 1)) 0 line (lit " data: [DONE] ")
           pre post [] Demo.quiet).
  - reflexivity.
  - reflexivity.
Defined.

End ConversationFacts.

(* ================================================================== *)
(** ** What a connection does to the outside *)
(* ================================================================== *)

Module DisciplineFacts.
Import Main PyFacts EffectFacts Notions ConversationFacts.

Section Discipline.
Variable ext : Externals.
Variable Q : Event -> Prop.
Variable P : list (str * json) -> Prop.
Hypothesis Q_log : forall m, Q (Log m).
Hypothesis Q_asr_connect : forall h, Q (AsrConnect h).
Hypothesis Q_asr_send : forall f, Q (AsrSend f).
Hypothesis Q_tts_connect : forall h, Q (TtsConnect h).
Hypothesis Q_tts_send : forall f, Q (TtsSend f).
Hypothesis Q_synthesize : forall t, Q (Synthesize t).
Hypothesis Q_generate : forall t, Q (Generate t).
Hypothesis Q_generate_end : Q GenerateEnd.
Hypothesis Q_asr : forall d, Q (SendJson (lit "asr") d).
Hypothesis Q_llm : forall d, Q (SendJson (lit "llm") d).
Hypothesis Q_tts : forall d, Q (SendJson (lit "tts") d).
Hypothesis Q_over : Q (SendText (lit "over")).
Hypothesis Q_post : forall ms, P ms -> Q (LlmPost (DOUBAO_MODEL ext) ms).
Hypothesis P_app : forall ms t, P ms -> P (ms ++ t).

Lemma emits_ret {A} (a : A) : emits Q (ret a).
Proof. intros w. exists []. cbn. now rewrite app_nil_r. Qed.

Lemma emits_raise {A} e : emits Q (@raise A e).
Proof. intros w. exists []. cbn. now rewrite app_nil_r. Qed.

Lemma emits_lift {A} (r : Exc A) : emits Q (lift r).
Proof. intros w. exists []. cbn. now rewrite app_nil_r. Qed.

Lemma emits_lift_opt {A} e (o : option A) : emits Q (lift_opt e o).
Proof. destruct o; [apply emits_ret | apply emits_raise]. Qed.

Lemma emits_emit e : Q e -> emits Q (emit e).
Proof. intros H w. exists [e]. cbn. split; [reflexivity | now constructor]. Qed.

Lemma emits_bind {A B} (m : M A) (k : A -> M B) :
  emits Q m -> (forall a, emits Q (k a)) -> emits Q (bind m k).
Proof.
  intros Hm Hk w. destruct (Hm w) as (e1 & H1 & F1). unfold bind.
  destruct (m w) as [[a|e] w1]; cbn [snd] in *.
  - destruct (Hk a w1) as (e2 & H2 & F2). exists (e1 ++ e2).
    rewrite H2, H1, app_assoc. split; [reflexivity | now apply Forall_app].
  - now exists e1.
Qed.

Lemma emits_fresh_uuid : emits Q (fresh_uuid ext).
Proof. intros w. exists []. cbn. now rewrite app_nil_r. Qed.

Lemma emits_asr_ws_connect h : emits Q (asr_ws_connect h).
Proof.
  intros w. unfold asr_ws_connect. destruct (asr_remote w); cbn.
  - exists []. now rewrite app_nil_r.
  - exists [AsrConnect h]. split; [reflexivity | now constructor].
Qed.

Lemma emits_tts_ws_connect h : emits Q (tts_ws_connect h).
Proof.
  intros w. unfold tts_ws_connect. destruct (tts_remote w); cbn.
  - exists []. now rewrite app_nil_r.
  - exists [TtsConnect h]. split; [reflexivity | now constructor].
Qed.

Lemma emits_llm_post ms : P ms -> emits Q (llm_post (DOUBAO_MODEL ext) ms).
Proof.
  intros HP w. unfold llm_post. destruct (llm_remote w); cbn.
  - exists []. now rewrite app_nil_r.
  - exists [LlmPost (DOUBAO_MODEL ext) ms]. split; [reflexivity|].
    constructor; [now apply Q_post | constructor].
Qed.

Create HintDb discipline.

#[local] Hint Resolve emits_ret emits_raise emits_lift emits_lift_opt emits_emit
  emits_fresh_uuid emits_asr_ws_connect emits_tts_ws_connect : discipline.

Ltac discipline :=
  repeat first
    [ solve [auto with discipline]
    | apply emits_bind; [|intros ?]
    | match goal with
      | |- emits _ (match ?x with _ => _ end) => destruct x
      end ].

(** *** The recognition client *)

Lemma asr_parse_emits msg : emits Q (Asr._parse_response ext msg).
Proof. unfold Asr._parse_response. discipline. Qed.
#[local] Hint Resolve asr_parse_emits : discipline.

Lemma asr_connect_emits self uid : emits Q (Asr.connect ext self uid).
Proof. unfold Asr.connect, Asr._build_auth_headers. discipline. Qed.

Lemma send_audio_emits self audio : emits Q (Asr.send_audio ext self audio).
Proof. unfold Asr.send_audio. discipline. Qed.

Lemma send_end_emits self : emits Q (Asr.send_end ext self).
Proof. unfold Asr.send_end. discipline. Qed.

Lemma receive_loop_emits {A} (body : A -> json -> M A) msgs :
  (forall acc t, emits Q (body acc t)) ->
  forall was_closed acc, emits Q (Asr.receive_loop ext msgs was_closed body acc).
Proof.
  intros Hbody. induction msgs as [|m rest IH]; intros was_closed acc;
    cbn [Asr.receive_loop]; discipline.
Qed.

Lemma receive_results_emits {A} self (body : A -> json -> M A) acc :
  (forall acc t, emits Q (body acc t)) ->
  emits Q (Asr.receive_results ext self body acc).
Proof.
  intros Hbody. unfold Asr.receive_results.
  pose proof (receive_loop_emits body) as Hloop. discipline.
Qed.
#[local] Hint Resolve asr_connect_emits send_audio_emits send_end_emits : discipline.

(** *** The synthesis client *)

Lemma tts_parse_emits res : emits Q (Tts._parse_response ext res).
Proof. unfold Tts._parse_response. discipline. Qed.
#[local] Hint Resolve tts_parse_emits : discipline.

Lemma tts_connect_emits self : emits Q (Tts.connect ext self).
Proof. unfold Tts.connect. discipline. Qed.

Lemma synthesize_loop_emits {A} (body : A -> bytes -> M A) msgs :
  (forall acc t, emits Q (body acc t)) ->
  forall was_closed acc, emits Q (Tts.synthesize_loop ext msgs was_closed body acc).
Proof.
  intros Hbody. induction msgs as [|m rest IH]; intros was_closed acc;
    cbn [Tts.synthesize_loop]; discipline.
Qed.

Lemma synthesize_emits {A} self text (body : A -> bytes -> M A) acc :
  (forall acc t, emits Q (body acc t)) ->
  emits Q (Tts.synthesize ext self text body acc).
Proof.
  intros Hbody. unfold Tts.synthesize, Tts._build_request.
  pose proof (synthesize_loop_emits body) as Hloop. discipline.
Qed.

(** *** The orchestrator *)

Lemma relay_chunk_emits n a : emits Q (relay_chunk ext n a).
Proof. unfold relay_chunk, send_json. discipline. Qed.

Lemma synthesize_and_send_emits tts text : emits Q (synthesize_and_send ext tts text).
Proof.
  unfold synthesize_and_send, fresh_tts.
  pose proof tts_connect_emits. pose proof relay_chunk_emits.
  pose proof (fun self text acc =>
                synthesize_emits self text (relay_chunk ext) acc relay_chunk_emits).
  discipline.
Qed.
#[local] Hint Resolve synthesize_and_send_emits : discipline.

Lemma on_llm_chunk_emits vars chunk : emits Q (on_llm_chunk ext vars chunk).
Proof. unfold on_llm_chunk, send_json. discipline. Qed.

Lemma pump_emits {A} (body : A -> str -> M A) lines :
  (forall acc t, emits Q (body acc t)) ->
  forall full acc, emits Q (Llm.pump ext lines full body acc).
Proof.
  intros Hbody. induction lines as [|line rest IH]; intros full acc;
    cbn [Llm.pump]; discipline.
Qed.

Lemma generate_stream_emits {A} self user_text (body : A -> str -> M A) acc :
  (forall acc t, emits Q (body acc t)) ->
  P (Llm.messages self) ->
  emits Q (Llm.generate_stream ext self user_text body acc).
Proof.
  intros Hbody HP. unfold Llm.generate_stream.
  pose proof (pump_emits body) as Hpump.
  assert (HP' : P (Llm.messages (if truthy user_text
                                 then Llm.add_user_message self user_text else self))).
  { destruct (truthy user_text); [apply P_app|]; exact HP. }
  pose proof (emits_llm_post _ HP'). discipline.
Qed.

Lemma generate_and_synthesize_emits L :
  P (Llm.messages (llm_client L)) -> emits Q (generate_and_synthesize ext L).
Proof.
  intros HP. unfold generate_and_synthesize.
  pose proof (generate_stream_emits (llm_client L) (asr_result L) (on_llm_chunk ext)
                ([], tts_client L) on_llm_chunk_emits HP).
  discipline.
Qed.

Lemma on_end_emits L : P (Llm.messages (llm_client L)) -> emits Q (on_end ext L).
Proof.
  intros HP. unfold on_end, send_json, send_text, fresh_asr.
  pose proof (fun self acc =>
                receive_results_emits self (fun (_ : json) text => ret text) acc
                  (fun _ t => emits_ret t)).
  pose proof (fun asr r => generate_and_synthesize_emits
                {| asr_client := Some asr; tts_client := tts_client L;
                   llm_client := llm_client L; asr_result := r |} HP).
  discipline.
Qed.

Lemma on_bytes_emits L audio : emits Q (on_bytes ext L audio).
Proof.
  unfold on_bytes, fresh_asr, fresh_tts. pose proof tts_connect_emits. discipline.
Qed.

Lemma step_emits m L : P (Llm.messages (llm_client L)) -> emits Q (step ext m L).
Proof.
  intros HP. unfold step. pose proof (on_end_emits L HP). pose proof (on_bytes_emits L).
  discipline.
Qed.

(** The whole loop: events that satisfy [Q], then at most the report
    of one exception. *)
Lemma main_loop_emits msgs : forall L w,
  P (Llm.messages (llm_client L)) ->
  exists evs tail,
    trace (snd (main_loop ext msgs L w)) = trace w ++ evs ++ tail /\
    Forall Q evs /\
    (tail = [] \/
     exists e, tail = [Log (TurnError e); SendJson (lit "error") (JStr (str_of_exn ext e))]).
Proof.
  induction msgs as [|m rest IH]; intros L w HP; cbn [main_loop].
  - exists [], []. cbn. rewrite app_nil_r. split; [reflexivity|].
    split; [constructor | now left].
  - destruct (step_emits m L HP w) as (evs1 & Htrace1 & HQ1).
    destruct (step ext m L w) as [[[[|] L']|e] w1] eqn:Hstep; cbn [snd] in Htrace1.
    + destruct (step_history ext m L L' Continue w w1 Hstep) as (t & Hmsgs & _).
      destruct (IH L' w1) as (evs2 & tail & Htrace2 & HQ2 & Htail).
      { rewrite Hmsgs. now apply P_app. }
      exists (evs1 ++ evs2), tail. rewrite Htrace2, Htrace1, <- !app_assoc.
      split; [reflexivity|]. split; [now apply Forall_app | exact Htail].
    + exists evs1, []. cbn [snd]. rewrite app_nil_r.
      split; [exact Htrace1|]. split; [exact HQ1 | now left].
    + exists evs1, [Log (TurnError e); SendJson (lit "error") (JStr (str_of_exn ext e))].
      split; [|split; [exact HQ1 | right; now exists e]].
      cbn [snd bind emit send_json extend trace]. rewrite Htrace1, <- !app_assoc.
      reflexivity.
Qed.

End Discipline.

Ltac with_discipline H :=
  repeat match type of H with
         | ?A -> _ =>
             let a := fresh in
             assert (a : A) by (intros; cbn; first [reflexivity | tauto | auto]);
             specialize (H a); clear a
         end.

(** X21.  Whatever the client sends and whatever the services answer,
    everything the connection sends to the client is a JSON message of
    type [asr], [llm], [tts] or [error], or the text [over]. *)
Theorem client_is_sent_only_protocol_messages (ext : Externals) (msgs : list ClientMsg)
  (w : World) :
  exists evs,
    trace (snd (websocket_voice_chat ext msgs w)) = trace w ++ evs /\
    Forall client_protocol evs.
Proof.
  unfold websocket_voice_chat. cbv zeta.
  pose proof (main_loop_emits ext client_protocol (fun _ => True)) as H.
  with_discipline H.
  match goal with
  | |- context [main_loop ext msgs ?L w] =>
      destruct (H msgs L w I) as (evs & tail & Htrace & HQ & Htail)
  end.
  exists (evs ++ tail). split; [exact Htrace|].
  apply Forall_app. split; [exact HQ|].
  destruct Htail as [-> | (e & ->)]; [constructor|].
  constructor; [exact I|]. constructor; [|constructor].
  right. right. right. reflexivity.
Qed.

(** X22.  Every request the connection makes to the generation service
    names the configured model and opens with the system prompt chosen
    when the connection started: the configured character prompt, or
    the built-in one when that is empty. *)
Theorem every_request_opens_with_the_prompt (ext : Externals) (msgs : list ClientMsg)
  (w : World) :
  exists evs,
    trace (snd (websocket_voice_chat ext msgs w)) = trace w ++ evs /\
    Forall (prompted ext match character_setting_prompt ext with
                         | [] => builtin_prompt
                         | _ :: _ => character_setting_prompt ext
                         end) evs.
Proof.
  unfold websocket_voice_chat. cbv zeta.
  set (prompt := match character_setting_prompt ext with
                 | [] => builtin_prompt
                 | _ :: _ => character_setting_prompt ext
                 end).
  pose proof (main_loop_emits ext (prompted ext prompt)
                (fun ms => hd_error ms = Some (lit "system", JStr prompt))) as H.
  with_discipline H.
  assert (Happ : forall (ms t : list (str * json)),
             hd_error ms = Some (lit "system", JStr prompt) ->
             hd_error (ms ++ t) = Some (lit "system", JStr prompt)).
  { intros [|x ms] t; [discriminate | trivial]. }
  specialize (H Happ).
  match goal with
  | |- context [main_loop ext msgs ?L w] =>
      destruct (H msgs L w eq_refl) as (evs & tail & Htrace & HQ & Htail)
  end.
  exists (evs ++ tail). split; [exact Htrace|].
  apply Forall_app. split; [exact HQ|].
  destruct Htail as [-> | (e & ->)]; repeat constructor.
Qed.

(** X23.  A connection reports at most one error to the client, and
    the report is the last thing it does: an [error] message is only
    sent, right after the exception is logged, when an iteration of
    the loop raised, and the loop ends there. *)
Theorem error_report_is_final (ext : Externals) (msgs : list ClientMsg) (w : World) :
  exists evs tail,
    trace (snd (websocket_voice_chat ext msgs w)) = trace w ++ evs ++ tail /\
    Forall no_error_report evs /\
    (tail = [] \/
     exists e, tail = [Log (TurnError e); SendJson (lit "error") (JStr (str_of_exn ext e))]).
Proof.
  unfold websocket_voice_chat. cbv zeta.
  pose proof (main_loop_emits ext no_error_report (fun _ => True)) as H.
  with_discipline H.
  apply H. exact I.
Qed.

End DisciplineFacts.

(* ================================================================== *)
(** ** The toy configuration *)
(* ================================================================== *)

Module ConfigFacts.
Import Config Main PyFacts Notions DisciplineFacts.

(** From the second line on, the loop of [load_toy_config] only adds
    voices that are not chosen and leaves [voice_id] alone. *)
Lemma read_voices_later : forall lines idx vars,
  1 <= idx ->
  exists more,
    read_voices idx lines vars = (fst vars ++ more, snd vars) /\
    Forall (fun v => choose v = false) more.
Proof.
  induction lines as [|line rest IH]; intros idx vars Hidx; cbn [read_voices].
  - exists []. rewrite app_nil_r. split; [now destruct vars | constructor].
  - assert (Hz : (idx =? 0) = false) by (apply Z.eqb_neq; lia).
    cbv zeta. rewrite Hz.
    destruct (strip line) as [|c l].
    + apply IH. lia.
    + destruct (split (c :: l) 44%N) as [|code [|name parts]];
        try (apply IH; lia).
      destruct (IH (idx + 1)
                  (fst vars ++ [{| voice_name := strip name; voice_code := strip code;
                                   choose := false |}], snd vars)) as (more & Hrun & Hmore);
        [lia|].
      cbn [fst snd] in Hrun. rewrite Hrun, <- app_assoc.
      eexists. split; [reflexivity|]. constructor; [reflexivity | exact Hmore].
Qed.

(** X24.  After [load_toy_config] at most one voice is marked as
    chosen, and it is the first of the list; [voice_id] is then its
    code.  When no voice is chosen (the voice file cannot be read, or
    its very first line is blank or has no comma), [voice_id] keeps the
    value it had. *)
Theorem only_the_first_voice_is_chosen (fs : FileSystem) (d : Disk fs) (g : Globals) :
  (Forall (fun v => choose v = false) (voices (load_toy_config fs d g)) /\
   voice_id (load_toy_config fs d g) = voice_id g) \/
  (exists v more,
      voices (load_toy_config fs d g) = v :: more /\
      choose v = true /\
      voice_id (load_toy_config fs d g) = voice_code v /\
      Forall (fun v => choose v = false) more).
Proof.
  unfold load_toy_config.
  destruct (read_text fs d (data_path "voice_id.txt")) as [s|e].
  2:{ left. cbn [voices voice_id]. split; [constructor | reflexivity]. }
  destruct (readlines s) as [|line rest].
  { left. cbn [read_voices voices voice_id]. split; [constructor | reflexivity]. }
  cbn [read_voices]. cbv zeta. cbn [Z.eqb fst snd app Z.add].
  destruct (strip line) as [|c l].
  - destruct (read_voices_later rest 1 ([], voice_id g)) as (more & -> & Hmore); [lia|].
    left. cbn [voices voice_id fst snd app]. split; [exact Hmore | reflexivity].
  - destruct (split (c :: l) 44%N) as [|code [|name parts]].
    + destruct (read_voices_later rest 1 ([], voice_id g)) as (more & -> & Hmore); [lia|].
      left. cbn [voices voice_id fst snd app]. split; [exact Hmore | reflexivity].
    + destruct (read_voices_later rest 1 ([], voice_id g)) as (more & -> & Hmore); [lia|].
      left. cbn [voices voice_id fst snd app]. split; [exact Hmore | reflexivity].
    + destruct (read_voices_later rest 1
                  ([{| voice_name := strip name; voice_code := strip code; choose := true |}],
                   strip code)) as (more & -> & Hmore); [lia|].
      right. cbn [voices voice_id fst snd app].
      eexists _, more. repeat split. exact Hmore.
Qed.

(** X25.  A save that succeeds sets the three module variables from
    the request, keeps the voices with their names and codes in order,
    and marks as chosen exactly the voices whose code is the requested
    one: none when the code is unknown, several when it is listed more
    than once; [voice_id] is the requested code in either case. *)
Theorem save_marks_the_matching_voices (fs : FileSystem) (config : ToyConfigSave.t)
  (d d' : Disk fs) (g g' : Globals) :
  save_toy_config fs config d g = (Done tt, d', g') ->
  toy_name g' = ToyConfigSave.toy_name config /\
  voice_id g' = ToyConfigSave.voice_code config /\
  toy_prompt g' = ToyConfigSave.toy_prompt config /\
  map voice_name (voices g') = map voice_name (voices g) /\
  map voice_code (voices g') = map voice_code (voices g) /\
  map choose (voices g')
  = map (fun v => str_eqb (voice_code v) (ToyConfigSave.voice_code config)) (voices g).
Proof.
  unfold save_toy_config.
  destruct (write_text fs d _ _) as [[u|e] d1]; [|discriminate].
  destruct (write_text fs d1 _ _) as [[u'|e] d2]; [|discriminate].
  intros [= <- <-]. cbn [toy_name voice_id toy_prompt voices].
  rewrite !map_map. cbn [voice_name voice_code choose].
  repeat split.
Qed.

Lemma save_marks_the_matching_voices_witness :
  let g := load_toy_config DemoFiles.fs (DemoFiles.shelf false) (initial (lit "v_0")) in
  exists d' g',
    save_toy_config DemoFiles.fs DemoFiles.new_config (DemoFiles.shelf false) g
    = (Done tt, d', g') /\
    toy_name g' = lit "Mecha" /\
    voice_id g' = lit "v_b" /\
    toy_prompt g' = lit "Be bold." /\
    map voice_name (voices g') = map voice_name (voices g) /\
    map voice_code (voices g') = map voice_code (voices g) /\
    map choose (voices g')
    = map (fun v => str_eqb (voice_code v) (lit "v_b")) (voices g).
Proof.
  intros g.
  destruct (save_toy_config DemoFiles.fs DemoFiles.new_config (DemoFiles.shelf false) g)
    as [[r d'] g'] eqn:Hrun.
  assert (Hr : r = Done tt) by (vm_compute in Hrun; congruence).
  subst r. exists d', g'. split; [reflexivity|].
  exact (save_marks_the_matching_voices DemoFiles.fs DemoFiles.new_config _ d' g g' Hrun).
Defined.

(** X26.  A save is not all or nothing: when the name file is written
    and the prompt file then cannot be, [save_toy_info] answers with
    [success] false and the failure message, yet the name file is
    written and [toy_name], [voice_id] and the chosen marks have
    already changed; only [toy_prompt] keeps its value. *)
Theorem failed_prompt_write_leaves_half_a_save (fs : FileSystem)
  (config : ToyConfigSave.t) (d d1 d2 : Disk fs) (e : io_error) (g : Globals) :
  write_text fs d (data_path "toy_name.txt") (ToyConfigSave.toy_name config)
  = (Done tt, d1) ->
  write_text fs d1 (prompts_path (lit "character_setting_prompt.txt"))
    (ToyConfigSave.toy_prompt config) = (Failed e, d2) ->
  exists g',
    save_toy_info fs config d g
    = ((false, save_failed ++ str_of_io_error fs e), d2, g') /\
    toy_name g' = ToyConfigSave.toy_name config /\
    voice_id g' = ToyConfigSave.voice_code config /\
    map choose (voices g')
    = map (fun v => str_eqb (voice_code v) (ToyConfigSave.voice_code config)) (voices g) /\
    toy_prompt g' = toy_prompt g.
Proof.
  intros Hname Hprompt. unfold save_toy_info, save_toy_config.
  rewrite Hname, Hprompt. eexists. split; [reflexivity|].
  cbn [toy_name voice_id toy_prompt voices]. rewrite map_map. cbn [choose voice_code].
  repeat split.
Qed.

Lemma failed_prompt_write_leaves_half_a_save_witness :
  let g := load_toy_config DemoFiles.fs (DemoFiles.shelf true) (initial (lit "v_0")) in
  exists d2 g',
    save_toy_info DemoFiles.fs DemoFiles.new_config (DemoFiles.shelf true) g
    = ((false, save_failed ++ lit "Permission denied"), d2, g') /\
    toy_name g' = lit "Mecha" /\
    voice_id g' = lit "v_b" /\
    map choose (voices g')
    = map (fun v => str_eqb (voice_code v) (lit "v_b")) (voices g) /\
    toy_prompt g' = toy_prompt g.
Proof.
  intros g.
  exists (snd (DemoFiles.write (DemoFiles.shelf true) (data_path "toy_name.txt") (lit "Mecha"))).
  apply (failed_prompt_write_leaves_half_a_save DemoFiles.fs DemoFiles.new_config
           (DemoFiles.shelf true)
           (snd (DemoFiles.write (DemoFiles.shelf true) (data_path "toy_name.txt")
                   (lit "Mecha")))
           (snd (DemoFiles.write (DemoFiles.shelf true) (data_path "toy_name.txt")
                   (lit "Mecha")))
           PermissionError g); reflexivity.
Defined.

(** Writing one file leaves what the others read as unchanged. *)
Lemma demo_files_are_separate (d : DemoFiles.disk) (p : list str) (s : str) (q : list str) :
  q <> p ->
  read_text DemoFiles.fs (snd (write_text DemoFiles.fs d p s)) q = read_text DemoFiles.fs d q.
Proof.
  intros Hneq. cbn [read_text write_text DemoFiles.fs]. unfold DemoFiles.write.
  destruct (existsb _ _); cbn [snd]; [reflexivity|].
  unfold DemoFiles.read. cbn [DemoFiles.files DemoFiles.find].
  unfold DemoFiles.path_eqb at 1.
  destruct (list_eq_dec (list_eq_dec N.eq_dec) q p); [contradiction | reflexivity].
Qed.

(** X27.  The chosen voice is not persisted: [save_toy_config] never
    writes the voice file, so on a file system where writing one file
    does not change another, whatever was saved (and whether the save
    succeeded or not), loading the configuration again yields the
    voices, the chosen marks and the [voice_id] that the voice file
    gave before the save. *)
Theorem saved_voice_is_not_persisted (fs : FileSystem) (config : ToyConfigSave.t)
  (d d' : Disk fs) (g g' g0 : Globals) (r : Io unit) :
  (forall d p s q, q <> p -> read_text fs (snd (write_text fs d p s)) q = read_text fs d q) ->
  save_toy_config fs config d g = (r, d', g') ->
  voices (load_toy_config fs d' g0) = voices (load_toy_config fs d g0) /\
  voice_id (load_toy_config fs d' g0) = voice_id (load_toy_config fs d g0).
Proof.
  intros Hsep Hsave.
  assert (Hread : read_text fs d' (data_path "voice_id.txt")
                  = read_text fs d (data_path "voice_id.txt")).
  { unfold save_toy_config in Hsave.
    pose proof (Hsep d (data_path "toy_name.txt") (ToyConfigSave.toy_name config)
                  (data_path "voice_id.txt") ltac:(discriminate)) as H1.
    destruct (write_text fs d _ _) as [[u|e] d1]; cbn [snd] in H1.
    2:{ injection Hsave as _ <- _. exact H1. }
    pose proof (Hsep d1 (prompts_path (lit "character_setting_prompt.txt"))
                  (ToyConfigSave.toy_prompt config)
                  (data_path "voice_id.txt") ltac:(discriminate)) as H2.
    destruct (write_text fs d1 _ _) as [[u'|e] d2]; cbn [snd] in H2;
      injection Hsave as _ <- _; congruence. }
  unfold load_toy_config. rewrite Hread.
  destruct (match read_text fs d (data_path "voice_id.txt") with
            | Done s => _
            | Failed _ => _
            end) as [vs vid].
  split; reflexivity.
Qed.

Lemma saved_voice_is_not_persisted_witness :
  let g := load_toy_config DemoFiles.fs (DemoFiles.shelf false) (initial (lit "v_0")) in
  let after := save_toy_config DemoFiles.fs DemoFiles.new_config (DemoFiles.shelf false) g in
  voices (load_toy_config DemoFiles.fs (snd (fst after)) (initial (lit "v_0")))
  = voices (load_toy_config DemoFiles.fs (DemoFiles.shelf false) (initial (lit "v_0"))) /\
  voice_id (load_toy_config DemoFiles.fs (snd (fst after)) (initial (lit "v_0")))
  = voice_id (load_toy_config DemoFiles.fs (DemoFiles.shelf false) (initial (lit "v_0"))).
Proof.
  intros g after.
  apply (saved_voice_is_not_persisted DemoFiles.fs DemoFiles.new_config
           (DemoFiles.shelf false) (snd (fst after)) g (snd after)
           (initial (lit "v_0")) (fst (fst after))).
  - exact demo_files_are_separate.
  - subst after. destruct (save_toy_config _ _ _ _) as [[r d'] g']. reflexivity.
Defined.

(** X28.  When the character prompt of a connection is what
    [load_prompt] returns, every request to the generation service
    opens with: the text of the prompt file with the white space at
    its ends removed; the built-in prompt when that text is empty; and,
    when the file cannot be read, the failure message that
    [load_prompt] returns in its place, never the built-in prompt. *)
Theorem prompt_of_every_request (fs : FileSystem) (d : Disk fs) (ext : Externals)
  (msgs : list ClientMsg) (w : World) :
  character_setting_prompt ext = load_prompt fs d (lit "character_setting_prompt.txt") ->
  exists evs,
    trace (snd (websocket_voice_chat ext msgs w)) = trace w ++ evs /\
    Forall (prompted ext
              match read_text fs d (prompts_path (lit "character_setting_prompt.txt")) with
              | Done s => match strip s with
                          | [] => builtin_prompt
                          | _ :: _ => strip s
                          end
              | Failed e => load_failed ++ str_of_io_error fs e
              end) evs.
Proof.
  intros Hprompt. unfold websocket_voice_chat. cbv zeta. rewrite Hprompt.
  unfold load_prompt.
  set (prompt := match read_text fs d (prompts_path (lit "character_setting_prompt.txt")) with
                 | Done s => match strip s with
                             | [] => builtin_prompt
                             | _ :: _ => strip s
                             end
                 | Failed e => load_failed ++ str_of_io_error fs e
                 end).
  pose proof (main_loop_emits ext (prompted ext prompt)
                (fun ms => hd_error ms = Some (lit "system", JStr prompt))) as H.
  with_discipline H.
  assert (Happ : forall (ms t : list (str * json)),
             hd_error ms = Some (lit "system", JStr prompt) ->
             hd_error (ms ++ t) = Some (lit "system", JStr prompt)).
  { intros [|x ms] t; [discriminate | trivial]. }
  specialize (H Happ).
  match goal with
  | |- context [main_loop ext msgs ?L w] =>
      destruct (H msgs L w) as (evs & tail & Htrace & HQ & Htail)
  end.
  { subst prompt. destruct (read_text fs d _) as [s|e]; [destruct (strip s)|];
      reflexivity. }
  exists (evs ++ tail). split; [exact Htrace|].
  apply Forall_app. split; [exact HQ|].
  destruct Htail as [-> | (e & ->)]; repeat constructor.
Qed.

Lemma prompt_of_every_request_witness :
  let w := {| asr_remote := [[BINARY (Demo.asr_response 1 1 []);
                              BINARY (Demo.asr_response 3 (-2) (lit "hello"))];
                             [BINARY (Demo.asr_response 1 1 [])]];
              tts_remote := [inbox Demo.tts_session];
              llm_remote := [[Demo.delta_line (lit "Hi.")]];
              uuids := 0; trace := [] |} in
  exists evs,
    trace (snd (websocket_voice_chat (DemoFiles.ext_on DemoFiles.bare)
                  [ReceiveBytes [x01]; ReceiveText Demo.end_command] w))
    = trace w ++ evs /\
    Forall (prompted (DemoFiles.ext_on DemoFiles.bare)
              match read_text DemoFiles.fs DemoFiles.bare
                      (prompts_path (lit "character_setting_prompt.txt")) with
              | Done s => match strip s with
                          | [] => builtin_prompt
                          | _ :: _ => strip s
                          end
              | Failed e => load_failed ++ str_of_io_error DemoFiles.fs e
              end) evs.
Proof.
  intros w.
  apply (prompt_of_every_request DemoFiles.fs DemoFiles.bare (DemoFiles.ext_on DemoFiles.bare)
           [ReceiveBytes [x01]; ReceiveText Demo.end_command] w).
  reflexivity.
Defined.
End ConfigFacts.
